(** * 24DIGI revenue analytics: pricing catalog, aggregate calculator, forecaster

    A shallow embedding of [modules/data_manager.py], [modules/calculator.py]
    and [modules/forecaster.py], with the constants of [config/app_config.py].

    Conventions of the embedding.

    - Python numbers ([int] and [float]) are exact rationals [Q]; [int(x)]
      truncates toward zero; [a / b] raises [ZeroDivisionError] on a zero
      divisor.  Rounding, overflow and the non-finite floats are outside the
      model, except in the break-even analysis, where the source itself
      builds [float('inf')] and the extended values are modelled.
    - A Python dictionary is an association list in insertion order with
      unique keys ([dget], [dset]).
    - The dictionaries nested in [DataManager.inputs] are mutable objects in a
      store [heap]; a top-level [dict.copy()] copies the bindings, not the
      objects they point to.
    - A method is a computation [M A]: it takes the world (the data manager's
      attributes, the object store, Streamlit's session state) and gives a
      [result] together with the world it leaves, also when it raises.
    - Arithmetic on a pricing value that is not a number raises [TypeError]
      at once.  Python would concatenate or repeat [str] and [list] operands
      and raise [TypeError] at the subtraction that follows in every path;
      the two agree on whether a call raises and on the state it leaves. *)

From Stdlib Require Import ZArith QArith Qpower List String Lia Lqa
  DecimalString Sorted.
From Stdlib Require PrimFloat DecimalPos DecimalZ.
From stdpp Require Import base option list gmap strings.

Set Warnings "-register-all".

Local Open Scope string_scope.
Local Open Scope Q_scope.

(** ** Exceptions and results *)

Inductive exn : Type :=
  | ZeroDivisionError
  | KeyError (key : string)
  | AttributeError
  | TypeError
  | OverflowError
  | ValueError
  | JSONDecodeError
  | DanglingReference.

Inductive result (A : Type) : Type :=
  | Ok (a : A)
  | Raise (e : exn).
Arguments Ok {A} a.
Arguments Raise {A} e.

#[global] Instance result_ret : MRet result := fun A a => Ok a.
#[global] Instance result_bind : MBind result := fun A B f r =>
  match r with
  | Ok a => f a
  | Raise e => Raise e
  end.

(** ** Numbers *)

(** [int(x)] on a finite number: truncation toward zero. *)
Definition py_int (x : Q) : Z := Z.quot (Qnum x) (Zpos (Qden x)).

Definition Qgtb (x y : Q) : bool := negb (Qle_bool x y).
Definition Qgeb (x y : Q) : bool := Qle_bool y x.

(** [a / b] *)
Definition truediv (a b : Q) : result Q :=
  if Qeq_bool b 0 then Raise ZeroDivisionError else Ok (a / b).

(** [str(n)] for an [int]. *)
Definition str_of_int (n : Z) : string := NilZero.string_of_int (Z.to_int n).

(** ** Dictionaries *)

Section Dict.
Context {V : Type}.

Fixpoint dget (d : list (string * V)) (k : string) : option V :=
  match d with
  | [] => None
  | (k', v) :: d' => if String.eqb k' k then Some v else dget d' k
  end.

Definition dmem (d : list (string * V)) (k : string) : bool :=
  match dget d k with Some _ => true | None => false end.

(** [d[k] = v]: an existing key keeps its place. *)
Fixpoint dset (d : list (string * V)) (k : string) (v : V) : list (string * V) :=
  match d with
  | [] => [(k, v)]
  | (k', v') :: d' =>
      if String.eqb k' k then (k', v) :: d' else (k', v') :: dset d' k v
  end.

(** [d.get(k, dflt)] *)
Definition dget_default (d : list (string * V)) (k : string) (dflt : V) : V :=
  match dget d k with Some v => v | None => dflt end.

(** [d[k]] *)
Definition dsubscript (d : list (string * V)) (k : string) : result V :=
  match dget d k with Some v => Ok v | None => Raise (KeyError k) end.
End Dict.

(** ** JSON values, as [json.loads] builds them *)

Inductive json : Type :=
  | JNull
  | JBool (b : bool)
  | JNum (q : Q)
  | JStr (s : string)
  | JList (l : list json)
  | JDict (d : list (string * json)).

(** [v.get(k, dflt)]: only a [dict] has [get]. *)
Definition json_get (v : json) (k : string) (dflt : json) : result json :=
  match v with
  | JDict d => Ok (dget_default d k dflt)
  | _ => Raise AttributeError
  end.

(** [v[k]] with a string key. *)
Definition json_subscript (v : json) (k : string) : result json :=
  match v with
  | JDict d => dsubscript d k
  | _ => Raise TypeError
  end.

(** The number an arithmetic operand stands for ([bool] is an [int]). *)
Definition json_num (v : json) : result Q :=
  match v with
  | JNum q => Ok q
  | JBool b => Ok (if b then 1 else 0)
  | _ => Raise TypeError
  end.

(** [s == 'VIP'] for an element of a list. *)
Definition json_is_str (s : string) (v : json) : bool :=
  match v with
  | JStr s' => String.eqb s' s
  | _ => false
  end.

(** [sub in s] for two strings. *)
Fixpoint is_substring (sub s : string) : bool :=
  if String.prefix sub s then true
  else match s with
       | EmptyString => false
       | String _ s' => is_substring sub s'
       end.

(** [k in v] *)
Definition json_contains (v : json) (k : string) : result bool :=
  match v with
  | JDict d => Ok (dmem d k)
  | JList l => Ok (existsb (json_is_str k) l)
  | JStr s => Ok (is_substring k s)
  | _ => Raise TypeError
  end.

(** ** The data of the application *)

(** The [totals] entry of the comprehensive results. *)
Module Totals.
Record t : Type := mk {
  total_cost : Q;
  total_revenue : Q;
  total_profit : Q;
  profit_margin : Q;
  total_customers : Q;
  revenue_per_customer : Q;
  cost_per_customer : Q;
  profit_per_customer : Q
}.
End Totals.

Definition loc := positive.

(** A value of [inputs]: a quantity or fee, or a nested
    [{'customers': .., 'renewals': ..}] object. *)
Inductive ival : Type :=
  | INum (q : Q)
  | IRef (l : loc).

Abbreviation inputs_dict := (list (string * ival)).
Abbreviation counts_dict := (list (string * Q)).

Record session_state : Type := {
  ss_pricing_data : option json;
  ss_input_data : option inputs_dict;
  last_calculation : option Totals.t
}.

Record world : Type := {
  heap : gmap loc counts_dict;
  pricing_data : json;
  inputs : inputs_dict;
  session : session_state
}.

(** ** Computations over the world *)

Definition M (A : Type) : Type := world -> result A * world.

#[global] Instance M_ret : MRet M := fun A a w => (Ok a, w).
#[global] Instance M_bind : MBind M := fun A B f m w =>
  match m w with
  | (Ok a, w') => f a w'
  | (Raise e, w') => (Raise e, w')
  end.

Definition lift {A} (r : result A) : M A := fun w => (r, w).
Definition raise {A} (e : exn) : M A := lift (Raise e).
Definition get_pricing : M json := fun w => (Ok (pricing_data w), w).
Definition get_inputs : M inputs_dict := fun w => (Ok (inputs w), w).

Definition set_pricing (p : json) : M unit := fun w =>
  (Ok tt, {| heap := heap w; pricing_data := p; inputs := inputs w;
             session := session w |}).
Definition set_inputs (i : inputs_dict) : M unit := fun w =>
  (Ok tt, {| heap := heap w; pricing_data := pricing_data w; inputs := i;
             session := session w |}).
Definition set_session (s : session_state) : M unit := fun w =>
  (Ok tt, {| heap := heap w; pricing_data := pricing_data w;
             inputs := inputs w; session := s |}).
Definition get_session : M session_state := fun w => (Ok (session w), w).

(** The object behind a reference. *)
Definition deref (l : loc) : M counts_dict := fun w =>
  match heap w !! l with
  | Some d => (Ok d, w)
  | None => (Raise DanglingReference, w)
  end.

(** [obj[k] = v] on the object behind [l]. *)
Definition store (l : loc) (k : string) (v : Q) : M unit := fun w =>
  match heap w !! l with
  | Some d =>
      (Ok tt, {| heap := <[l := dset d k v]> (heap w);
                 pricing_data := pricing_data w; inputs := inputs w;
                 session := session w |})
  | None => (Raise DanglingReference, w)
  end.

(** A [for] loop over a list, threading the variables it assigns; an
    exception leaves the loop. *)
Fixpoint for_each {m : Type -> Type} `{!MRet m, !MBind m} {A B}
    (l : list A) (acc : B) (body : B -> A -> m B) : m B :=
  match l with
  | [] => mret acc
  | x :: l' => acc' ← body acc x; for_each l' acc' body
  end.

(** [range(lo, hi)] *)
Definition py_range (lo hi : Z) : list Z :=
  map (fun i => (lo + Z.of_nat i)%Z) (seq 0 (Z.to_nat (hi - lo))).

(** [d.copy()]: a new dictionary with the same bindings, to the same
    objects. *)
Definition shallow_copy {V} (d : list (string * V)) : list (string * V) := d.

(** A scenario: [growth_rate], [retention_rate] and the optional keys
    ['pricing_adjustments'] and ['quantity_adjustments']. *)
Module Scenario.
Record t : Type := mk {
  growth_rate : Q;
  retention_rate : Q;
  pricing_adjustments : option json;
  quantity_adjustments : option inputs_dict
}.
End Scenario.

(** ** config/app_config.py *)

Module AppConfig.

Definition entry (cost selling profit : Q) : json :=
  JDict [("cost", JNum cost); ("selling", JNum selling); ("profit", JNum profit)].

Definition DEFAULT_PRICING : json :=
  JDict [
    ("VIP", JDict [
      ("mealsPerMonth", entry 1000 1500 500);
      ("meals3Months", entry 3000 4500 1500);
      ("deliveryPerMonth", entry 200 200 0);
      ("delivery3Months", entry 600 600 0);
      ("bracelet", entry 315 800 485);
      ("pointsX10", entry 300 250 (-50));
      ("digitalProfit", JNum 500);
      ("carOneMonth", entry 5512.5 5512.5 0);
      ("carThreeMonths", entry 16537.5 16537.5 0)]);
    ("Normal", JDict [
      ("mealsPerMonth", entry 900 1306.67 406.67);
      ("meals3Months", entry 2700 3920 1220);
      ("deliveryPerMonth", entry 200 200 0);
      ("delivery3Months", entry 600 600 0);
      ("bracelet", entry 315 600 285);
      ("pointsX10", entry 50 30 (-20));
      ("digitalProfit", JNum 500);
      ("carOneMonth", entry 6500 6500 0);
      ("carThreeMonths", entry 19500 19500 0)]);
    ("Custom", JDict [
      ("mealsPerMonth", entry 1000 1500 500);
      ("meals3Months", entry 3000 4500 1500);
      ("deliveryPerMonth", entry 200 200 0);
      ("delivery3Months", entry 600 600 0);
      ("braceletVIP", entry 315 800 485);
      ("braceletNormal", entry 315 600 285);
      ("pointsX10", entry 0 0 0);
      ("cbyiOneMonth", entry 1700 1700 0);
      ("cbyiThreeMonths", entry 5100 5100 0);
      ("cbyiBraceletVIP", entry 0 800 800);
      ("cbyiBraceletNormal", entry 0 600 600)])].

Definition SUBSCRIPTION_TYPES : list string := ["VIP"; "Normal"; "Custom"].
Definition SUBSCRIPTION_DURATIONS : list Z := [1%Z; 3%Z].
Definition FORECAST_PERIODS : list Z := [3%Z; 6%Z; 9%Z; 12%Z].

Definition GROWTH_SCENARIOS : list (string * Scenario.t) := [
  ("Conservative", Scenario.mk 0.05 0.85 None None);
  ("Moderate", Scenario.mk 0.15 0.90 None None);
  ("Aggressive", Scenario.mk 0.30 0.95 None None);
  ("Optimistic", Scenario.mk 0.50 0.98 None None)].

(** [DEFAULT_INPUTS]: its six nested dictionaries are the objects 1 to 6. *)
Definition DEFAULT_COUNTS : gmap loc counts_dict :=
  list_to_map [
    (1%positive, [("customers", 30); ("renewals", 10)]);
    (2%positive, [("customers", 20); ("renewals", 5)]);
    (3%positive, [("customers", 60); ("renewals", 40)]);
    (4%positive, [("customers", 90); ("renewals", 80)]);
    (5%positive, [("customers", 30); ("renewals", 25)]);
    (6%positive, [("customers", 50); ("renewals", 40)])].

Definition DEFAULT_INPUTS : inputs_dict := [
  ("VIP_1_month", IRef 1%positive);
  ("VIP_3_months", IRef 2%positive);
  ("Normal_1_month", IRef 3%positive);
  ("Normal_3_months", IRef 4%positive);
  ("Custom_1_month", IRef 5%positive);
  ("Custom_3_months", IRef 6%positive);
  ("additional_bracelets", INum 2);
  ("challenge_participants", INum 5);
  ("adventure_participants", INum 5);
  ("competition_participants", INum 5);
  ("cbyi_non_subscribers", INum 2);
  ("bracelets_non_subscribers", INum 2);
  ("car_rental_customers", INum 0);
  ("challenge_fee", INum 25);
  ("adventure_fee", INum 40);
  ("competition_fee", INum 35)].

End AppConfig.

(** ** modules/data_manager.py *)

Module Combo.
Record t : Type := mk {
  type : string;
  duration : Z;
  key : string;
  display_name : string
}.
End Combo.

Module Package.
Record t : Type := mk { cost : Q; revenue : Q; profit : Q }.
End Package.

Module Service.
Record t : Type := mk { cost : Q; revenue : Q; profit : Q }.
End Service.

(** A row of the summary [DataFrame]: ['Subscription Type'],
    ['Duration (Months)'], ['Customers'] and so on. *)
Module SummaryRow.
Record t : Type := mk {
  subscription_type : string;
  duration_months : Z;
  customers : Q;
  cost_per_customer : Q;
  revenue_per_customer : Q;
  total_cost : Q;
  total_revenue : Q;
  total_profit : Q;
  profit_margin : Q;
  renewals : Q;
  renewal_revenue : Q
}.
End SummaryRow.

Module DataManager.

(** The data manager after [__init__] in a fresh session. *)
Definition init : world := {|
  heap := AppConfig.DEFAULT_COUNTS;
  pricing_data := AppConfig.DEFAULT_PRICING;
  inputs := AppConfig.DEFAULT_INPUTS;
  session := {| ss_pricing_data := Some AppConfig.DEFAULT_PRICING;
                ss_input_data := Some AppConfig.DEFAULT_INPUTS;
                last_calculation := None |}
|}.

Fixpoint all_present (data : json) (required_types : list string) : result bool :=
  match required_types with
  | [] => Ok true
  | sub_type :: rest =>
      present ← json_contains data sub_type;
      if present : bool then all_present data rest else Ok false
  end.

Definition _validate_pricing_structure (data : json) : result bool :=
  all_present data ["VIP"; "Normal"; "Custom"].

(** [json.loads] is the standard library's; it is a parameter here, an
    invalid document giving [Raise JSONDecodeError].  Only that exception is
    caught. *)
Definition import_pricing_config (json_loads : string -> result json)
    (config_json : string) : M bool :=
  match json_loads config_json with
  | Ok data =>
      valid ← lift (_validate_pricing_structure data);
      if valid : bool then
        set_pricing data;;
        s ← get_session;
        set_session {| ss_pricing_data := Some data;
                       ss_input_data := ss_input_data s;
                       last_calculation := last_calculation s |};;
        mret true
      else mret false
  | Raise JSONDecodeError => mret false
  | Raise e => raise e
  end.

Definition combination (sub_type : string) (duration : Z) : Combo.t :=
  let plural := if (duration >? 1)%Z then "s" else "" in
  {| Combo.type := sub_type;
     Combo.duration := duration;
     Combo.key := sub_type ++ "_" ++ str_of_int duration ++ "_month" ++ plural;
     Combo.display_name :=
       sub_type ++ " - " ++ str_of_int duration ++ " Month" ++ plural |}.

Definition get_subscription_combinations : list Combo.t :=
  sub_type ← AppConfig.SUBSCRIPTION_TYPES;
  duration ← AppConfig.SUBSCRIPTION_DURATIONS;
  [combination sub_type duration].

(** [pricing.get(name, {}).get(field, 0)] *)
Definition component (pricing : json) (name field : string) : result json :=
  item ← json_get pricing name (JDict []);
  json_get item field (JNum 0).

Definition py_add (x y : json) : result json :=
  a ← json_num x; b ← json_num y; Ok (JNum (a + b)).

Definition py_sub (x y : json) : result json :=
  a ← json_num x; b ← json_num y; Ok (JNum (a - b)).

(** The four-term sum of one field over the components of a package. *)
Definition package_sum (pricing : json) (meals delivery field : string)
    : result json :=
  m ← component pricing meals field;
  d ← component pricing delivery field;
  md ← py_add m d;
  b ← component pricing "bracelet" field;
  mdb ← py_add md b;
  p ← component pricing "pointsX10" field;
  py_add mdb p.

Definition package_of (data : json) (subscription_type : string) (duration : Z)
    : result Package.t :=
  pricing ← json_get data subscription_type (JDict []);
  package_cost ←
    (if (duration =? 1)%Z
     then package_sum pricing "mealsPerMonth" "deliveryPerMonth" "cost"
     else package_sum pricing "meals3Months" "delivery3Months" "cost");
  package_revenue ←
    (if (duration =? 1)%Z
     then package_sum pricing "mealsPerMonth" "deliveryPerMonth" "selling"
     else package_sum pricing "meals3Months" "delivery3Months" "selling");
  package_revenue ←
    (if negb (String.eqb subscription_type "Custom")
     then digital ← json_get pricing "digitalProfit" (JNum 0);
          py_add package_revenue digital
     else Ok package_revenue);
  profit ← py_sub package_revenue package_cost;
  cost ← json_num package_cost;
  revenue ← json_num package_revenue;
  profit ← json_num profit;
  Ok {| Package.cost := cost; Package.revenue := revenue;
        Package.profit := profit |}.

Definition calculate_package_cost (subscription_type : string) (duration : Z)
    : M Package.t :=
  data ← get_pricing;
  lift (package_of data subscription_type duration).

(** [self.inputs.get(k, dflt)] *)
Definition input_get (i : inputs_dict) (k : string) (dflt : Q) : ival :=
  dget_default i k (INum dflt).

(** A quantity as an operand of [*]: a dictionary is not one. *)
Definition ival_num (v : ival) : result Q :=
  match v with
  | INum q => Ok q
  | IRef _ => Raise TypeError
  end.

Definition fee_revenue (i : inputs_dict) (fee : string) (fee_default : Q)
    (participants : string) (participants_default : Q) : result Q :=
  f ← ival_num (input_get i fee fee_default);
  n ← ival_num (input_get i participants participants_default);
  Ok (f * n).

(** [pricing[tier][item][field] * quantity] *)
Definition price_times (pricing : json) (tier item field : string)
    (quantity : ival) : result Q :=
  t ← json_subscript pricing tier;
  e ← json_subscript t item;
  p ← json_subscript e field;
  x ← json_num p;
  n ← ival_num quantity;
  Ok (x * n).

Definition services_of (pricing : json) (i : inputs_dict)
    : result (list (string * Service.t)) :=
  challenge_revenue ←
    fee_revenue i "challenge_fee" 25 "challenge_participants" 200;
  adventure_revenue ←
    fee_revenue i "adventure_fee" 40 "adventure_participants" 150;
  competition_revenue ←
    fee_revenue i "competition_fee" 35 "competition_participants" 100;
  let events_total :=
    challenge_revenue + adventure_revenue + competition_revenue in
  let additional_bracelets := input_get i "additional_bracelets" 100 in
  bracelet_cost ← price_times pricing "VIP" "bracelet" "cost" additional_bracelets;
  bracelet_revenue ←
    price_times pricing "VIP" "bracelet" "selling" additional_bracelets;
  let cbyi_customers := input_get i "cbyi_non_subscribers" 50 in
  cbyi_cost ← price_times pricing "Custom" "cbyiOneMonth" "cost" cbyi_customers;
  cbyi_revenue ←
    price_times pricing "Custom" "cbyiOneMonth" "selling" cbyi_customers;
  let ns_bracelets := input_get i "bracelets_non_subscribers" 75 in
  ns_bracelet_cost ← price_times pricing "VIP" "bracelet" "cost" ns_bracelets;
  ns_bracelet_revenue ←
    price_times pricing "VIP" "bracelet" "selling" ns_bracelets;
  let car_customers := input_get i "car_rental_customers" 20 in
  car_cost ← price_times pricing "VIP" "carOneMonth" "cost" car_customers;
  car_revenue ← price_times pricing "VIP" "carOneMonth" "selling" car_customers;
  Ok [
    ("Events & Challenges",
     {| Service.cost := 0; Service.revenue := events_total;
        Service.profit := events_total |});
    ("Additional Bracelets",
     {| Service.cost := bracelet_cost; Service.revenue := bracelet_revenue;
        Service.profit := bracelet_revenue - bracelet_cost |});
    ("CBYI Services",
     {| Service.cost := cbyi_cost; Service.revenue := cbyi_revenue;
        Service.profit := cbyi_revenue - cbyi_cost |});
    ("Non-Subscriber Bracelets",
     {| Service.cost := ns_bracelet_cost; Service.revenue := ns_bracelet_revenue;
        Service.profit := ns_bracelet_revenue - ns_bracelet_cost |});
    ("Car Rental",
     {| Service.cost := car_cost; Service.revenue := car_revenue;
        Service.profit := car_revenue - car_cost |})].

Definition get_additional_services_summary : M (list (string * Service.t)) :=
  pricing ← get_pricing;
  i ← get_inputs;
  lift (services_of pricing i).

(** [self.inputs.get(key, {}).get(field, 0)] *)
Definition counts_get (key field : string) : M Q :=
  i ← get_inputs;
  match dget i key with
  | None => mret 0
  | Some (IRef l) => d ← deref l; mret (dget_default d field 0)
  | Some (INum _) => raise AttributeError
  end.

(** The body of the loop of [get_summary_dataframe]. *)
Definition summary_step (data : list SummaryRow.t) (combo : Combo.t)
    : M (list SummaryRow.t) :=
  package_data ← calculate_package_cost (Combo.type combo) (Combo.duration combo);
  let plural := if (Combo.duration combo >? 1)%Z then "s" else "" in
  let key := Combo.type combo ++ "_" ++ str_of_int (Combo.duration combo)
             ++ "_month" ++ plural in
  customers ← counts_get key "customers";
  renewals ← counts_get key "renewals";
  let total_cost := Package.cost package_data * customers in
  let total_revenue := Package.revenue package_data * customers in
  let renewal_revenue :=
    renewals * (if (Combo.duration combo =? 1)%Z then 1500 else 4500) in
  profit_margin ← lift (
    if Qgtb total_revenue 0
    then r ← truediv ((total_revenue + renewal_revenue) - total_cost)
                     (total_revenue + renewal_revenue);
         Ok (r * 100)
    else Ok 0);
  mret (data ++ [
    {| SummaryRow.subscription_type := Combo.type combo;
       SummaryRow.duration_months := Combo.duration combo;
       SummaryRow.customers := customers;
       SummaryRow.cost_per_customer := Package.cost package_data;
       SummaryRow.revenue_per_customer := Package.revenue package_data;
       SummaryRow.total_cost := total_cost;
       SummaryRow.total_revenue := total_revenue + renewal_revenue;
       SummaryRow.total_profit := (total_revenue + renewal_revenue) - total_cost;
       SummaryRow.profit_margin := profit_margin;
       SummaryRow.renewals := renewals;
       SummaryRow.renewal_revenue := renewal_revenue |}])%list.

(** The rows of the [DataFrame], in order. *)
Definition get_summary_dataframe : M (list SummaryRow.t) :=
  for_each get_subscription_combinations [] summary_step.

(** [get_input_data] *)
Definition get_input_data : M inputs_dict := get_inputs.

(** [d.update(updates)] *)
Definition dict_update {V} (d updates : list (string * V))
    : list (string * V) :=
  fold_left (fun d '(k, v) => dset d k v) updates d.

(** [update_input_data]: the session state is given the dictionary that was
    updated. *)
Definition update_input_data (updates : inputs_dict) : M unit :=
  i ← get_inputs;
  let i := dict_update i updates in
  set_inputs i;;
  s ← get_session;
  set_session {| ss_pricing_data := ss_pricing_data s;
                 ss_input_data := Some i;
                 last_calculation := last_calculation s |}.

End DataManager.

(** ** modules/calculator.py *)

Module SubRow.
Record t : Type := mk {
  type : string;
  duration : Z;
  customers : Q;
  renewals : Q;
  cost_per_customer : Q;
  revenue_per_customer : Q;
  total_cost : Q;
  total_revenue : Q;
  total_profit : Q;
  profit_margin : Q;
  renewal_revenue : Q
}.
End SubRow.

(** The comprehensive results.  Their [summary] and [breakdown] entries are
    read-only views of the three entries kept here (the best subscription by
    profit, the flattened line items); building them neither raises nor
    writes, and nothing below reads them. *)
Module Results.
Record t : Type := mk {
  subscriptions : list (string * SubRow.t);
  additional_services : list (string * Service.t);
  totals : Totals.t
}.
End Results.

(** The parameters of one entry of [calculate_scenario_analysis]: the
    optional keys ['customer_multiplier'] and ['renewal_multiplier']. *)
Module Multipliers.
Record t : Type := mk {
  customer_multiplier : option Q;
  renewal_multiplier : option Q
}.
End Multipliers.

Module ScenarioResult.
Record t : Type := mk {
  totals : Totals.t;
  scenario_params : Multipliers.t
}.
End ScenarioResult.

(** The [summary] entry of the comprehensive results. *)
Module Summary.
Record t : Type := mk {
  total_revenue : Q;
  total_profit : Q;
  profit_margin : Q;
  total_customers : Q;
  subscription_types_count : nat;
  additional_services_count : nat;
  best_subscription : string;
  best_subscription_profit : Q
}.
End Summary.

(** A line of the [breakdown] entry; its ['details'], a text made from the
    counts, is left out. *)
Module BreakdownRow.
Record t : Type := mk {
  category : string;
  name : string;
  cost : Q;
  revenue : Q;
  profit : Q;
  margin : Q;
  customers : Q
}.
End BreakdownRow.

(** A month of [calculate_growth_impact]. *)
Module Projection.
Record t : Type := mk {
  month : Z;
  monthly_revenue : Q;
  monthly_cost : Q;
  monthly_profit : Q;
  cumulative_revenue : Q;
  cumulative_profit : Q;
  growth_factor : Q
}.
End Projection.

Module GrowthImpact.
Record t : Type := mk {
  base_monthly_revenue : Q;
  base_monthly_profit : Q;
  growth_rate : Q;
  periods : Z;
  projections : list Projection.t;
  total_projected_revenue : Q;
  total_projected_profit : Q
}.
End GrowthImpact.

(** A line of [get_subscription_performance_ranking]. *)
Module Performance.
Record t : Type := mk {
  rank : Z;
  subscription_type : string;
  total_profit : Q;
  profit_margin : Q;
  customers : Q;
  revenue_per_customer : Q;
  score : Q
}.
End Performance.

Module RevenueCalculator.

(** [self.data_manager.inputs.get(key, {}).get(field, 0)] *)
Definition count_of (key field : string) : M Q :=
  i ← get_inputs;
  match dget i key with
  | None => mret 0
  | Some (IRef l) => d ← deref l; mret (dget_default d field 0)
  | Some (INum _) => raise AttributeError
  end.

Definition renewal_price (duration : Z) : Q :=
  if (duration =? 1)%Z then 1500 else 4500.

Definition subscription_row (combo : Combo.t) (customers renewals : Q)
    : M SubRow.t :=
  package_data ←
    DataManager.calculate_package_cost (Combo.type combo) (Combo.duration combo);
  let total_cost := Package.cost package_data * customers in
  let total_revenue := Package.revenue package_data * customers in
  let renewal_revenue := renewals * renewal_price (Combo.duration combo) in
  profit_margin ← lift (
    if Qgtb total_revenue 0
    then r ← truediv ((total_revenue + renewal_revenue) - total_cost)
                     (total_revenue + renewal_revenue);
         Ok (r * 100)
    else Ok 0);
  mret {| SubRow.type := Combo.type combo;
          SubRow.duration := Combo.duration combo;
          SubRow.customers := customers;
          SubRow.renewals := renewals;
          SubRow.cost_per_customer := Package.cost package_data;
          SubRow.revenue_per_customer := Package.revenue package_data;
          SubRow.total_cost := total_cost;
          SubRow.total_revenue := total_revenue + renewal_revenue;
          SubRow.total_profit := (total_revenue + renewal_revenue) - total_cost;
          SubRow.profit_margin := profit_margin;
          SubRow.renewal_revenue := renewal_revenue |}.

(** The body of the loop over the combinations. *)
Definition subscription_step (subscription_results : list (string * SubRow.t))
    (combo : Combo.t) : M (list (string * SubRow.t)) :=
  let plural := if (Combo.duration combo >? 1)%Z then "s" else "" in
  let key := Combo.type combo ++ "_" ++ str_of_int (Combo.duration combo)
             ++ "_month" ++ plural in
  customers ← count_of key "customers";
  renewals ← count_of key "renewals";
  if Qgtb customers 0 then
    row ← subscription_row combo customers renewals;
    mret (dset subscription_results (Combo.display_name combo) row)
  else mret subscription_results.

Definition _calculate_subscription_results : M (list (string * SubRow.t)) :=
  for_each DataManager.get_subscription_combinations [] subscription_step.

Definition _calculate_additional_services : M (list (string * Service.t)) :=
  DataManager.get_additional_services_summary.

Definition _calculate_totals (subscription_results : list (string * SubRow.t))
    (additional_results : list (string * Service.t)) : Totals.t :=
  let '(total_cost, total_revenue, total_customers) :=
    fold_left
      (fun '(c, r, n) sub_data =>
         (c + SubRow.total_cost sub_data, r + SubRow.total_revenue sub_data,
          n + SubRow.customers sub_data))
      (map snd subscription_results) (0, 0, 0) in
  let '(total_cost, total_revenue) :=
    fold_left
      (fun '(c, r) service_data =>
         (c + Service.cost service_data, r + Service.revenue service_data))
      (map snd additional_results) (total_cost, total_revenue) in
  let total_profit := total_revenue - total_cost in
  let profit_margin :=
    if Qgtb total_revenue 0 then total_profit / total_revenue * 100 else 0 in
  {| Totals.total_cost := total_cost;
     Totals.total_revenue := total_revenue;
     Totals.total_profit := total_profit;
     Totals.profit_margin := profit_margin;
     Totals.total_customers := total_customers;
     Totals.revenue_per_customer :=
       if Qgtb total_customers 0 then total_revenue / total_customers else 0;
     Totals.cost_per_customer :=
       if Qgtb total_customers 0 then total_cost / total_customers else 0;
     Totals.profit_per_customer :=
       if Qgtb total_customers 0 then total_profit / total_customers else 0 |}.

Definition calculate_comprehensive_results : M Results.t :=
  subscription_results ← _calculate_subscription_results;
  additional_results ← _calculate_additional_services;
  let totals := _calculate_totals subscription_results additional_results in
  s ← get_session;
  set_session {| ss_pricing_data := ss_pricing_data s;
                 ss_input_data := ss_input_data s;
                 last_calculation := Some totals |};;
  mret {| Results.subscriptions := subscription_results;
          Results.additional_services := additional_results;
          Results.totals := totals |}.

(** The body of the inner loop of [calculate_scenario_analysis]:
    [temp_inputs[key]] is the object [value] itself. *)
Definition scale_counts (scenario_data : Multipliers.t) (_ : unit)
    (item : string * ival) : M unit :=
  match item.2 with
  | IRef l =>
      value ← deref l;
      if dmem value "customers" then
        c ← lift (dsubscript value "customers");
        store l "customers"
          (inject_Z (py_int
             (c * default 1 (Multipliers.customer_multiplier scenario_data))));;
        value ← deref l;
        r ← lift (dsubscript value "renewals");
        store l "renewals"
          (inject_Z (py_int
             (r * default 1 (Multipliers.renewal_multiplier scenario_data))))
      else mret tt
  | INum _ => mret tt
  end.

Definition scenario_step (scenario_results : list (string * ScenarioResult.t))
    (scenario : string * Multipliers.t)
    : M (list (string * ScenarioResult.t)) :=
  let '(scenario_name, scenario_data) := scenario in
  current ← get_inputs;
  let original_inputs := shallow_copy current in
  let temp_inputs := shallow_copy original_inputs in
  for_each temp_inputs tt (scale_counts scenario_data);;
  set_inputs temp_inputs;;
  results ← calculate_comprehensive_results;
  let scenario_results :=
    dset scenario_results scenario_name
      {| ScenarioResult.totals := Results.totals results;
         ScenarioResult.scenario_params := scenario_data |} in
  set_inputs original_inputs;;
  mret scenario_results.

Definition calculate_scenario_analysis
    (scenarios : list (string * Multipliers.t))
    : M (list (string * ScenarioResult.t)) :=
  for_each scenarios [] scenario_step.

(** [max(items, key=key, default=...)]: the first of the items with the
    greatest key; [None] stands for the default, taken on no item. *)
Definition py_max {A} (key : A -> Q) (items : list A) : option A :=
  match items with
  | [] => None
  | x :: items' =>
      Some (fold_left
              (fun best y => if Qgtb (key y) (key best) then y else best)
              items' x)
  end.

(** The default of the maximum is [('None', {'total_profit': 0})]. *)
Definition _create_summary (results : Results.t) : Summary.t :=
  let totals := Results.totals results in
  let subscription_count := length (Results.subscriptions results) in
  let service_count := length (Results.additional_services results) in
  let best_subscription :=
    py_max (fun x : string * SubRow.t => SubRow.total_profit x.2)
      (Results.subscriptions results) in
  {| Summary.total_revenue := Totals.total_revenue totals;
     Summary.total_profit := Totals.total_profit totals;
     Summary.profit_margin := Totals.profit_margin totals;
     Summary.total_customers := Totals.total_customers totals;
     Summary.subscription_types_count := subscription_count;
     Summary.additional_services_count := service_count;
     Summary.best_subscription :=
       match best_subscription with Some x => x.1 | None => "None" end;
     Summary.best_subscription_profit :=
       match best_subscription with
       | Some x => SubRow.total_profit x.2
       | None => 0
       end |}.

Definition _create_breakdown (subscription_results : list (string * SubRow.t))
    (additional_results : list (string * Service.t)) : list BreakdownRow.t :=
  let breakdown :=
    fold_left
      (fun breakdown '(name, data) =>
         breakdown ++ [
           {| BreakdownRow.category := "Subscription";
              BreakdownRow.name := name;
              BreakdownRow.cost := SubRow.total_cost data;
              BreakdownRow.revenue := SubRow.total_revenue data;
              BreakdownRow.profit := SubRow.total_profit data;
              BreakdownRow.margin := SubRow.profit_margin data;
              BreakdownRow.customers := SubRow.customers data |}])%list
      subscription_results [] in
  fold_left
    (fun breakdown '(name, data) =>
       breakdown ++ [
         {| BreakdownRow.category := "Additional Service";
            BreakdownRow.name := name;
            BreakdownRow.cost := Service.cost data;
            BreakdownRow.revenue := Service.revenue data;
            BreakdownRow.profit := Service.profit data;
            BreakdownRow.margin :=
              if Qgtb (Service.revenue data) 0
              then Service.profit data / Service.revenue data * 100 else 0;
            BreakdownRow.customers := 0 |}])%list
    additional_results breakdown.

(** The variables the loop of [calculate_growth_impact] assigns. *)
Record impact_state : Type := {
  projected_data : list Projection.t;
  impact_cumulative_revenue : Q;
  impact_cumulative_profit : Q
}.

(** The body of that loop; [month] is at least 1. *)
Definition impact_step (monthly_revenue monthly_cost growth_rate : Q)
    (s : impact_state) (month : Z) : impact_state :=
  let growth_factor := (1 + growth_rate) ^ month in
  let projected_revenue := monthly_revenue * growth_factor in
  let projected_cost := monthly_cost * growth_factor in
  let projected_profit := projected_revenue - projected_cost in
  let cumulative_revenue := impact_cumulative_revenue s + projected_revenue in
  let cumulative_profit := impact_cumulative_profit s + projected_profit in
  {| projected_data := (projected_data s ++ [
       {| Projection.month := month;
          Projection.monthly_revenue := projected_revenue;
          Projection.monthly_cost := projected_cost;
          Projection.monthly_profit := projected_profit;
          Projection.cumulative_revenue := cumulative_revenue;
          Projection.cumulative_profit := cumulative_profit;
          Projection.growth_factor := growth_factor |}])%list;
     impact_cumulative_revenue := cumulative_revenue;
     impact_cumulative_profit := cumulative_profit |}.

Definition calculate_growth_impact (growth_rate : Q) (periods : Z)
    : M GrowthImpact.t :=
  current_results ← calculate_comprehensive_results;
  monthly_revenue ←
    lift (truediv (Totals.total_revenue (Results.totals current_results)) 3);
  monthly_cost ←
    lift (truediv (Totals.total_cost (Results.totals current_results)) 3);
  let monthly_profit := monthly_revenue - monthly_cost in
  let s :=
    fold_left (impact_step monthly_revenue monthly_cost growth_rate)
      (py_range 1 (periods + 1))
      {| projected_data := []; impact_cumulative_revenue := 0;
         impact_cumulative_profit := 0 |} in
  mret {| GrowthImpact.base_monthly_revenue := monthly_revenue;
          GrowthImpact.base_monthly_profit := monthly_profit;
          GrowthImpact.growth_rate := growth_rate;
          GrowthImpact.periods := periods;
          GrowthImpact.projections := projected_data s;
          GrowthImpact.total_projected_revenue := impact_cumulative_revenue s;
          GrowthImpact.total_projected_profit := impact_cumulative_profit s |}.

(** [sorted(items, key=key, reverse=True)]: the greatest key first, items of
    equal keys in the order they had.  The sort is stable, so its result is
    that of inserting the items from the last to the first, each before the
    first item whose key is not greater. *)
Fixpoint insert_by {A} (key : A -> Q) (x : A) (l : list A) : list A :=
  match l with
  | [] => [x]
  | y :: l' =>
      if Qgtb (key y) (key x) then y :: insert_by key x l' else x :: y :: l'
  end.

Definition sorted_reverse {A} (key : A -> Q) (items : list A) : list A :=
  fold_right (insert_by key) [] items.

(** [enumerate(l, start)] *)
Fixpoint enumerate {A} (l : list A) (start : Z) : list (Z * A) :=
  match l with
  | [] => []
  | x :: l' => (start, x) :: enumerate l' (start + 1)
  end.

Definition get_subscription_performance_ranking : M (list Performance.t) :=
  results ← calculate_comprehensive_results;
  let subscriptions := Results.subscriptions results in
  let ranked :=
    sorted_reverse (fun x : string * SubRow.t => SubRow.total_profit x.2)
      subscriptions in
  mret (fold_left
          (fun performance_data '(rank, (name, data)) =>
             performance_data ++ [
               {| Performance.rank := rank;
                  Performance.subscription_type := name;
                  Performance.total_profit := SubRow.total_profit data;
                  Performance.profit_margin := SubRow.profit_margin data;
                  Performance.customers := SubRow.customers data;
                  Performance.revenue_per_customer :=
                    SubRow.revenue_per_customer data;
                  Performance.score :=
                    SubRow.total_profit data * SubRow.profit_margin data / 100
               |}])%list
          (enumerate ranked 1) []).

End RevenueCalculator.

(** ** modules/forecaster.py *)

Module MonthRow.
Record t : Type := mk {
  month : Z;
  customers : Z;
  new_customers : Z;
  monthly_revenue : Q;
  monthly_cost : Q;
  monthly_profit : Q;
  cumulative_revenue : Q;
  cumulative_cost : Q;
  cumulative_profit : Q;
  profit_margin : Q
}.
End MonthRow.

Module PeriodTotals.
Record t : Type := mk {
  total_revenue : Q;
  total_cost : Q;
  total_profit : Q;
  final_customers : Z;
  customer_growth : Q;
  profit_margin : Q
}.
End PeriodTotals.

Module Forecast.
Record t : Type := mk {
  period_months : Z;
  scenario_params : Scenario.t;
  monthly_breakdown : list MonthRow.t;
  period_totals : PeriodTotals.t
}.
End Forecast.

(** A NumPy [float64] where the source can build a non-finite one. *)
Inductive xfloat : Type :=
  | Fin (q : Q)
  | PInf
  | NInf
  | NaN.

Inductive break_even_customers_t : Type :=
  | Count (n : Z)
  | NA.

Inductive months_to_break_even_t : Type :=
  | Months (x : xfloat)
  | Never.

(** The result of [generate_forecast]; [forecasts] maps a scenario name to
    the forecasts of the scenario, by ['<period>_months']. *)
Module ForecastData.
Record t : Type := mk {
  base_results : Results.t;
  forecasts : list (string * list (string * Forecast.t));
  scenarios_used : list string;
  periods_used : list Z
}.
End ForecastData.

(** An entry of [compare_scenarios]. *)
Module Comparison.
Record t : Type := mk {
  total_revenue : Q;
  total_profit : Q;
  profit_margin : Q;
  final_customers : Z;
  customer_growth : Q;
  growth_rate : Q;
  retention_rate : Q
}.
End Comparison.

(** The rows of [generate_sensitivity_analysis]. *)
Module GrowthSensitivity.
Record t : Type := mk {
  growth_rate : Q;
  total_revenue : Q;
  total_profit : Q;
  final_customers : Z
}.
End GrowthSensitivity.

Module RetentionSensitivity.
Record t : Type := mk {
  retention_rate : Q;
  total_revenue : Q;
  total_profit : Q;
  final_customers : Z
}.
End RetentionSensitivity.

Module Sensitivity.
Record t : Type := mk {
  growth_rate_sensitivity : list GrowthSensitivity.t;
  retention_rate_sensitivity : list RetentionSensitivity.t
}.
End Sensitivity.

Module BreakEven.
Record t : Type := mk {
  break_even_customers : break_even_customers_t;
  current_customers : Q;
  months_to_break_even : months_to_break_even_t;
  monthly_growth_rate : Q;
  avg_profit_per_customer : Q
}.
End BreakEven.

Module Forecaster.

(** ['k' in scenario_params] for an optional key. *)
Definition has_key {A} (o : option A) : bool :=
  match o with Some _ => true | None => false end.

Definition seasonality_map : gmap Z Q :=
  list_to_map [
    (1%Z, 0.9); (2%Z, 0.95); (3%Z, 1.1); (4%Z, 1.0); (5%Z, 1.0); (6%Z, 1.05);
    (7%Z, 0.95); (8%Z, 0.9); (9%Z, 1.1); (10%Z, 1.05); (11%Z, 1.15);
    (12%Z, 1.2)].

Definition _get_seasonality_factor (month : Z) : Q :=
  let month_index := (((month - 1) mod 12) + 1)%Z in
  default 1.0 (seasonality_map !! month_index).

(** [v.copy()] on the pricing data. *)
Definition json_copy (v : json) : result json :=
  match v with
  | JDict d => Ok (JDict (shallow_copy d))
  | JList l => Ok (JList l)
  | _ => Raise AttributeError
  end.

(** [v[k] = x] with a string key. *)
Definition json_setitem (v : json) (k : string) (x : json) : result json :=
  match v with
  | JDict d => Ok (JDict (dset d k x))
  | _ => Raise TypeError
  end.

(** The loop over ['VIP'], ['Normal'], ['Custom'] with its [break]. *)
Fixpoint adjust_first (original_pricing pricing_adjustments : json)
    (adjusted_results : Results.t) (sub_types : list string) : M Results.t :=
  match sub_types with
  | [] => mret adjusted_results
  | sub_type :: rest =>
      present ← lift (json_contains original_pricing sub_type);
      if present : bool then
        modified_pricing ← lift (json_copy original_pricing);
        modified_pricing ←
          lift (json_setitem modified_pricing sub_type pricing_adjustments);
        set_pricing modified_pricing;;
        RevenueCalculator.calculate_comprehensive_results
      else
        adjust_first original_pricing pricing_adjustments adjusted_results rest
  end.

(** [if quantity_adjustments:] *)
Definition truthy (quantity_adjustments : option inputs_dict) : bool :=
  match quantity_adjustments with
  | Some (_ :: _) => true
  | _ => false
  end.

Definition _apply_pricing_adjustments (base_results : Results.t)
    (pricing_adjustments : json) (quantity_adjustments : option inputs_dict)
    : M Results.t :=
  let adjusted_results := base_results in
  pricing ← get_pricing;
  original_pricing ← lift (json_copy pricing);
  current ← get_inputs;
  let original_inputs := shallow_copy current in
  (if truthy quantity_adjustments then
     set_inputs (default [] quantity_adjustments);;
     s ← get_session;
     set_session {| ss_pricing_data := ss_pricing_data s;
                    ss_input_data := quantity_adjustments;
                    last_calculation := last_calculation s |}
   else mret tt);;
  adjusted_results ←
    adjust_first original_pricing pricing_adjustments adjusted_results
      ["VIP"; "Normal"; "Custom"];
  set_pricing original_pricing;;
  set_inputs original_inputs;;
  mret adjusted_results.

(** The variables the monthly loop assigns. *)
Record loop_state : Type := {
  current_customers : Q;
  cumulative_revenue : Q;
  cumulative_cost : Q;
  cumulative_profit : Q;
  monthly_data : list MonthRow.t
}.

(** The body of the monthly loop. *)
Definition month_step
    (base_monthly_revenue base_monthly_cost base_customers : Q)
    (growth_rate retention_rate : Q)
    (s : loop_state) (month : Z) : result loop_state :=
  new_customers ← truediv (current_customers s * growth_rate) 12;
  let retained_customers := current_customers s * retention_rate in
  let current_customers := retained_customers + new_customers in
  customer_growth_factor ← truediv current_customers base_customers;
  let monthly_revenue := base_monthly_revenue * customer_growth_factor in
  let monthly_cost := base_monthly_cost * customer_growth_factor in
  let monthly_profit := monthly_revenue - monthly_cost in
  let cumulative_revenue := cumulative_revenue s + monthly_revenue in
  let cumulative_cost := cumulative_cost s + monthly_cost in
  let cumulative_profit := cumulative_profit s + monthly_profit in
  let seasonality_factor := _get_seasonality_factor month in
  let monthly_revenue := monthly_revenue * seasonality_factor in
  let monthly_cost := monthly_cost * seasonality_factor in
  let monthly_profit := monthly_revenue - monthly_cost in
  Ok {| current_customers := current_customers;
        cumulative_revenue := cumulative_revenue;
        cumulative_cost := cumulative_cost;
        cumulative_profit := cumulative_profit;
        monthly_data := monthly_data s ++ [
          {| MonthRow.month := month;
             MonthRow.customers := py_int current_customers;
             MonthRow.new_customers := py_int new_customers;
             MonthRow.monthly_revenue := monthly_revenue;
             MonthRow.monthly_cost := monthly_cost;
             MonthRow.monthly_profit := monthly_profit;
             MonthRow.cumulative_revenue := cumulative_revenue;
             MonthRow.cumulative_cost := cumulative_cost;
             MonthRow.cumulative_profit := cumulative_profit;
             MonthRow.profit_margin :=
               if Qgtb monthly_revenue 0
               then monthly_profit / monthly_revenue * 100 else 0 |}] |}.

(** From the baseline figures to the forecast: the loop and the summary. *)
Definition project (base_monthly_revenue base_monthly_cost base_customers : Q)
    (scenario_params : Scenario.t) (months : Z) : result Forecast.t :=
  let growth_rate := Scenario.growth_rate scenario_params in
  let retention_rate := Scenario.retention_rate scenario_params in
  s ← for_each (py_range 1 (months + 1))
        {| current_customers := base_customers;
           cumulative_revenue := 0; cumulative_cost := 0;
           cumulative_profit := 0; monthly_data := [] |}
        (month_step base_monthly_revenue base_monthly_cost base_customers
           growth_rate retention_rate);
  Ok {| Forecast.period_months := months;
        Forecast.scenario_params := scenario_params;
        Forecast.monthly_breakdown := monthly_data s;
        Forecast.period_totals :=
          {| PeriodTotals.total_revenue := cumulative_revenue s;
             PeriodTotals.total_cost := cumulative_cost s;
             PeriodTotals.total_profit := cumulative_profit s;
             PeriodTotals.final_customers := py_int (current_customers s);
             PeriodTotals.customer_growth :=
               if Qgtb base_customers 0
               then (current_customers s - base_customers) / base_customers * 100
               else 0;
             PeriodTotals.profit_margin :=
               if Qgtb (cumulative_revenue s) 0
               then cumulative_profit s / cumulative_revenue s * 100 else 0 |}
     |}.

Definition _calculate_period_forecast (base_results : Results.t)
    (scenario_params : Scenario.t) (months : Z) : M Forecast.t :=
  source ←
    (if has_key (Scenario.pricing_adjustments scenario_params)
        || has_key (Scenario.quantity_adjustments scenario_params)
     then
       let quantity_adjustments := Scenario.quantity_adjustments scenario_params in
       let pricing_adjustments :=
         default (JDict []) (Scenario.pricing_adjustments scenario_params) in
       _apply_pricing_adjustments base_results pricing_adjustments
         quantity_adjustments
     else mret base_results);
  base_monthly_revenue ←
    lift (truediv (Totals.total_revenue (Results.totals source)) 3);
  base_monthly_cost ←
    lift (truediv (Totals.total_cost (Results.totals source)) 3);
  let base_customers := Totals.total_customers (Results.totals base_results) in
  lift (project base_monthly_revenue base_monthly_cost base_customers
          scenario_params months).

(** *** Break-even analysis

    [np.log] is NumPy's; on a finite positive argument it is the parameter
    [ln].  NumPy's [float64] operations do not raise; Python's [/] does, on
    a zero divisor.  Signed zeros are not modelled. *)

Definition np_log (ln : Q -> Q) (x : xfloat) : xfloat :=
  match x with
  | Fin q => if Qgtb q 0 then Fin (ln q)
             else if Qeq_bool q 0 then NInf else NaN
  | PInf => PInf
  | NInf => NaN
  | NaN => NaN
  end.

Definition np_div (a b : xfloat) : xfloat :=
  match a, b with
  | NaN, _ | _, NaN => NaN
  | Fin x, Fin y =>
      if Qeq_bool y 0
      then (if Qgtb x 0 then PInf else if Qeq_bool x 0 then NaN else NInf)
      else Fin (x / y)
  | Fin _, (PInf | NInf) => Fin 0
  | PInf, Fin y => if Qgeb y 0 then PInf else NInf
  | NInf, Fin y => if Qgeb y 0 then NInf else PInf
  | (PInf | NInf), (PInf | NInf) => NaN
  end.

(** [x / n] for a Python [float] [x] and a finite number [n]. *)
Definition float_div (x : xfloat) (n : Q) : result xfloat :=
  if Qeq_bool n 0 then Raise ZeroDivisionError
  else Ok match x with
          | Fin q => Fin (q / n)
          | PInf => if Qgtb n 0 then PInf else NInf
          | NInf => if Qgtb n 0 then NInf else PInf
          | NaN => NaN
          end.

(** [x > n] *)
Definition float_gt (x : xfloat) (n : Q) : bool :=
  match x with
  | Fin q => Qgtb q n
  | PInf => true
  | NInf | NaN => false
  end.

(** [n >= x] *)
Definition ge_float (n : Q) (x : xfloat) : bool :=
  match x with
  | Fin q => Qgeb n q
  | NInf => true
  | PInf | NaN => false
  end.

(** [x != float('inf')] *)
Definition not_inf (x : xfloat) : bool :=
  match x with PInf => false | _ => true end.

(** [int(x)] *)
Definition float_int (x : xfloat) : result Z :=
  match x with
  | Fin q => Ok (py_int q)
  | PInf | NInf => Raise OverflowError
  | NaN => Raise ValueError
  end.

(** The body of the loop over the scenarios. *)
Definition break_even_entry (ln : Q -> Q) (totals : Totals.t) (fixed_costs : Q)
    (scenario_params : Scenario.t) : result BreakEven.t :=
  let avg_profit_per_customer := Totals.profit_per_customer totals in
  let break_even_customers :=
    if Qgtb avg_profit_per_customer 0
    then Fin (fixed_costs / avg_profit_per_customer) else PInf in
  let current_customers := Totals.total_customers totals in
  monthly_growth_rate ← truediv (Scenario.growth_rate scenario_params) 12;
  months_to_break_even ←
    (if Qgtb monthly_growth_rate 0
        && float_gt break_even_customers current_customers
     then ratio ← float_div break_even_customers current_customers;
          Ok (np_div (np_log ln ratio)
                     (np_log ln (Fin (1 + monthly_growth_rate))))
     else Ok (if ge_float current_customers break_even_customers
              then Fin 0 else PInf));
  reported_customers ←
    (if not_inf break_even_customers
     then n ← float_int break_even_customers; Ok (Count n)
     else Ok NA);
  Ok {| BreakEven.break_even_customers := reported_customers;
        BreakEven.current_customers := current_customers;
        BreakEven.months_to_break_even :=
          if not_inf months_to_break_even
          then Months months_to_break_even else Never;
        BreakEven.monthly_growth_rate := monthly_growth_rate * 100;
        BreakEven.avg_profit_per_customer := avg_profit_per_customer |}.

(** [scenarios] is the forecaster's attribute [self.scenarios], which starts
    as [AppConfig.GROWTH_SCENARIOS]. *)
Definition calculate_break_even_analysis (ln : Q -> Q)
    (scenarios : list (string * Scenario.t)) (fixed_costs : Q)
    : M (list (string * BreakEven.t)) :=
  base_results ← RevenueCalculator.calculate_comprehensive_results;
  lift (for_each scenarios []
          (fun break_even_data '(scenario_name, scenario_params) =>
             e ← break_even_entry ln (Results.totals base_results) fixed_costs
                   scenario_params;
             Ok (dset break_even_data scenario_name e))).

(** The body of the inner loop of [generate_forecast]:
    [forecast_data[scenario_name][f"{period}_months"] = ...]. *)
Definition period_step (base_results : Results.t) (scenario_name : string)
    (scenario_params : Scenario.t)
    (forecast_data : list (string * list (string * Forecast.t))) (period : Z)
    : M (list (string * list (string * Forecast.t))) :=
  forecast ← _calculate_period_forecast base_results scenario_params period;
  scenario_forecasts ← lift (dsubscript forecast_data scenario_name);
  mret (dset forecast_data scenario_name
          (dset scenario_forecasts (str_of_int period ++ "_months") forecast)).

(** The body of its outer loop; [self_scenarios] is [self.scenarios]. *)
Definition forecast_step (self_scenarios : list (string * Scenario.t))
    (periods : list Z) (base_results : Results.t)
    (forecast_data : list (string * list (string * Forecast.t)))
    (scenario_name : string)
    : M (list (string * list (string * Forecast.t))) :=
  match dget self_scenarios scenario_name with
  | None => mret forecast_data
  | Some scenario_params =>
      let forecast_data := dset forecast_data scenario_name [] in
      for_each periods forecast_data
        (period_step base_results scenario_name scenario_params)
  end.

(** [None] for an argument left at its default [None]. *)
Definition generate_forecast (self_scenarios : list (string * Scenario.t))
    (periods : option (list Z)) (scenarios : option (list string))
    : M ForecastData.t :=
  let periods := default AppConfig.FORECAST_PERIODS periods in
  let scenarios := default (map fst self_scenarios) scenarios in
  base_results ← RevenueCalculator.calculate_comprehensive_results;
  forecast_data ←
    for_each scenarios [] (forecast_step self_scenarios periods base_results);
  mret {| ForecastData.base_results := base_results;
          ForecastData.forecasts := forecast_data;
          ForecastData.scenarios_used := scenarios;
          ForecastData.periods_used := periods |}.

Definition compare_scenarios (self_scenarios : list (string * Scenario.t))
    (period_months : Z) : M (list (string * Comparison.t)) :=
  base_results ← RevenueCalculator.calculate_comprehensive_results;
  for_each self_scenarios []
    (fun comparison_data '(scenario_name, scenario_params) =>
       forecast ←
         _calculate_period_forecast base_results scenario_params period_months;
       let totals := Forecast.period_totals forecast in
       mret (dset comparison_data scenario_name
               {| Comparison.total_revenue := PeriodTotals.total_revenue totals;
                  Comparison.total_profit := PeriodTotals.total_profit totals;
                  Comparison.profit_margin := PeriodTotals.profit_margin totals;
                  Comparison.final_customers :=
                    PeriodTotals.final_customers totals;
                  Comparison.customer_growth :=
                    PeriodTotals.customer_growth totals;
                  Comparison.growth_rate := Scenario.growth_rate scenario_params;
                  Comparison.retention_rate :=
                    Scenario.retention_rate scenario_params |})).

Definition growth_rates : list Q :=
  [0.05; 0.10; 0.15; 0.20; 0.25; 0.30; 0.40; 0.50].
Definition retention_rates : list Q := [0.80; 0.85; 0.90; 0.95; 0.98].

Definition generate_sensitivity_analysis (base_period : Z) : M Sensitivity.t :=
  base_results ← RevenueCalculator.calculate_comprehensive_results;
  let base_retention := 0.90 in
  growth_rate_sensitivity ←
    for_each growth_rates []
      (fun (rows : list GrowthSensitivity.t) growth_rate =>
         let scenario_params :=
           {| Scenario.growth_rate := growth_rate;
              Scenario.retention_rate := base_retention;
              Scenario.pricing_adjustments := None;
              Scenario.quantity_adjustments := None |} in
         forecast ←
           _calculate_period_forecast base_results scenario_params base_period;
         let totals := Forecast.period_totals forecast in
         mret (rows ++ [
           {| GrowthSensitivity.growth_rate := growth_rate * 100;
              GrowthSensitivity.total_revenue :=
                PeriodTotals.total_revenue totals;
              GrowthSensitivity.total_profit := PeriodTotals.total_profit totals;
              GrowthSensitivity.final_customers :=
                PeriodTotals.final_customers totals |}])%list);
  let base_growth := 0.15 in
  retention_rate_sensitivity ←
    for_each retention_rates []
      (fun (rows : list RetentionSensitivity.t) retention_rate =>
         let scenario_params :=
           {| Scenario.growth_rate := base_growth;
              Scenario.retention_rate := retention_rate;
              Scenario.pricing_adjustments := None;
              Scenario.quantity_adjustments := None |} in
         forecast ←
           _calculate_period_forecast base_results scenario_params base_period;
         let totals := Forecast.period_totals forecast in
         mret (rows ++ [
           {| RetentionSensitivity.retention_rate := retention_rate * 100;
              RetentionSensitivity.total_revenue :=
                PeriodTotals.total_revenue totals;
              RetentionSensitivity.total_profit :=
                PeriodTotals.total_profit totals;
              RetentionSensitivity.final_customers :=
                PeriodTotals.final_customers totals |}])%list);
  mret {| Sensitivity.growth_rate_sensitivity := growth_rate_sensitivity;
          Sensitivity.retention_rate_sensitivity :=
            retention_rate_sensitivity |}.

End Forecaster.

(** ** Pricing data with its tiers as objects

    [update_pricing_data] updates a tier in place, and a tier is one object
    for every dictionary made from [AppConfig.DEFAULT_PRICING] by [copy()]:
    the class attribute itself, the [pricing_data] of a manager and the entry
    of the session state.  The methods of the data manager that make, update
    and hand out the pricing data are given here over a store of tier
    objects; the entries of a tier are replaced, never updated in place, and
    stay values. *)

Module Tiers.

Abbreviation tier := (list (string * json)).

(** A value of a pricing dictionary: a tier object, or a value that is not
    a dictionary. *)
Inductive pref : Type :=
  | PObj (l : loc)
  | PVal (v : json).

Abbreviation pricing_dict := (list (string * pref)).

Record state : Type := {
  objects : gmap loc tier;
  defaults : pricing_dict;
  pricing : pricing_dict;
  session_pricing : option pricing_dict
}.

Definition P (A : Type) : Type := state -> result A * state.

#[global] Instance P_ret : MRet P := fun A a s => (Ok a, s).
#[global] Instance P_bind : MBind P := fun A B f m s =>
  match m s with
  | (Ok a, s') => f a s'
  | (Raise e, s') => (Raise e, s')
  end.

(** The tier objects of [AppConfig.DEFAULT_PRICING] are the objects 1 to 3;
    no manager has been made and the session is fresh. *)
Definition loaded : state :=
  match AppConfig.DEFAULT_PRICING with
  | JDict [(vip, JDict t1); (normal, JDict t2); (custom, JDict t3)] =>
      {| objects := list_to_map [(1%positive, t1); (2%positive, t2);
                                 (3%positive, t3)];
         defaults := [(vip, PObj 1%positive); (normal, PObj 2%positive);
                      (custom, PObj 3%positive)];
         pricing := [];
         session_pricing := None |}
  | _ => {| objects := ∅; defaults := []; pricing := [];
            session_pricing := None |}
  end.

(** The pricing part of [__init__] with [_initialize_session_state]. *)
Definition init : P unit := fun s =>
  let pricing_data := shallow_copy (defaults s) in
  match session_pricing s with
  | None =>
      (Ok tt, {| objects := objects s; defaults := defaults s;
                 pricing := pricing_data;
                 session_pricing := Some pricing_data |})
  | Some session_data =>
      (Ok tt, {| objects := objects s; defaults := defaults s;
                 pricing := session_data;
                 session_pricing := Some session_data |})
  end.

(** What [get_pricing_data] returns: the whole dictionary, the value under
    the name, or the new empty dictionary of [.get(name, {})]. *)
Inductive pricing_view : Type :=
  | Whole (p : pricing_dict)
  | Under (t : pref)
  | Missing.

(** [None] for the default [None]; the empty string is false too. *)
Definition get_pricing_data (subscription_type : option string)
    : P pricing_view := fun s =>
  match subscription_type with
  | Some (String _ _ as name) =>
      (Ok (match dget (pricing s) name with
           | Some t => Under t
           | None => Missing
           end), s)
  | Some EmptyString | None => (Ok (Whole (pricing s)), s)
  end.

Definition update_pricing_data (subscription_type : string)
    (pricing_updates : tier) : P unit := fun s =>
  match dget (pricing s) subscription_type with
  | None => (Ok tt, s)
  | Some (PVal _) => (Raise AttributeError, s)
  | Some (PObj l) =>
      match objects s !! l with
      | None => (Raise DanglingReference, s)
      | Some t =>
          (Ok tt,
           {| objects :=
                <[l := DataManager.dict_update t pricing_updates]> (objects s);
              defaults := defaults s;
              pricing := pricing s;
              session_pricing := Some (pricing s) |})
      end
  end.

Definition reset_pricing_to_defaults : P unit := fun s =>
  let pricing_data := shallow_copy (defaults s) in
  (Ok tt, {| objects := objects s; defaults := defaults s;
             pricing := pricing_data;
             session_pricing := Some pricing_data |}).

(** The value behind a binding, as it stands. *)
Definition resolve (s : state) (t : pref) : result json :=
  match t with
  | PObj l =>
      match objects s !! l with
      | Some d => Ok (JDict d)
      | None => Raise DanglingReference
      end
  | PVal v => Ok v
  end.

(** [pricing.items()] on what [get_pricing_data] returned. *)
Definition items (view : pricing_view) : P tier := fun s =>
  match view with
  | Missing => (Ok [], s)
  | Under t =>
      (match resolve s t with
       | Ok (JDict d) => Ok d
       | Ok _ => Raise AttributeError
       | Raise e => Raise e
       end, s)
  | Whole p =>
      (for_each p []
         (fun (l : tier) '(name, t) =>
            v ← resolve s t; Ok (l ++ [(name, v)])%list), s)
  end.

End Tiers.

(** ** pages/pricing.py *)

Module PricingPage.

(** The body of the inner loop of [apply_percentage_change]. *)
Definition scale_item (multiplier : Q) (updated_pricing : Tiers.tier)
    (item : string * json) : result Tiers.tier :=
  let '(service_key, service_data) := item in
  match service_data with
  | JDict d =>
      if dmem d "cost" then
        c ← dsubscript d "cost";
        c ← json_num c;
        let cost := c * multiplier in
        p ← dsubscript d "selling";
        p ← json_num p;
        let selling := p * multiplier in
        p' ← dsubscript d "selling";
        p' ← json_num p';
        c' ← dsubscript d "cost";
        c' ← json_num c';
        Ok (dset updated_pricing service_key
              (JDict [("cost", JNum cost); ("selling", JNum selling);
                      ("profit", JNum (p' * multiplier - c' * multiplier))]))
      else Ok (dset updated_pricing service_key service_data)
  | JNum _ | JBool _ =>
      x ← json_num service_data;
      Ok (dset updated_pricing service_key (JNum (x * multiplier)))
  | _ => Ok (dset updated_pricing service_key service_data)
  end.

Definition apply_percentage_change (multiplier : Q) : Tiers.P unit :=
  for_each ["VIP"; "Normal"; "Custom"] tt
    (fun _ sub_type =>
       pricing ← Tiers.get_pricing_data (Some sub_type);
       items ← Tiers.items pricing;
       match for_each items [] (scale_item multiplier) with
       | Ok updated_pricing => Tiers.update_pricing_data sub_type updated_pricing
       | Raise e => fun s => (Raise e, s)
       end).

End PricingPage.

(** ** pages/forecast.py *)

Module ForecastPage.

Definition classify_risk_level (growth_rate retention_rate : Q) : string :=
  if Qgtb growth_rate 0.3 || Qgtb 0.85 retention_rate then "🔴 High Risk"
  else if Qgtb growth_rate 0.15 || Qgtb 0.90 retention_rate
       then "🟡 Medium Risk"
       else "🟢 Low Risk".

End ForecastPage.

(** * Specification-side definitions *)

(** The amount a well-shaped tier gives for one field of a named component:
    0 when the component or the field is missing. *)
Definition price (tier : list (string * json)) (name field : string) : Q :=
  match dget tier name with
  | Some (JDict item) =>
      match dget item field with
      | Some (JNum q) => q
      | _ => 0
      end
  | _ => 0
  end.

(** The flat digital profit of a tier, 0 when missing. *)
Definition digital_profit (tier : list (string * json)) : Q :=
  match dget tier "digitalProfit" with
  | Some (JNum q) => q
  | _ => 0
  end.

Definition number_or_missing (d : list (string * json)) (k : string) : bool :=
  match dget d k with
  | None | Some (JNum _) => true
  | Some _ => false
  end.

(** A component is a [{cost, selling}] price entry, or missing. *)
Definition entry_ok (tier : list (string * json)) (name : string) : bool :=
  match dget tier name with
  | None => true
  | Some (JDict item) =>
      number_or_missing item "cost" && number_or_missing item "selling"
  | Some _ => false
  end.

(** The shape of a tier that [calculate_package_cost] reads. *)
Definition tier_ok (tier : list (string * json)) : bool :=
  forallb (entry_ok tier)
    ["mealsPerMonth"; "deliveryPerMonth"; "meals3Months"; "delivery3Months";
     "bracelet"; "pointsX10"]
  && number_or_missing tier "digitalProfit".

(** The component sum of a package, as the specification words it. *)
Definition package_total (tier : list (string * json)) (duration : Z)
    (field : string) : Q :=
  let meals := if (duration =? 1)%Z then "mealsPerMonth" else "meals3Months" in
  let delivery :=
    if (duration =? 1)%Z then "deliveryPerMonth" else "delivery3Months" in
  price tier meals field + price tier delivery field
  + price tier "bracelet" field + price tier "pointsX10" field.

(** The customer count of the recursion before any truncation: the count
    after [n] months. *)
Fixpoint customers_after (base_customers growth_rate retention_rate : Q)
    (n : nat) : Q :=
  match n with
  | O => base_customers
  | S n' =>
      let c := customers_after base_customers growth_rate retention_rate n' in
      c * retention_rate + c * growth_rate / 12
  end.

(** The part of the world that pricing and inputs live in. *)
Definition same_catalog (w w' : world) : Prop :=
  heap w' = heap w /\ pricing_data w' = pricing_data w /\ inputs w' = inputs w.

(** A computation that only reads. *)
Definition read_only {A} (m : M A) : Prop := forall w, (m w).2 = w.

(** A computation that writes at most the session state. *)
Definition keeps_catalog {A} (m : M A) : Prop :=
  forall w, same_catalog w (m w).2.

(** ** Invariants of the monthly loop *)

(** The customer count carried by the loop is the un-truncated one; the rows
    record truncations of it. *)
Definition customers_invariant (base_customers growth_rate retention_rate : Q)
    (k : nat) (s : Forecaster.loop_state) : Prop :=
  let c := customers_after base_customers growth_rate retention_rate in
  Forecaster.current_customers s = c k
  /\ length (Forecaster.monthly_data s) = k
  /\ forall m row,
       Forecaster.monthly_data s !! m = Some row ->
       MonthRow.month row = Z.of_nat (S m)
       /\ MonthRow.customers row = py_int (c (S m))
       /\ MonthRow.new_customers row = py_int (c m * growth_rate / 12).

(** The sum of a monthly figure over rows, each taken as it was before the
    seasonality adjustment. *)
Definition before_seasonality (f : MonthRow.t -> Q) (rows : list MonthRow.t)
    : Q :=
  fold_right
    (fun row acc =>
       acc + f row / Forecaster._get_seasonality_factor (MonthRow.month row))
    0 rows.

(** The cumulative figures are running sums of the monthly figures as they
    were before the seasonality adjustment. *)
Definition cumulative_invariant (s : Forecaster.loop_state) : Prop :=
  Forecaster.cumulative_revenue s
  == before_seasonality MonthRow.monthly_revenue (Forecaster.monthly_data s)
  /\ Forecaster.cumulative_cost s
     == before_seasonality MonthRow.monthly_cost (Forecaster.monthly_data s)
  /\ Forecaster.cumulative_profit s
     == before_seasonality MonthRow.monthly_profit (Forecaster.monthly_data s)
  /\ Forecaster.cumulative_profit s
     == Forecaster.cumulative_revenue s - Forecaster.cumulative_cost s
  /\ forall m row,
       Forecaster.monthly_data s !! m = Some row ->
       let rows := take (S m) (Forecaster.monthly_data s) in
       MonthRow.cumulative_revenue row
       == before_seasonality MonthRow.monthly_revenue rows
       /\ MonthRow.cumulative_cost row
          == before_seasonality MonthRow.monthly_cost rows
       /\ MonthRow.cumulative_profit row
          == before_seasonality MonthRow.monthly_profit rows.

(** Every row derives its margin from its own adjusted revenue and cost. *)
Definition margin_invariant (s : Forecaster.loop_state) : Prop :=
  forall row,
    In row (Forecaster.monthly_data s) ->
    MonthRow.monthly_profit row
    = MonthRow.monthly_revenue row - MonthRow.monthly_cost row
    /\ MonthRow.profit_margin row
       = if Qgtb (MonthRow.monthly_revenue row) 0
         then MonthRow.monthly_profit row / MonthRow.monthly_revenue row * 100
         else 0.

(** ** Subscription combinations *)

(** The key under which the loop looks a combination up in the inputs. *)
Definition input_key (combo : Combo.t) : string :=
  Combo.type combo ++ "_" ++ str_of_int (Combo.duration combo) ++ "_month"
  ++ (if (Combo.duration combo >? 1)%Z then "s" else "").

(** The customer count of a combination in the inputs of a world. *)
Definition customers_of (w : world) (combo : Combo.t) : result Q :=
  (RevenueCalculator.count_of (input_key combo) "customers" w).1.


(** ** Inputs used in the statements below *)

Definition with_heap (h : gmap loc counts_dict) (w : world) : world :=
  {| heap := h; pricing_data := pricing_data w; inputs := inputs w;
     session := session w |}.

Definition with_pricing (p : json) (w : world) : world :=
  {| heap := heap w; pricing_data := p; inputs := inputs w;
     session := session w |}.

(** Every subscription combination has no customer and no renewal. *)
Definition no_customers : world :=
  with_heap ((fun _ => [("customers", 0); ("renewals", 0)])
               <$> AppConfig.DEFAULT_COUNTS) DataManager.init.

(** The default inputs with no customer in the one-month Custom package. *)
Definition no_custom_month : world :=
  with_heap (<[5%positive := [("customers", 0); ("renewals", 25)]]>
               AppConfig.DEFAULT_COUNTS) DataManager.init.

(** A baseline with the given revenue, cost and customer count. *)
Definition baseline (revenue cost customers : Q) : Results.t :=
  {| Results.subscriptions := [];
     Results.additional_services := [];
     Results.totals :=
       {| Totals.total_cost := cost;
          Totals.total_revenue := revenue;
          Totals.total_profit := revenue - cost;
          Totals.profit_margin :=
            if Qgtb revenue 0 then (revenue - cost) / revenue * 100 else 0;
          Totals.total_customers := customers;
          Totals.revenue_per_customer :=
            if Qgtb customers 0 then revenue / customers else 0;
          Totals.cost_per_customer :=
            if Qgtb customers 0 then cost / customers else 0;
          Totals.profit_per_customer :=
            if Qgtb customers 0 then (revenue - cost) / customers else 0 |} |}.

(** A scenario without pricing or quantity overrides. *)
Definition plain (growth_rate retention_rate : Q) : Scenario.t :=
  {| Scenario.growth_rate := growth_rate;
     Scenario.retention_rate := retention_rate;
     Scenario.pricing_adjustments := None;
     Scenario.quantity_adjustments := None |}.

(** The default catalog with the one-month Custom package given away: its
    meals and delivery sell at 0, everything else is as in the defaults. *)
Definition free_custom_month : json :=
  match AppConfig.DEFAULT_PRICING with
  | JDict d =>
      match dget d "Custom" with
      | Some (JDict custom) =>
          let custom :=
            dset custom "mealsPerMonth" (AppConfig.entry 1000 0 (-1000)) in
          let custom :=
            dset custom "deliveryPerMonth" (AppConfig.entry 200 0 (-200)) in
          JDict (dset d "Custom" (JDict custom))
      | _ => JDict d
      end
  | other => other
  end.

(** A loader that knows one document, the empty object; everything else is
    not JSON to it. *)
Definition empty_object_only (s : string) : result json :=
  if String.eqb s "{}" then Ok (JDict []) else Raise JSONDecodeError.

(** ** More invariants of the monthly loop *)

(** Zero growth and full retention: after [k] months. *)
Definition flat_invariant (base_monthly_revenue base_monthly_cost
    base_customers : Q) (k : nat) (s : Forecaster.loop_state) : Prop :=
  Forecaster.current_customers s == base_customers
  /\ Forecaster.cumulative_revenue s
     == base_monthly_revenue * inject_Z (Z.of_nat k)
  /\ Forecaster.cumulative_cost s == base_monthly_cost * inject_Z (Z.of_nat k)
  /\ forall row,
       In row (Forecaster.monthly_data s) ->
       MonthRow.customers row = py_int base_customers
       /\ MonthRow.new_customers row = 0%Z
       /\ MonthRow.monthly_revenue row
          == base_monthly_revenue
             * Forecaster._get_seasonality_factor (MonthRow.month row)
       /\ MonthRow.monthly_cost row
          == base_monthly_cost
             * Forecaster._get_seasonality_factor (MonthRow.month row).

(** The count is not negative, the cumulative figures of the rows are in
    non-decreasing order and the running figures are their upper bound. *)
Definition growing_invariant (s : Forecaster.loop_state) : Prop :=
  0 <= Forecaster.current_customers s
  /\ (forall row,
        In row (Forecaster.monthly_data s) ->
        MonthRow.cumulative_revenue row <= Forecaster.cumulative_revenue s
        /\ MonthRow.cumulative_cost row <= Forecaster.cumulative_cost s)
  /\ forall i j ri rj,
       (i <= j)%nat ->
       Forecaster.monthly_data s !! i = Some ri ->
       Forecaster.monthly_data s !! j = Some rj ->
       MonthRow.cumulative_revenue ri <= MonthRow.cumulative_revenue rj
       /\ MonthRow.cumulative_cost ri <= MonthRow.cumulative_cost rj.

(** Two runs of the loop side by side: the first is never ahead of the
    second. *)
Definition not_ahead (base_monthly_revenue base_monthly_cost : Q)
    (s1 s2 : Forecaster.loop_state) : Prop :=
  0 <= Forecaster.current_customers s1
  /\ Forecaster.current_customers s1 <= Forecaster.current_customers s2
  /\ Forecaster.cumulative_revenue s1 <= Forecaster.cumulative_revenue s2
  /\ Forecaster.cumulative_cost s1 <= Forecaster.cumulative_cost s2
  /\ (base_monthly_cost <= base_monthly_revenue ->
      Forecaster.cumulative_profit s1 <= Forecaster.cumulative_profit s2).

(** Every figure of the loop is a baseline monthly figure times a factor:
    one factor for the running revenue, cost and profit, one for each
    row. *)
Definition proportional_invariant (base_monthly_revenue base_monthly_cost : Q)
    (s : Forecaster.loop_state) : Prop :=
  (exists factor,
      Forecaster.cumulative_revenue s == base_monthly_revenue * factor
      /\ Forecaster.cumulative_cost s == base_monthly_cost * factor
      /\ Forecaster.cumulative_profit s
         == (base_monthly_revenue - base_monthly_cost) * factor)
  /\ forall row,
       In row (Forecaster.monthly_data s) ->
       exists factor,
         MonthRow.monthly_revenue row == base_monthly_revenue * factor
         /\ MonthRow.monthly_cost row == base_monthly_cost * factor
         /\ MonthRow.profit_margin row
            = if Qgtb (MonthRow.monthly_revenue row) 0
              then (MonthRow.monthly_revenue row - MonthRow.monthly_cost row)
                   / MonthRow.monthly_revenue row * 100
              else 0.

(** A scenario without override keys. *)
Definition without_overrides (scenario_params : Scenario.t) : Prop :=
  Scenario.pricing_adjustments scenario_params = None
  /\ Scenario.quantity_adjustments scenario_params = None.

(** The forecasts one scenario has in the result of [generate_forecast],
    after the periods [periods]: one for each of them under its key, each
    the forecast of the period, and nothing else. *)
Definition scenario_forecasts_of (base_results : Results.t)
    (scenario_params : Scenario.t) (w : world) (periods : list Z)
    (scenario_forecasts : list (string * Forecast.t)) : Prop :=
  (forall period,
      In period periods ->
      exists forecast,
        dget scenario_forecasts (str_of_int period ++ "_months")
        = Some forecast
        /\ Forecaster._calculate_period_forecast base_results scenario_params
             period w = (Ok forecast, w))
  /\ forall key,
       is_Some (dget scenario_forecasts key) ->
       exists period,
         In period periods /\ key = str_of_int period ++ "_months".

(** ** The figures of the comprehensive results *)

(** The sum of a figure over a list. *)
Definition total_of {A} (f : A -> Q) (l : list A) : Q :=
  fold_right (fun x acc => f x + acc) 0 l.

(** What a row of the subscription results records of its combination. *)
Definition row_consistent (row : SubRow.t) : Prop :=
  0 < SubRow.customers row
  /\ SubRow.total_cost row
     = SubRow.cost_per_customer row * SubRow.customers row
  /\ SubRow.renewal_revenue row
     = SubRow.renewals row
       * RevenueCalculator.renewal_price (SubRow.duration row)
  /\ SubRow.total_revenue row
     = SubRow.revenue_per_customer row * SubRow.customers row
       + SubRow.renewal_revenue row
  /\ SubRow.total_profit row = SubRow.total_revenue row - SubRow.total_cost row
  /\ SubRow.profit_margin row
     = if Qgtb (SubRow.revenue_per_customer row * SubRow.customers row) 0
       then SubRow.total_profit row / SubRow.total_revenue row * 100
       else 0.

(** The world with [totals] as the last calculation of the session. *)
Definition with_last_calculation (totals : Totals.t) (w : world) : world :=
  {| heap := heap w; pricing_data := pricing_data w; inputs := inputs w;
     session := {| ss_pricing_data := ss_pricing_data (session w);
                   ss_input_data := ss_input_data (session w);
                   last_calculation := Some totals |} |}.

Definition with_session (s : session_state) (w : world) : world :=
  {| heap := heap w; pricing_data := pricing_data w; inputs := inputs w;
     session := s |}.

(** A computation whose result does not depend on the session state. *)
Definition ignores_session {A} (m : M A) : Prop :=
  forall w s, (m (with_session s w)).1 = (m w).1.

(** The lines of the breakdown. *)
Definition subscription_line (x : string * SubRow.t) : BreakdownRow.t :=
  {| BreakdownRow.category := "Subscription";
     BreakdownRow.name := x.1;
     BreakdownRow.cost := SubRow.total_cost x.2;
     BreakdownRow.revenue := SubRow.total_revenue x.2;
     BreakdownRow.profit := SubRow.total_profit x.2;
     BreakdownRow.margin := SubRow.profit_margin x.2;
     BreakdownRow.customers := SubRow.customers x.2 |}.

Definition service_line (x : string * Service.t) : BreakdownRow.t :=
  {| BreakdownRow.category := "Additional Service";
     BreakdownRow.name := x.1;
     BreakdownRow.cost := Service.cost x.2;
     BreakdownRow.revenue := Service.revenue x.2;
     BreakdownRow.profit := Service.profit x.2;
     BreakdownRow.margin :=
       if Qgtb (Service.revenue x.2) 0
       then Service.profit x.2 / Service.revenue x.2 * 100 else 0;
     BreakdownRow.customers := 0 |}.

(** A line of the performance ranking. *)
Definition performance_line (x : Z * (string * SubRow.t)) : Performance.t :=
  {| Performance.rank := x.1;
     Performance.subscription_type := x.2.1;
     Performance.total_profit := SubRow.total_profit x.2.2;
     Performance.profit_margin := SubRow.profit_margin x.2.2;
     Performance.customers := SubRow.customers x.2.2;
     Performance.revenue_per_customer := SubRow.revenue_per_customer x.2.2;
     Performance.score :=
       SubRow.total_profit x.2.2 * SubRow.profit_margin x.2.2 / 100 |}.

(** The items whose key is [k]. *)
Definition with_key {A} (key : A -> Q) (k : Q) (l : list A) : list A :=
  filter (fun x => Qeq_bool (key x) k = true) l.

(** The sum of the growth factors of the months 1 to [n]. *)
Definition geometric_sum (growth_rate : Q) (n : nat) : Q :=
  total_of (fun month => (1 + growth_rate) ^ month)
    (map (fun i => (1 + Z.of_nat i)%Z) (seq 0 n)).

(** The loop of [calculate_growth_impact] after [k] months. *)
Definition impact_invariant (monthly_revenue monthly_cost growth_rate : Q)
    (k : nat) (s : RevenueCalculator.impact_state) : Prop :=
  RevenueCalculator.impact_cumulative_revenue s
  == monthly_revenue * geometric_sum growth_rate k
  /\ RevenueCalculator.impact_cumulative_profit s
     == (monthly_revenue - monthly_cost) * geometric_sum growth_rate k
  /\ length (RevenueCalculator.projected_data s) = k
  /\ forall i row,
       RevenueCalculator.projected_data s !! i = Some row ->
       Projection.month row = (1 + Z.of_nat i)%Z
       /\ Projection.growth_factor row
          = (1 + growth_rate) ^ (1 + Z.of_nat i)
       /\ Projection.monthly_revenue row
          = monthly_revenue * Projection.growth_factor row
       /\ Projection.cumulative_revenue row
          == monthly_revenue * geometric_sum growth_rate (S i).

(** The subscription row that holds the figures of a summary row. *)
Definition sub_of_summary (row : SummaryRow.t) : SubRow.t :=
  {| SubRow.type := SummaryRow.subscription_type row;
     SubRow.duration := SummaryRow.duration_months row;
     SubRow.customers := SummaryRow.customers row;
     SubRow.renewals := SummaryRow.renewals row;
     SubRow.cost_per_customer := SummaryRow.cost_per_customer row;
     SubRow.revenue_per_customer := SummaryRow.revenue_per_customer row;
     SubRow.total_cost := SummaryRow.total_cost row;
     SubRow.total_revenue := SummaryRow.total_revenue row;
     SubRow.total_profit := SummaryRow.total_profit row;
     SubRow.profit_margin := SummaryRow.profit_margin row;
     SubRow.renewal_revenue := SummaryRow.renewal_revenue row |}.

(** A summary row and the subscription results agree on a combination: the
    results hold the figures of the row when it has customers, and nothing
    under its name when it has none. *)
Definition summary_agrees (subscription_results : list (string * SubRow.t))
    (combo : Combo.t) (row : SummaryRow.t) : Prop :=
  SummaryRow.subscription_type row = Combo.type combo
  /\ SummaryRow.duration_months row = Combo.duration combo
  /\ dget subscription_results (Combo.display_name combo)
     = if Qgtb (SummaryRow.customers row) 0
       then Some (sub_of_summary row) else None.

(** ** Imported documents *)

(** Whether a parsed document has the three tier names, by the kind of the
    document: a key of a mapping, an element of a list, a part of a string;
    [None] for a document that has no [in]. *)
Definition names_present (data : json) : option bool :=
  let required_types := ["VIP"; "Normal"; "Custom"] in
  match data with
  | JDict d => Some (forallb (dmem d) required_types)
  | JList l =>
      Some (forallb (fun name => existsb (json_is_str name) l) required_types)
  | JStr s => Some (forallb (fun name => is_substring name s) required_types)
  | JNull | JBool _ | JNum _ => None
  end.

(** The world after the import of [data]. *)
Definition with_imported (data : json) (w : world) : world :=
  {| heap := heap w; pricing_data := data; inputs := inputs w;
     session := {| ss_pricing_data := Some data;
                   ss_input_data := ss_input_data (session w);
                   last_calculation := last_calculation (session w) |} |}.

(** ** The prices of the services *)

(** [pricing[tier][item][field]] as a number. *)
Definition service_price (pricing : json) (tier item field : string)
    : result Q :=
  t ← json_subscript pricing tier;
  e ← json_subscript t item;
  p ← json_subscript e field;
  json_num p.

(** [inputs.get(key, dflt)] as a number. *)
Definition quantity (i : inputs_dict) (key : string) (dflt : Q) : result Q :=
  DataManager.ival_num (DataManager.input_get i key dflt).

(** The priced services: the name of the line, the tier and item of the
    pricing data that price it, and the key and default of its quantity. *)
Definition priced_services : list (string * string * string * string * Q) :=
  [("Additional Bracelets", "VIP", "bracelet", "additional_bracelets", 100);
   ("CBYI Services", "Custom", "cbyiOneMonth", "cbyi_non_subscribers", 50);
   ("Non-Subscriber Bracelets", "VIP", "bracelet",
    "bracelets_non_subscribers", 75);
   ("Car Rental", "VIP", "carOneMonth", "car_rental_customers", 20)].

(** The rank of a risk label: low, medium, high. *)
Definition risk_rank (label : string) : nat :=
  if String.eqb label "🔴 High Risk" then 2
  else if String.eqb label "🟡 Medium Risk" then 1
  else 0.

(** ** Tiers as objects *)

(** The manager of a fresh session, made when the configuration has just
    been loaded. *)
Definition first_manager : Tiers.state := (Tiers.init Tiers.loaded).2.

(** A price entry with the numeric cost [c] and selling price [p]. *)
Definition price_entry (v : json) (c p : Q) : Prop :=
  exists d,
    v = JDict d /\ dget d "cost" = Some (JNum c)
    /\ dget d "selling" = Some (JNum p).

(** An item of a tier that is a price entry or a number. *)
Definition priced (v : json) : Prop :=
  (exists c p, price_entry v c p) \/ (exists x, v = JNum x).

(** The tier under [name] is the object [l], which holds [t], a dictionary
    of price entries and numbers. *)
Definition priced_tier (s : Tiers.state) (name : string) (l : loc)
    (t : Tiers.tier) : Prop :=
  dget (Tiers.pricing s) name = Some (Tiers.PObj l)
  /\ Tiers.objects s !! l = Some t
  /\ NoDup (map fst t)
  /\ Forall (fun item => priced item.2) t.

(** [t'] is [t] with every price scaled by [multiplier]. *)
Definition scaled_from (multiplier : Q) (t t' : Tiers.tier) : Prop :=
  (forall k, dget t' k = None <-> dget t k = None)
  /\ (forall k v c p,
         dget t k = Some v -> price_entry v c p ->
         dget t' k
         = Some (AppConfig.entry (c * multiplier) (p * multiplier)
                   (p * multiplier - c * multiplier)))
  /\ forall k x,
       dget t k = Some (JNum x) -> dget t' k = Some (JNum (x * multiplier)).

(** The value an item is given by the loop of [apply_percentage_change]. *)
Definition scaled (multiplier : Q) (v : json) : result json :=
  match PricingPage.scale_item multiplier [] (EmptyString, v) with
  | Ok [(_, v')] => Ok v'
  | Ok _ => Raise TypeError
  | Raise e => Raise e
  end.

(** A computation that leaves the inputs, the pricing data and the session
    as they were: it writes at most the nested objects. *)
Definition writes_objects_only {A} (m : M A) : Prop :=
  forall w,
    inputs (m w).2 = inputs w
    /\ pricing_data (m w).2 = pricing_data w
    /\ session (m w).2 = session w.

(** The world once [_apply_pricing_adjustments] has put the quantity
    overrides in place, when they are given and not empty. *)
Definition with_quantities (quantity_adjustments : option inputs_dict)
    (w : world) : world :=
  if Forecaster.truthy quantity_adjustments then
    {| heap := heap w; pricing_data := pricing_data w;
       inputs := default [] quantity_adjustments;
       session := {| ss_pricing_data := ss_pricing_data (session w);
                     ss_input_data := quantity_adjustments;
                     last_calculation := last_calculation (session w) |} |}
  else w.

(** * Properties *)

(** Split the conjunctions of a goal, and nothing else. *)
Ltac split_conj := repeat match goal with |- _ /\ _ => split end.

(** ** Dictionaries *)

Section DictFacts.
Context {V : Type}.
Implicit Types (d : list (string * V)) (k : string) (v : V).

Lemma dget_dset_eq d k v : dget (dset d k v) k = Some v.
Proof.
  induction d as [|[k' v'] d IH]; simpl.
  - by rewrite String.eqb_refl.
  - destruct (String.eqb k' k) eqn:E; simpl; rewrite E; [done | exact IH].
Qed.

Lemma dget_dset_ne d k k' v : k <> k' -> dget (dset d k v) k' = dget d k'.
Proof.
  intros Hne. induction d as [|[k0 v0] d IH]; simpl.
  - destruct (String.eqb k k') eqn:E; [|done].
    by apply String.eqb_eq in E.
  - destruct (String.eqb k0 k) eqn:E; simpl; [|by rewrite IH].
    apply String.eqb_eq in E; subst k0.
    destruct (String.eqb k k') eqn:E'; [|done].
    by apply String.eqb_eq in E'.
Qed.

End DictFacts.

(** ** Numbers *)

Lemma Qgtb_true x y : Qgtb x y = true <-> y < x.
Proof.
  unfold Qgtb. rewrite negb_true_iff, <- not_true_iff_false, Qle_bool_iff.
  split; [apply Qnot_le_lt | apply Qlt_not_le].
Qed.

Lemma Qgtb_false x y : Qgtb x y = false <-> x <= y.
Proof. unfold Qgtb. by rewrite negb_false_iff, Qle_bool_iff. Qed.

Lemma Qeq_bool_false x y : Qeq_bool x y = false <-> ~ x == y.
Proof. by rewrite <- not_true_iff_false, Qeq_bool_iff. Qed.

Lemma truediv_ok a b : ~ b == 0 -> truediv a b = Ok (a / b).
Proof. intros H. unfold truediv. by apply Qeq_bool_false in H as ->. Qed.

Lemma truediv_zero a b : b == 0 -> truediv a b = Raise ZeroDivisionError.
Proof. intros H. unfold truediv. by apply Qeq_bool_iff in H as ->. Qed.

(** ** What each operation may write *)

Lemma read_only_ret {A} (a : A) : read_only (mret a).
Proof. done. Qed.

Lemma read_only_lift {A} (r : result A) : read_only (lift r).
Proof. done. Qed.

Lemma read_only_bind {A B} (m : M A) (f : A -> M B) :
  read_only m -> (forall a, read_only (f a)) -> read_only (m ≫= f).
Proof.
  intros Hm Hf w. unfold mbind, M_bind. specialize (Hm w).
  destruct (m w) as [[a|e] w']; simpl in *; subst; [apply Hf | done].
Qed.

Lemma read_only_get_pricing : read_only get_pricing.
Proof. done. Qed.

Lemma read_only_get_inputs : read_only get_inputs.
Proof. done. Qed.

Lemma read_only_deref l : read_only (deref l).
Proof. intros w. unfold deref. by destruct (heap w !! l). Qed.

Lemma read_only_for_each {A B} (l : list A) (body : B -> A -> M B) :
  (forall acc x, read_only (body acc x)) ->
  forall acc, read_only (for_each l acc body).
Proof.
  intros Hbody. induction l as [|x l IH]; intros acc; simpl.
  - apply read_only_ret.
  - apply read_only_bind; [apply Hbody | intros; apply IH].
Qed.

Lemma read_only_keeps {A} (m : M A) : read_only m -> keeps_catalog m.
Proof. intros H w. rewrite H. by unfold same_catalog. Qed.

Lemma keeps_catalog_bind {A B} (m : M A) (f : A -> M B) :
  keeps_catalog m -> (forall a, keeps_catalog (f a)) -> keeps_catalog (m ≫= f).
Proof.
  intros Hm Hf w. unfold mbind, M_bind. specialize (Hm w).
  destruct (m w) as [[a|e] w']; simpl in *; [|done].
  destruct Hm as (H1 & H2 & H3), (Hf a w') as (G1 & G2 & G3).
  unfold same_catalog. split_conj; congruence.
Qed.

Lemma keeps_catalog_set_session s : keeps_catalog (set_session s).
Proof. intros w. by unfold same_catalog. Qed.

Create HintDb frame.
#[global] Hint Resolve read_only_ret read_only_lift read_only_get_pricing
  read_only_get_inputs read_only_deref : frame.

Lemma read_only_calculate_package_cost ty duration :
  read_only (DataManager.calculate_package_cost ty duration).
Proof.
  unfold DataManager.calculate_package_cost.
  apply read_only_bind; auto with frame.
Qed.

Lemma read_only_count_of key field :
  read_only (RevenueCalculator.count_of key field).
Proof.
  unfold RevenueCalculator.count_of.
  apply read_only_bind; [auto with frame|]. intros i.
  destruct (dget i key) as [[q|l]|]; [done| |done].
  apply read_only_bind; auto with frame.
Qed.

Lemma read_only_subscription_row combo customers renewals :
  read_only (RevenueCalculator.subscription_row combo customers renewals).
Proof.
  unfold RevenueCalculator.subscription_row.
  apply read_only_bind; [apply read_only_calculate_package_cost|]. intros p.
  apply read_only_bind; auto with frame.
Qed.

Lemma read_only_subscription_step acc combo :
  read_only (RevenueCalculator.subscription_step acc combo).
Proof.
  unfold RevenueCalculator.subscription_step.
  apply read_only_bind; [apply read_only_count_of|]. intros c.
  apply read_only_bind; [apply read_only_count_of|]. intros r.
  destruct (Qgtb c 0); [|done].
  apply read_only_bind; [apply read_only_subscription_row | done].
Qed.

Lemma read_only_subscription_results :
  read_only RevenueCalculator._calculate_subscription_results.
Proof. apply read_only_for_each, read_only_subscription_step. Qed.

Lemma read_only_additional_services :
  read_only RevenueCalculator._calculate_additional_services.
Proof.
  unfold RevenueCalculator._calculate_additional_services,
    DataManager.get_additional_services_summary.
  apply read_only_bind; [auto with frame|]. intros p.
  apply read_only_bind; auto with frame.
Qed.

(** [calculate_comprehensive_results] writes [last_calculation] only. *)
Lemma keeps_catalog_comprehensive_results :
  keeps_catalog RevenueCalculator.calculate_comprehensive_results.
Proof.
  unfold RevenueCalculator.calculate_comprehensive_results.
  apply keeps_catalog_bind;
    [apply read_only_keeps, read_only_subscription_results|]. intros subs.
  apply keeps_catalog_bind;
    [apply read_only_keeps, read_only_additional_services|]. intros adds.
  apply keeps_catalog_bind; [by apply read_only_keeps|]. intros s.
  apply keeps_catalog_bind; [apply keeps_catalog_set_session|]. intros _.
  by apply read_only_keeps.
Qed.

(** ** The package cost *)

Lemma component_price tier name field :
  entry_ok tier name = true ->
  field = "cost" \/ field = "selling" ->
  DataManager.component (JDict tier) name field
  = Ok (JNum (price tier name field)).
Proof.
  unfold entry_ok, DataManager.component, price. simpl.
  unfold dget_default.
  destruct (dget tier name) as [[| | | | |item]|]; try done; simpl.
  intros Hshape%andb_prop Hfield. unfold number_or_missing in Hshape.
  destruct Hshape as [Hc Hs]. unfold dget_default.
  destruct Hfield as [-> | ->].
  - by destruct (dget item "cost") as [[]|].
  - by destruct (dget item "selling") as [[]|].
Qed.

Lemma package_sum_price tier meals delivery field :
  entry_ok tier meals = true ->
  entry_ok tier delivery = true ->
  entry_ok tier "bracelet" = true ->
  entry_ok tier "pointsX10" = true ->
  field = "cost" \/ field = "selling" ->
  DataManager.package_sum (JDict tier) meals delivery field
  = Ok (JNum (price tier meals field + price tier delivery field
              + price tier "bracelet" field + price tier "pointsX10" field)).
Proof.
  intros Hm Hd Hb Hp Hf. unfold DataManager.package_sum.
  by rewrite !component_price.
Qed.

Lemma package_sum_total tier duration field :
  tier_ok tier = true ->
  field = "cost" \/ field = "selling" ->
  (if (duration =? 1)%Z
   then DataManager.package_sum (JDict tier) "mealsPerMonth" "deliveryPerMonth"
          field
   else DataManager.package_sum (JDict tier) "meals3Months" "delivery3Months"
          field)
  = Ok (JNum (package_total tier duration field)).
Proof.
  unfold tier_ok, package_total. simpl.
  intros H Hf. rewrite !andb_true_iff in H.
  destruct H as ((? & ? & ? & ? & ? & ? & _) & _).
  destruct (duration =? 1)%Z; by apply package_sum_price.
Qed.

(** The record a well-shaped tier gives. *)
Lemma package_of_value (d tier : list (string * json))
    (subscription_type : string) (duration : Z) :
  dget_default d subscription_type (JDict []) = JDict tier ->
  tier_ok tier = true ->
  let cost := package_total tier duration "cost" in
  let revenue :=
    if String.eqb subscription_type "Custom"
    then package_total tier duration "selling"
    else package_total tier duration "selling" + digital_profit tier in
  DataManager.package_of (JDict d) subscription_type duration
  = Ok {| Package.cost := cost; Package.revenue := revenue;
          Package.profit := revenue - cost |}.
Proof.
  intros Htier Hok cost revenue. unfold DataManager.package_of.
  simpl json_get. rewrite Htier. unfold mbind at 1, result_bind.
  rewrite (package_sum_total tier duration "cost" Hok (or_introl eq_refl)).
  unfold mbind at 1, result_bind.
  rewrite (package_sum_total tier duration "selling" Hok (or_intror eq_refl)).
  subst cost revenue.
  assert (Hdig : dget_default tier "digitalProfit" (JNum 0)
                 = JNum (digital_profit tier)).
  { unfold tier_ok in Hok. apply andb_prop in Hok as [_ Hok].
    unfold number_or_missing in Hok. unfold dget_default, digital_profit.
    by destruct (dget tier "digitalProfit") as [[]|]. }
  destruct (String.eqb subscription_type "Custom"); simpl.
  - done.
  - by rewrite Hdig.
Qed.

(** C6. For every subscription type and duration on a well-shaped catalog,
    [calculate_package_cost] returns the record whose cost and revenue are
    the sums of the named components of that duration, with the flat digital
    profit added to the revenue, and to it only, unless the type is Custom;
    its profit is exactly revenue minus cost, and the world it leaves is the
    world it was called in. *)
Theorem calculate_package_cost_correct
    (w : world) (subscription_type : string) (duration : Z)
    (d tier : list (string * json)) :
  pricing_data w = JDict d ->
  dget_default d subscription_type (JDict []) = JDict tier ->
  tier_ok tier = true ->
  let cost := package_total tier duration "cost" in
  let revenue :=
    if String.eqb subscription_type "Custom"
    then package_total tier duration "selling"
    else package_total tier duration "selling" + digital_profit tier in
  DataManager.calculate_package_cost subscription_type duration w
  = (Ok {| Package.cost := cost; Package.revenue := revenue;
           Package.profit := revenue - cost |}, w).
Proof.
  intros Hd Htier Hok cost revenue.
  unfold DataManager.calculate_package_cost, get_pricing, lift.
  unfold mbind, M_bind. rewrite Hd.
  by rewrite (package_of_value d tier subscription_type duration Htier Hok).
Qed.

Lemma calculate_package_cost_correct_witness :
  DataManager.calculate_package_cost "VIP" 1 DataManager.init
  = (Ok {| Package.cost := 1000 + 200 + 315 + 300;
           Package.revenue := 1500 + 200 + 800 + 250 + 500;
           Package.profit := 1500 + 200 + 800 + 250 + 500
                             - (1000 + 200 + 315 + 300) |},
     DataManager.init).
Proof.
  exact (calculate_package_cost_correct DataManager.init "VIP" 1 _ _
           eq_refl eq_refl eq_refl).
Defined.

(** ** Importing a pricing configuration *)

Lemma validate_missing_key (d : list (string * json)) (k : string) :
  In k ["VIP"; "Normal"; "Custom"] ->
  dget d k = None ->
  DataManager._validate_pricing_structure (JDict d) = Ok false.
Proof.
  intros Hin Hk.
  assert (Hmem : dmem d k = false) by (unfold dmem; by rewrite Hk).
  unfold DataManager._validate_pricing_structure. simpl.
  unfold mbind, result_bind.
  destruct (dmem d "VIP") eqn:Hvip;
    destruct (dmem d "Normal") eqn:Hnormal;
    destruct (dmem d "Custom") eqn:Hcustom; try reflexivity.
  simpl in Hin. destruct Hin as [<-|[<-|[<-|[]]]]; congruence.
Qed.

(** C8. An import whose document is not valid JSON, or parses to a mapping
    that misses one of the tier keys VIP, Normal, Custom, returns [False] and
    leaves the pricing data, and the rest of the world, as they were. *)
Theorem import_pricing_config_rejects
    (json_loads : string -> result json) (config_json : string) (w : world) :
  json_loads config_json = Raise JSONDecodeError
  \/ (exists d k, json_loads config_json = Ok (JDict d)
                  /\ In k ["VIP"; "Normal"; "Custom"] /\ dget d k = None) ->
  DataManager.import_pricing_config json_loads config_json w = (Ok false, w).
Proof.
  intros [Hbad | (d & k & Hload & Hin & Hk)];
    unfold DataManager.import_pricing_config.
  - by rewrite Hbad.
  - rewrite Hload. unfold mbind, M_bind, lift.
    by rewrite (validate_missing_key d k Hin Hk).
Qed.

Lemma import_pricing_config_rejects_witness :
  DataManager.import_pricing_config empty_object_only "VIP, Normal, Custom"
    DataManager.init = (Ok false, DataManager.init)
  /\ DataManager.import_pricing_config empty_object_only "{}"
       DataManager.init = (Ok false, DataManager.init).
Proof.
  split.
  - apply import_pricing_config_rejects. left. reflexivity.
  - apply import_pricing_config_rejects. right.
    exists [], "Custom". split; [reflexivity|]. split; [|reflexivity].
    simpl. auto.
Defined.

(** An accepted document replaces the pricing data. *)
Lemma import_pricing_config_accepts
    (json_loads : string -> result json) (config_json : string) (w : world)
    (data : json) :
  json_loads config_json = Ok data ->
  DataManager._validate_pricing_structure data = Ok true ->
  exists w', DataManager.import_pricing_config json_loads config_json w
             = (Ok true, w')
             /\ pricing_data w' = data.
Proof.
  intros Hload Hvalid. unfold DataManager.import_pricing_config.
  rewrite Hload. unfold mbind, M_bind, lift. rewrite Hvalid. simpl.
  eexists. split; reflexivity.
Qed.

(** ** The period forecast *)

Lemma py_range_cons lo hi :
  (lo < hi)%Z -> py_range lo hi = lo :: py_range (lo + 1) hi.
Proof.
  intros H. unfold py_range.
  replace (Z.to_nat (hi - lo)) with (S (Z.to_nat (hi - (lo + 1)))) by lia.
  simpl. f_equal; [lia|].
  rewrite <- seq_shift, map_map. apply map_ext. intros i. lia.
Qed.

Lemma py_range_from_one months :
  py_range 1 (months + 1)
  = map (fun i => (1 + Z.of_nat i)%Z) (seq 0 (Z.to_nat months)).
Proof. unfold py_range. do 2 f_equal. lia. Qed.

Lemma seasonality_positive month : 0 < Forecaster._get_seasonality_factor month.
Proof.
  unfold Forecaster._get_seasonality_factor.
  pose proof (Z.mod_pos_bound (month - 1) 12 eq_refl) as Hi.
  set (i := ((month - 1) mod 12)%Z) in *.
  assert (Hcases : In i [0; 1; 2; 3; 4; 5; 6; 7; 8; 9; 10; 11]%Z)
    by (simpl; lia).
  simpl in Hcases.
  repeat (destruct Hcases as [<- | Hcases]; [by vm_compute|]).
  destruct Hcases.
Qed.

(** Month 13 is adjusted as month 1 is. *)
Lemma seasonality_wraps month :
  Forecaster._get_seasonality_factor (month + 12)
  = Forecaster._get_seasonality_factor month.
Proof.
  unfold Forecaster._get_seasonality_factor.
  replace (month + 12 - 1)%Z with (month - 1 + 1 * 12)%Z by lia.
  by rewrite Z.mod_add.
Qed.

Section Projection.
Variables (base_monthly_revenue base_monthly_cost base_customers : Q).
Variables (growth_rate retention_rate : Q).

Local Abbreviation step :=
  (Forecaster.month_step base_monthly_revenue base_monthly_cost base_customers
     growth_rate retention_rate).

Lemma month_step_zero_baseline s month :
  base_customers == 0 -> step s month = Raise ZeroDivisionError.
Proof.
  intros H. unfold Forecaster.month_step. simpl.
  by rewrite truediv_zero.
Qed.

(** With a baseline customer count other than zero a month never raises;
    this is the state and the row it gives. *)
Lemma month_step_nonzero_baseline s month :
  ~ base_customers == 0 ->
  let new_customers := Forecaster.current_customers s * growth_rate / 12 in
  let current :=
    Forecaster.current_customers s * retention_rate + new_customers in
  let factor := current / base_customers in
  let seasonality := Forecaster._get_seasonality_factor month in
  let revenue := base_monthly_revenue * factor in
  let cost := base_monthly_cost * factor in
  step s month
  = Ok {| Forecaster.current_customers := current;
          Forecaster.cumulative_revenue :=
            Forecaster.cumulative_revenue s + revenue;
          Forecaster.cumulative_cost := Forecaster.cumulative_cost s + cost;
          Forecaster.cumulative_profit :=
            Forecaster.cumulative_profit s + (revenue - cost);
          Forecaster.monthly_data := Forecaster.monthly_data s ++ [
            {| MonthRow.month := month;
               MonthRow.customers := py_int current;
               MonthRow.new_customers := py_int new_customers;
               MonthRow.monthly_revenue := revenue * seasonality;
               MonthRow.monthly_cost := cost * seasonality;
               MonthRow.monthly_profit :=
                 revenue * seasonality - cost * seasonality;
               MonthRow.cumulative_revenue :=
                 Forecaster.cumulative_revenue s + revenue;
               MonthRow.cumulative_cost :=
                 Forecaster.cumulative_cost s + cost;
               MonthRow.cumulative_profit :=
                 Forecaster.cumulative_profit s + (revenue - cost);
               MonthRow.profit_margin :=
                 if Qgtb (revenue * seasonality) 0
                 then (revenue * seasonality - cost * seasonality)
                      / (revenue * seasonality) * 100
                 else 0 |}] |}.
Proof.
  intros H. unfold Forecaster.month_step. simpl.
  by rewrite truediv_ok.
Qed.

Lemma month_loop_total months s :
  ~ base_customers == 0 ->
  exists s', for_each months s step = Ok s'.
Proof.
  intros H. revert s. induction months as [|month months IH]; intros s; simpl.
  - by eexists.
  - rewrite (month_step_nonzero_baseline s month H). apply IH.
Qed.

End Projection.

(** Without overrides the forecast is the projection of the baseline. *)
Lemma forecast_without_adjustments base_results scenario_params months w :
  Scenario.pricing_adjustments scenario_params = None ->
  Scenario.quantity_adjustments scenario_params = None ->
  Forecaster._calculate_period_forecast base_results scenario_params months w
  = (Forecaster.project
       (Totals.total_revenue (Results.totals base_results) / 3)
       (Totals.total_cost (Results.totals base_results) / 3)
       (Totals.total_customers (Results.totals base_results))
       scenario_params months, w).
Proof.
  intros Hp Hq. unfold Forecaster._calculate_period_forecast.
  by rewrite Hp, Hq.
Qed.

(** The forecast returns whenever the baseline has customers and the
    scenario carries no override, whatever the growth rate. *)
Lemma forecast_returns base_results scenario_params months w :
  Scenario.pricing_adjustments scenario_params = None ->
  Scenario.quantity_adjustments scenario_params = None ->
  ~ Totals.total_customers (Results.totals base_results) == 0 ->
  exists forecast,
    Forecaster._calculate_period_forecast base_results scenario_params months w
    = (Ok forecast, w).
Proof.
  intros Hp Hq Hn. rewrite forecast_without_adjustments by done.
  unfold Forecaster.project.
  edestruct month_loop_total as [s' ->]; [exact Hn|].
  by eexists.
Qed.

(** C2. With a zero baseline customer count the forecast raises
    [ZeroDivisionError] in its first month, for every scenario without
    overrides and every horizon of at least one month: the growth factor
    divides by the baseline count, which only the customer-growth figure of
    the summary guards. *)
Theorem forecast_zero_baseline_raises
    (base_results : Results.t) (scenario_params : Scenario.t) (months : Z)
    (w : world) :
  Totals.total_customers (Results.totals base_results) == 0 ->
  (1 <= months)%Z ->
  Scenario.pricing_adjustments scenario_params = None ->
  Scenario.quantity_adjustments scenario_params = None ->
  Forecaster._calculate_period_forecast base_results scenario_params months w
  = (Raise ZeroDivisionError, w).
Proof.
  intros Hzero Hmonths Hp Hq. rewrite forecast_without_adjustments by done.
  unfold Forecaster.project. rewrite py_range_cons by lia. simpl.
  by rewrite month_step_zero_baseline.
Qed.

Lemma forecast_zero_baseline_raises_witness :
  exists base_results w,
    RevenueCalculator.calculate_comprehensive_results no_customers
    = (Ok base_results, w)
    /\ Forecaster._calculate_period_forecast base_results (plain 0.15 0.9) 12 w
       = (Raise ZeroDivisionError, w).
Proof.
  assert (Hbase : exists base_results w,
    RevenueCalculator.calculate_comprehensive_results no_customers
    = (Ok base_results, w)
    /\ Totals.total_customers (Results.totals base_results) == 0)
    by (do 2 eexists; split; by vm_compute).
  destruct Hbase as (base_results & w & Hrun & Hzero).
  exists base_results, w. split; [exact Hrun|].
  apply forecast_zero_baseline_raises; [exact Hzero | lia | reflexivity..].
Defined.

Lemma seasonality_month_1 : Forecaster._get_seasonality_factor 1 = 0.9.
Proof. reflexivity. Qed.



(** *** Invariants of the monthly loop *)

Section LoopInvariant.
Variables (base_monthly_revenue base_monthly_cost base_customers : Q).
Variables (growth_rate retention_rate : Q).

Local Abbreviation step :=
  (Forecaster.month_step base_monthly_revenue base_monthly_cost base_customers
     growth_rate retention_rate).

Lemma month_step_inv s month s' :
  step s month = Ok s' ->
  ~ base_customers == 0
  /\ step s month = Ok s'.
Proof.
  intros H. split; [|done]. intros Hzero.
  rewrite month_step_zero_baseline in H; done.
Qed.

(** An invariant indexed by the number of months done holds at the end. *)
Lemma month_loop_invariant (I : nat -> Forecaster.loop_state -> Prop) n :
  (forall j s s',
      I j s -> step s (1 + Z.of_nat j)%Z = Ok s' -> I (S j) s') ->
  forall k s s',
    I k s ->
    for_each (map (fun i => (1 + Z.of_nat i)%Z) (seq k n)) s step = Ok s' ->
    I (k + n)%nat s'.
Proof.
  intros Hstep. induction n as [|n IH]; intros k s s' Hk Hrun; simpl in Hrun.
  - injection Hrun as <-. by rewrite Nat.add_0_r.
  - destruct (step s (1 + Z.of_nat k)%Z) as [s1|e] eqn:Hs; [|done].
    simpl in Hrun. rewrite <- Nat.add_succ_comm.
    eapply IH; [|exact Hrun]. eapply Hstep; eauto.
Qed.

Lemma customers_invariant_step j s s' :
  customers_invariant base_customers growth_rate retention_rate j s ->
  step s (1 + Z.of_nat j)%Z = Ok s' ->
  customers_invariant base_customers growth_rate retention_rate (S j) s'.
Proof.
  intros (Hc & Hlen & Hrows) Hs.
  apply month_step_inv in Hs as [Hn Hs].
  rewrite month_step_nonzero_baseline in Hs by done.
  injection Hs as <-. unfold customers_invariant. simpl. rewrite Hc.
  split; [done|]. split; [rewrite length_app; simpl; lia|].
  intros m row Hm.
  apply lookup_app_Some in Hm as [Hm | [Hge Hm]]; [by apply Hrows|].
  rewrite Hlen in Hge, Hm.
  destruct (m - j)%nat as [|?] eqn:Hmj; simpl in Hm; [|done].
  assert (m = j) as -> by lia.
  injection Hm as <-. simpl. split_conj; [lia | reflexivity..].
Qed.

Lemma before_seasonality_snoc f rows row :
  before_seasonality f (rows ++ [row])
  == before_seasonality f rows
     + f row / Forecaster._get_seasonality_factor (MonthRow.month row).
Proof.
  induction rows as [|r rows IH]; simpl.
  - reflexivity.
  - rewrite IH. ring.
Qed.

Lemma cumulative_invariant_step month s s' :
  cumulative_invariant s ->
  step s month = Ok s' ->
  cumulative_invariant s'.
Proof.
  intros (Hr & Hc & Hp & Hprc & Hrows) Hs.
  apply month_step_inv in Hs as [Hn Hs].
  rewrite month_step_nonzero_baseline in Hs by done.
  injection Hs as <-. unfold cumulative_invariant. simpl.
  pose proof (seasonality_positive month) as Hpos.
  set (factor :=
    (Forecaster.current_customers s * retention_rate
     + Forecaster.current_customers s * growth_rate / 12) / base_customers)
    in *.
  set (season := Forecaster._get_seasonality_factor month) in *.
  assert (Hrev : Forecaster.cumulative_revenue s + base_monthly_revenue * factor
                 == before_seasonality MonthRow.monthly_revenue
                      (Forecaster.monthly_data s)
                    + base_monthly_revenue * factor * season / season).
  { rewrite Hr. field. lra. }
  assert (Hcost : Forecaster.cumulative_cost s + base_monthly_cost * factor
                  == before_seasonality MonthRow.monthly_cost
                       (Forecaster.monthly_data s)
                     + base_monthly_cost * factor * season / season).
  { rewrite Hc. field. lra. }
  assert (Hprofit :
    Forecaster.cumulative_profit s
    + (base_monthly_revenue * factor - base_monthly_cost * factor)
    == before_seasonality MonthRow.monthly_profit (Forecaster.monthly_data s)
       + (base_monthly_revenue * factor * season
          - base_monthly_cost * factor * season) / season).
  { rewrite Hp. field. lra. }
  split; [by rewrite before_seasonality_snoc|].
  split; [by rewrite before_seasonality_snoc|].
  split; [by rewrite before_seasonality_snoc|].
  split; [rewrite Hprc; ring|].
  intros m row Hm.
  apply lookup_app_Some in Hm as [Hm | [Hge Hm]].
  - rewrite take_app_le by (apply lookup_lt_Some in Hm; lia).
    by apply Hrows.
  - destruct (m - length (Forecaster.monthly_data s))%nat eqn:E;
      simpl in Hm; [|done].
    injection Hm as <-. simpl.
    rewrite take_ge by (rewrite length_app; simpl; lia).
    by rewrite !before_seasonality_snoc.
Qed.

Lemma margin_invariant_step month s s' :
  margin_invariant s ->
  step s month = Ok s' ->
  margin_invariant s'.
Proof.
  intros Hrows Hs.
  apply month_step_inv in Hs as [Hn Hs].
  rewrite month_step_nonzero_baseline in Hs by done.
  injection Hs as <-. unfold margin_invariant. simpl. intros row Hin.
  apply in_app_or in Hin as [Hin | [<- | []]]; [by apply Hrows|].
  by simpl.
Qed.

End LoopInvariant.

Lemma forecast_is_projection base_results scenario_params months w forecast w' :
  Forecaster._calculate_period_forecast base_results scenario_params months w
  = (Ok forecast, w') ->
  exists base_monthly_revenue base_monthly_cost,
    Forecaster.project base_monthly_revenue base_monthly_cost
      (Totals.total_customers (Results.totals base_results))
      scenario_params months = Ok forecast.
Proof.
  unfold Forecaster._calculate_period_forecast.
  unfold mbind at 1, M_bind.
  match goal with |- context [match ?m w with _ => _ end] =>
    destruct (m w) as [[source|e] w1] end; [|done].
  simpl. unfold lift. intros H. injection H as H _. eauto.
Qed.

Lemma project_inv base_monthly_revenue base_monthly_cost base_customers
    scenario_params months forecast :
  Forecaster.project base_monthly_revenue base_monthly_cost base_customers
    scenario_params months = Ok forecast ->
  exists s,
    for_each (map (fun i => (1 + Z.of_nat i)%Z) (seq 0 (Z.to_nat months)))
      {| Forecaster.current_customers := base_customers;
         Forecaster.cumulative_revenue := 0;
         Forecaster.cumulative_cost := 0;
         Forecaster.cumulative_profit := 0;
         Forecaster.monthly_data := [] |}
      (Forecaster.month_step base_monthly_revenue base_monthly_cost
         base_customers (Scenario.growth_rate scenario_params)
         (Scenario.retention_rate scenario_params)) = Ok s
    /\ Forecast.monthly_breakdown forecast = Forecaster.monthly_data s
    /\ PeriodTotals.final_customers (Forecast.period_totals forecast)
       = py_int (Forecaster.current_customers s)
    /\ PeriodTotals.total_revenue (Forecast.period_totals forecast)
       = Forecaster.cumulative_revenue s
    /\ PeriodTotals.total_cost (Forecast.period_totals forecast)
       = Forecaster.cumulative_cost s
    /\ PeriodTotals.total_profit (Forecast.period_totals forecast)
       = Forecaster.cumulative_profit s
    /\ PeriodTotals.profit_margin (Forecast.period_totals forecast)
       = if Qgtb (Forecaster.cumulative_revenue s) 0
         then Forecaster.cumulative_profit s / Forecaster.cumulative_revenue s
              * 100
         else 0.
Proof.
  unfold Forecaster.project. rewrite py_range_from_one.
  unfold mbind, result_bind.
  match goal with |- context [match ?r with _ => _ end] =>
    destruct r as [s|e] end; [|done].
  intros H. injection H as <-. exists s. by split_conj.
Qed.



(** The recorded integers do not satisfy the recursion themselves: under
    zero growth and 90% retention from 10 customers, months 5 and 6 both
    record 5 customers, while 5 x 0.9 truncates to 4. *)
Lemma recorded_customers_break_recurrence :
  exists forecast row5 row6,
    Forecaster._calculate_period_forecast (baseline 300000 200000 10)
      (plain 0 0.9) 6 DataManager.init = (Ok forecast, DataManager.init)
    /\ Forecast.monthly_breakdown forecast !! 4%nat = Some row5
    /\ Forecast.monthly_breakdown forecast !! 5%nat = Some row6
    /\ MonthRow.customers row5 = 5%Z
    /\ MonthRow.customers row6 = 5%Z
    /\ py_int (inject_Z (MonthRow.customers row5) * 0.9
               + inject_Z (MonthRow.customers row5) * 0 / 12) = 4%Z.
Proof. do 3 eexists. split_conj; by vm_compute. Qed.

(** What the loop does accumulate: in every forecast the cumulative figures
    of a row are the running sums, over the rows up to it, of the monthly
    figures divided by their seasonality factor, and the period totals are
    the sums over all rows. *)
Lemma cumulative_sums_before_seasonality
    base_results scenario_params months w w' forecast :
  Forecaster._calculate_period_forecast base_results scenario_params months w
  = (Ok forecast, w') ->
  let rows := Forecast.monthly_breakdown forecast in
  (forall m row,
      rows !! m = Some row ->
      MonthRow.cumulative_revenue row
      == before_seasonality MonthRow.monthly_revenue (take (S m) rows)
      /\ MonthRow.cumulative_cost row
         == before_seasonality MonthRow.monthly_cost (take (S m) rows)
      /\ MonthRow.cumulative_profit row
         == before_seasonality MonthRow.monthly_profit (take (S m) rows))
  /\ PeriodTotals.total_revenue (Forecast.period_totals forecast)
     == before_seasonality MonthRow.monthly_revenue rows
  /\ PeriodTotals.total_cost (Forecast.period_totals forecast)
     == before_seasonality MonthRow.monthly_cost rows
  /\ PeriodTotals.total_profit (Forecast.period_totals forecast)
     == before_seasonality MonthRow.monthly_profit rows.
Proof.
  intros Hrun rows. subst rows.
  apply forecast_is_projection in Hrun as (bmr & bmc & Hrun).
  apply project_inv in Hrun as (s & Hloop & -> & _ & -> & -> & -> & _).
  eapply (month_loop_invariant _ _ _ _ _ (fun _ => cumulative_invariant))
    in Hloop.
  - destruct Hloop as (Hr & Hc & Hp & _ & Hrows). by split_conj.
  - intros j s0 s1. apply cumulative_invariant_step.
  - by split_conj.
Qed.

(** C1. The cumulative figures are not the running sums of the recorded
    monthly figures: the loop adds the month to the cumulative figures
    before it applies the seasonality factor to the figures it records.
    For a baseline of revenue 300000 and cost 200000 with 10 customers, zero
    growth, full retention and one month, the row records a monthly revenue
    of 90000 and a cumulative revenue of 100000, a monthly cost of 60000 and
    a cumulative cost of 200000/3, a monthly profit of 30000 and a cumulative
    profit of 100000/3. *)
Theorem cumulative_differs_from_recorded_months :
  exists forecast row,
    Forecaster._calculate_period_forecast (baseline 300000 200000 10)
      (plain 0 1) 1 DataManager.init = (Ok forecast, DataManager.init)
    /\ Forecast.monthly_breakdown forecast = [row]
    /\ MonthRow.monthly_revenue row == 90000
    /\ MonthRow.cumulative_revenue row == 100000
    /\ MonthRow.monthly_cost row == 60000
    /\ MonthRow.cumulative_cost row == 200000 / 3
    /\ MonthRow.monthly_profit row == 30000
    /\ MonthRow.cumulative_profit row == 100000 / 3
    /\ PeriodTotals.total_revenue (Forecast.period_totals forecast) == 100000
    /\ ~ MonthRow.cumulative_revenue row == MonthRow.monthly_revenue row.
Proof. do 2 eexists. split_conj; by vm_compute. Qed.

(** Over two months the same baseline records 90000 and 95000, and a
    cumulative revenue of 200000 in the second row. *)
Lemma cumulative_differs_over_two_months :
  exists forecast row1 row2,
    Forecaster._calculate_period_forecast (baseline 300000 200000 10)
      (plain 0 1) 2 DataManager.init = (Ok forecast, DataManager.init)
    /\ Forecast.monthly_breakdown forecast = [row1; row2]
    /\ MonthRow.monthly_revenue row1 == 90000
    /\ MonthRow.monthly_revenue row2 == 95000
    /\ MonthRow.cumulative_revenue row2 == 200000.
Proof. do 3 eexists. split_conj; by vm_compute. Qed.

(** ** Profit margins *)

Lemma totals_margin subscription_results additional_results :
  let t :=
    RevenueCalculator._calculate_totals subscription_results additional_results in
  Totals.total_profit t = Totals.total_revenue t - Totals.total_cost t
  /\ Totals.profit_margin t
     = if Qgtb (Totals.total_revenue t) 0
       then (Totals.total_revenue t - Totals.total_cost t)
            / Totals.total_revenue t * 100
       else 0.
Proof.
  unfold RevenueCalculator._calculate_totals.
  destruct (fold_left _ (map snd subscription_results) _) as [[c r] n].
  destruct (fold_left _ (map snd additional_results) _) as [c' r'].
  by simpl.
Qed.

(** The totals: the formula on a positive revenue, exactly 0 otherwise. *)
Lemma totals_margin_cases subscription_results additional_results :
  let t :=
    RevenueCalculator._calculate_totals subscription_results additional_results in
  (0 < Totals.total_revenue t ->
   Totals.profit_margin t
   = (Totals.total_revenue t - Totals.total_cost t) / Totals.total_revenue t
     * 100)
  /\ (Totals.total_revenue t <= 0 -> Totals.profit_margin t = 0).
Proof.
  intros t. destruct (totals_margin subscription_results additional_results)
    as [_ Hm]. fold t in Hm. rewrite Hm.
  split; intros H.
  - by apply Qgtb_true in H as ->.
  - by apply Qgtb_false in H as ->.
Qed.

(** The forecast: every monthly row and the period summary take the formula
    on a positive revenue and exactly 0 otherwise. *)
Lemma forecast_margin_cases
    base_results scenario_params months w w' forecast :
  Forecaster._calculate_period_forecast base_results scenario_params months w
  = (Ok forecast, w') ->
  (forall row,
      In row (Forecast.monthly_breakdown forecast) ->
      (0 < MonthRow.monthly_revenue row ->
       MonthRow.profit_margin row
       = (MonthRow.monthly_revenue row - MonthRow.monthly_cost row)
         / MonthRow.monthly_revenue row * 100)
      /\ (MonthRow.monthly_revenue row <= 0 -> MonthRow.profit_margin row = 0))
  /\ let p := Forecast.period_totals forecast in
     (0 < PeriodTotals.total_revenue p ->
      PeriodTotals.profit_margin p
      == (PeriodTotals.total_revenue p - PeriodTotals.total_cost p)
         / PeriodTotals.total_revenue p * 100)
     /\ (PeriodTotals.total_revenue p <= 0 -> PeriodTotals.profit_margin p = 0).
Proof.
  intros Hrun. cbv zeta.
  apply forecast_is_projection in Hrun as (bmr & bmc & Hrun).
  apply project_inv in Hrun as (s & Hloop & -> & _ & -> & -> & _ & ->).
  pose proof Hloop as Hloop'.
  eapply (month_loop_invariant _ _ _ _ _ (fun _ => margin_invariant)) in Hloop;
    [| intros j s0 s1; apply margin_invariant_step | by intros row []].
  eapply (month_loop_invariant _ _ _ _ _ (fun _ => cumulative_invariant))
    in Hloop';
    [| intros j s0 s1; apply cumulative_invariant_step | by split_conj].
  split.
  - intros row Hin. destruct (Hloop row Hin) as [Hp ->]. rewrite Hp.
    split; intros H.
    + by apply Qgtb_true in H as ->.
    + by apply Qgtb_false in H as ->.
  - destruct Hloop' as (_ & _ & _ & Hprofit & _). simpl. split; intros H.
    + apply Qgtb_true in H as ->. by rewrite Hprofit.
    + by apply Qgtb_false in H as ->.
Qed.

(** A subscription row: the formula when the revenue without the renewals
    is positive, exactly 0 otherwise, whatever the renewals bring. *)
Lemma subscription_row_margin combo customers renewals w row w' :
  RevenueCalculator.subscription_row combo customers renewals w = (Ok row, w') ->
  let package_revenue := SubRow.revenue_per_customer row * customers in
  SubRow.total_revenue row = package_revenue + SubRow.renewal_revenue row
  /\ SubRow.total_profit row = SubRow.total_revenue row - SubRow.total_cost row
  /\ (0 < package_revenue ->
      SubRow.profit_margin row
      = (SubRow.total_revenue row - SubRow.total_cost row)
        / SubRow.total_revenue row * 100)
  /\ (package_revenue <= 0 -> SubRow.profit_margin row = 0).
Proof.
  unfold RevenueCalculator.subscription_row, mbind, M_bind.
  destruct (DataManager.calculate_package_cost _ _ w) as [[p|e] w1]; [|done].
  unfold lift.
  destruct (Qgtb (Package.revenue p * customers) 0) eqn:Hpos.
  - unfold truediv.
    destruct (Qeq_bool _ 0); simpl; [done|].
    intros H. injection H as <- _. simpl. split_conj; try done.
    apply Qgtb_true in Hpos. intros Hle. lra.
  - intros H. injection H as <- _. simpl. split_conj; try done.
    apply Qgtb_false in Hpos. intros Hlt. lra.
Qed.

(** C5. A subscription row guards its margin on the revenue without the
    renewals and divides by the revenue with them.  With the one-month
    Custom package given away, 30 customers and 25 renewals, the row has a
    revenue of 37500 and a cost of 36000, so a margin of 4 by the formula;
    the row records 0. *)
Theorem subscription_margin_ignores_renewals :
  exists results w' row,
    RevenueCalculator.calculate_comprehensive_results
      (with_pricing free_custom_month DataManager.init) = (Ok results, w')
    /\ dget (Results.subscriptions results) "Custom - 1 Month" = Some row
    /\ SubRow.total_revenue row == 37500
    /\ SubRow.total_cost row == 36000
    /\ (SubRow.total_revenue row - SubRow.total_cost row)
       / SubRow.total_revenue row * 100 == 4
    /\ SubRow.profit_margin row == 0.
Proof. do 3 eexists. split_conj; by vm_compute. Qed.

(** ** Scenario application and the state it leaves *)

Lemma json_copy_same v v' : Forecaster.json_copy v = Ok v' -> v' = v.
Proof. destruct v; simpl; intros H; by inversion H. Qed.

Lemma adjust_first_keeps_heap original_pricing pricing_adjustments
    adjusted_results sub_types w :
  heap (Forecaster.adjust_first original_pricing pricing_adjustments
          adjusted_results sub_types w).2 = heap w.
Proof.
  induction sub_types as [|sub_type rest IH]; simpl; [done|].
  unfold mbind at 1, M_bind, lift at 1.
  destruct (json_contains original_pricing sub_type) as [[|]|e]; simpl;
    [|exact IH|done].
  unfold mbind at 1, M_bind, lift at 1.
  destruct (Forecaster.json_copy original_pricing) as [copy|e]; simpl; [|done].
  unfold mbind at 1, M_bind, lift at 1.
  destruct (Forecaster.json_setitem copy sub_type pricing_adjustments)
    as [modified|e]; simpl; [|done].
  unfold mbind at 1, M_bind, set_pricing.
  match goal with |- context [RevenueCalculator.calculate_comprehensive_results ?w0] =>
    destruct (keeps_catalog_comprehensive_results w0) as (Hh & _) end.
  by rewrite Hh.
Qed.

(** On a normal return [_apply_pricing_adjustments] has put the pricing
    data and the inputs back, and has touched no nested object. *)
Lemma apply_pricing_adjustments_restores
    base_results pricing_adjustments quantity_adjustments w results w' :
  Forecaster._apply_pricing_adjustments base_results pricing_adjustments
    quantity_adjustments w = (Ok results, w') ->
  same_catalog w w'.
Proof.
  unfold Forecaster._apply_pricing_adjustments.
  unfold mbind at 1, M_bind, get_pricing.
  unfold mbind at 1, M_bind, lift at 1.
  destruct (Forecaster.json_copy (pricing_data w)) as [original|e] eqn:Hcopy;
    [|done].
  apply json_copy_same in Hcopy. subst original.
  unfold mbind at 1, M_bind, get_inputs.
  unfold mbind at 1, M_bind.
  match goal with |- context [match ?m w with _ => _ end] =>
    destruct (m w) as [[[]|e] w1] eqn:Hswap end; [|done].
  assert (Hheap1 : heap w1 = heap w).
  { destruct (Forecaster.truthy quantity_adjustments);
      unfold mbind, M_bind, set_inputs, get_session, set_session in Hswap;
      simpl in Hswap; by inversion Hswap. }
  unfold mbind at 1, M_bind.
  pose proof (adjust_first_keeps_heap (pricing_data w) pricing_adjustments
                base_results ["VIP"; "Normal"; "Custom"] w1) as Hheap2.
  destruct (Forecaster.adjust_first _ _ _ _ w1) as [[adjusted|e] w2]; [|done].
  simpl in Hheap2. unfold mbind, M_bind, set_pricing, set_inputs,
    shallow_copy. simpl.
  intros H. injection H as _ <-. unfold same_catalog. simpl.
  split_conj; congruence.
Qed.

(** C3. Neither scenario application restores the state on every path.
    [calculate_scenario_analysis] copies the inputs one level deep and
    writes the scaled counts into the nested objects the copy shares with
    the original: after doubling the customers, the live one-month VIP entry
    holds 60 customers where it held 30, although the call returned and put
    the top-level dictionary back.  [_apply_pricing_adjustments] has no
    handler: an empty pricing override makes the recalculation raise
    [KeyError], and the VIP tier of the live pricing data stays replaced. *)
Theorem scenario_application_leaves_state_changed :
  (exists scenario_results w',
      RevenueCalculator.calculate_scenario_analysis
        [("double", {| Multipliers.customer_multiplier := Some 2;
                       Multipliers.renewal_multiplier := None |})]
        DataManager.init = (Ok scenario_results, w')
      /\ inputs w' = inputs DataManager.init
      /\ dget (inputs w') "VIP_1_month" = Some (IRef 1%positive)
      /\ heap DataManager.init !! 1%positive
         = Some [("customers", 30); ("renewals", 10)]
      /\ heap w' !! 1%positive
         = Some [("customers", inject_Z 60); ("renewals", inject_Z 10)])
  /\ (exists w',
        Forecaster._apply_pricing_adjustments (baseline 0 0 0) (JDict []) None
          DataManager.init = (Raise (KeyError "bracelet"), w')
        /\ json_subscript (pricing_data w') "VIP" = Ok (JDict [])
        /\ pricing_data w' <> pricing_data DataManager.init).
Proof.
  split.
  - do 2 eexists. split_conj; by vm_compute.
  - eexists. split; [by vm_compute|]. split; [by vm_compute|].
    vm_compute. discriminate.
Qed.

(** The same through the forecast: a scenario carrying quantity overrides
    only takes the empty pricing override, and the forecast raises with the
    live inputs replaced by the overrides. *)
Lemma forecast_with_quantities_only_raises :
  let overrides := [("additional_bracelets", INum 7)] in
  exists w',
    Forecaster._calculate_period_forecast (baseline 300000 200000 10)
      {| Scenario.growth_rate := 0.15; Scenario.retention_rate := 0.9;
         Scenario.pricing_adjustments := None;
         Scenario.quantity_adjustments := Some overrides |}
      3 DataManager.init = (Raise (KeyError "bracelet"), w')
    /\ inputs w' = overrides.
Proof. eexists. split; by vm_compute. Qed.

(** ** Break-even analysis *)

(** C7. With no customer in any subscription the break-even analysis of the
    default scenarios raises [ZeroDivisionError]: the profit per customer is
    0, the break-even count is the infinite float, and its quotient by the
    current count of 0 is taken before any sentinel is chosen. *)
Theorem break_even_raises_without_customers (ln : Q -> Q) :
  exists results w',
    RevenueCalculator.calculate_comprehensive_results no_customers
    = (Ok results, w')
    /\ Totals.total_customers (Results.totals results) == 0
    /\ Totals.profit_per_customer (Results.totals results) == 0
    /\ (Forecaster.calculate_break_even_analysis ln
          AppConfig.GROWTH_SCENARIOS 0 no_customers).1
       = Raise ZeroDivisionError.
Proof. do 2 eexists. split_conj; by vm_compute. Qed.

Section BreakEvenEntry.
Variable ln : Q -> Q.
Variables (totals : Totals.t) (fixed_costs : Q) (scenario_params : Scenario.t).

Local Abbreviation avg := (Totals.profit_per_customer totals).
Local Abbreviation current := (Totals.total_customers totals).
Local Abbreviation rate := (Scenario.growth_rate scenario_params / 12).
Local Abbreviation entry :=
  (Forecaster.break_even_entry ln totals fixed_costs scenario_params).

(** An entry raises exactly when growth is positive, the target is above a
    current count of zero, and so the quotient is taken. *)
Lemma break_even_entry_raises :
  0 < rate -> current == 0 -> (avg <= 0 \/ 0 < fixed_costs / avg) ->
  entry = Raise ZeroDivisionError.
Proof.
  intros Hrate Hcur Havg. unfold Forecaster.break_even_entry. simpl.
  apply Qgtb_true in Hrate as ->. simpl.
  destruct Havg as [Havg | Hbe].
  - apply Qgtb_false in Havg as ->. simpl.
    unfold Forecaster.float_div. by apply Qeq_bool_iff in Hcur as ->.
  - destruct (Qgtb avg 0); simpl.
    + assert (Hgt : Qgtb (fixed_costs / avg) current = true)
        by (apply Qgtb_true; lra).
      rewrite Hgt. simpl.
      unfold Forecaster.float_div. by apply Qeq_bool_iff in Hcur as ->.
    + unfold Forecaster.float_div. by apply Qeq_bool_iff in Hcur as ->.
Qed.

(** When the profit per customer is not positive, an entry that is returned
    reports the sentinel for the break-even count, and never a month count
    that is the infinite float. *)
Lemma break_even_undefined_sentinel e :
  avg <= 0 -> entry = Ok e ->
  BreakEven.break_even_customers e = NA
  /\ BreakEven.months_to_break_even e <> Months PInf.
Proof.
  intros Havg. unfold Forecaster.break_even_entry. simpl.
  apply Qgtb_false in Havg as ->. simpl.
  destruct (_ && _).
  - destruct (Forecaster.float_div PInf current) as [ratio|]; simpl; [|done].
    intros H. injection H as <-. simpl. split; [done|].
    by destruct (Forecaster.np_div _ _).
  - simpl. intros H. injection H as <-. simpl. split; [done|].
    by destruct (Forecaster.ge_float current PInf).
Qed.

(** The closed form: positive growth and a finite target above a positive
    current count. *)
Lemma break_even_closed_form :
  0 < avg -> 0 < rate -> 0 < current -> current < fixed_costs / avg ->
  0 < ln (1 + rate) ->
  exists e,
    entry = Ok e
    /\ BreakEven.break_even_customers e = Count (py_int (fixed_costs / avg))
    /\ BreakEven.months_to_break_even e
       = Months (Fin (ln (fixed_costs / avg / current) / ln (1 + rate))).
Proof.
  intros Havg Hrate Hcur Hbe Hln. unfold Forecaster.break_even_entry. simpl.
  apply Qgtb_true in Havg as ->. apply Qgtb_true in Hrate as Hr. rewrite Hr.
  apply Qgtb_true in Hbe as Hb. simpl. rewrite Hb. simpl.
  unfold Forecaster.float_div.
  assert (Hne : Qeq_bool current 0 = false) by (apply Qeq_bool_false; lra).
  rewrite Hne. simpl.
  assert (Hratio : Qgtb (fixed_costs / avg / current) 0 = true).
  { apply Qgtb_true. apply Qlt_shift_div_l; lra. }
  rewrite Hratio.
  assert (Hone : Qgtb (1 + rate) 0 = true) by (apply Qgtb_true; lra).
  rewrite Hone. simpl.
  assert (Hlnz : Qeq_bool (ln (1 + rate)) 0 = false)
    by (apply Qeq_bool_false; lra).
  rewrite Hlnz. simpl. eexists. split_conj; reflexivity.
Qed.

(** Otherwise: 0 months when the current count has reached the target, the
    sentinel when it has not. *)
Lemma break_even_without_growth e :
  rate <= 0 \/ (0 < avg /\ fixed_costs / avg <= current) ->
  entry = Ok e ->
  (0 < avg /\ fixed_costs / avg <= current ->
   BreakEven.months_to_break_even e = Months (Fin 0))
  /\ (avg <= 0 \/ current < fixed_costs / avg ->
      BreakEven.months_to_break_even e = Never).
Proof.
  intros Hcase. unfold Forecaster.break_even_entry. simpl.
  assert (Hcond :
    Qgtb rate 0
    && Forecaster.float_gt
         (if Qgtb avg 0 then Fin (fixed_costs / avg) else PInf) current
    = false).
  { destruct Hcase as [Hrate | [Havg Hbe]].
    - by apply Qgtb_false in Hrate as ->.
    - apply Qgtb_true in Havg as ->. simpl.
      apply Qgtb_false in Hbe as ->. apply andb_false_r. }
  rewrite Hcond. simpl.
  destruct (Qgtb avg 0) eqn:Havg; simpl; intros H; injection H as <-; simpl.
  - apply Qgtb_true in Havg. unfold Qgeb. split.
    + intros [_ Hbe]. by apply Qle_bool_iff in Hbe as ->.
    + intros [Hneg | Hlt]; [lra|].
      destruct (Qle_bool (fixed_costs / avg) current) eqn:E; [|done].
      apply Qle_bool_iff in E. lra.
  - apply Qgtb_false in Havg. split; [intros [? _]; lra | done].
Qed.

End BreakEvenEntry.

(** ** Subscription rows *)

Lemma input_key_is_key combo :
  In combo DataManager.get_subscription_combinations ->
  input_key combo = Combo.key combo.
Proof.
  intros H. vm_compute in H.
  repeat (destruct H as [<- | H]; [reflexivity|]). destruct H.
Qed.

Lemma count_of_fields key w c :
  (RevenueCalculator.count_of key "customers" w).1 = Ok c ->
  exists r, RevenueCalculator.count_of key "renewals" w = (Ok r, w).
Proof.
  unfold RevenueCalculator.count_of, mbind, M_bind, get_inputs.
  destruct (dget (inputs w) key) as [[q|l]|]; simpl; try done; [|by eexists].
  unfold deref. destruct (heap w !! l); simpl; [by eexists | done].
Qed.

Lemma subscription_row_customers combo customers renewals w row w' :
  RevenueCalculator.subscription_row combo customers renewals w = (Ok row, w') ->
  SubRow.customers row = customers.
Proof.
  unfold RevenueCalculator.subscription_row, mbind, M_bind.
  destruct (DataManager.calculate_package_cost _ _ w) as [[p|e] w1]; [|done].
  unfold lift. match goal with |- context [match ?r with _ => _ end] =>
    destruct r as [m|e] end; [|done].
  simpl. intros H. by injection H as <- _.
Qed.

Lemma subscription_step_inv acc combo w acc' w' :
  RevenueCalculator.subscription_step acc combo w = (Ok acc', w') ->
  w' = w
  /\ exists c,
       customers_of w combo = Ok c
       /\ ((c <= 0 /\ acc' = acc)
           \/ (0 < c
               /\ exists row,
                    acc' = dset acc (Combo.display_name combo) row
                    /\ SubRow.customers row = c)).
Proof.
  intros H. split.
  { pose proof (read_only_subscription_step acc combo w) as Hro.
    by rewrite H in Hro. }
  revert H. unfold RevenueCalculator.subscription_step, customers_of.
  fold (input_key combo). unfold mbind at 1, M_bind.
  pose proof (read_only_count_of (input_key combo) "customers" w) as Hc.
  destruct (RevenueCalculator.count_of (input_key combo) "customers" w)
    as [[c|e] w1]; [|done]. simpl in Hc. subst w1.
  unfold mbind at 1, M_bind.
  pose proof (read_only_count_of (input_key combo) "renewals" w) as Hr.
  destruct (RevenueCalculator.count_of (input_key combo) "renewals" w)
    as [[r|e] w1]; [|done]. simpl in Hr. subst w1.
  exists c. split; [done|].
  destruct (Qgtb c 0) eqn:Hpos.
  - right. apply Qgtb_true in Hpos. split; [done|].
    unfold mbind, M_bind in H.
    destruct (RevenueCalculator.subscription_row combo c r w)
      as [[row|e] w1] eqn:Hrow; [|done].
    injection H as <- _. exists row. split; [done|].
    by eapply subscription_row_customers.
  - left. apply Qgtb_false in Hpos. by injection H as <- _.
Qed.

(** A combination without customers passes through the loop body with no
    error and no row, whatever the pricing data. *)
Lemma subscription_step_skips acc combo w c :
  customers_of w combo = Ok c -> c <= 0 ->
  RevenueCalculator.subscription_step acc combo w = (Ok acc, w).
Proof.
  intros Hc Hle. unfold RevenueCalculator.subscription_step.
  fold (input_key combo). unfold customers_of in Hc.
  destruct (count_of_fields _ _ _ Hc) as [r Hr].
  pose proof (read_only_count_of (input_key combo) "customers" w) as Hro.
  destruct (RevenueCalculator.count_of (input_key combo) "customers" w)
    as [[c'|e] w1] eqn:E; simpl in Hc, Hro; [|done].
  injection Hc as ->. subst w1.
  unfold mbind, M_bind. rewrite E, Hr.
  by apply Qgtb_false in Hle as ->.
Qed.

Lemma subscription_loop_spec (l : list Combo.t) :
  NoDup (map Combo.display_name l) ->
  forall acc subs w w',
    for_each l acc RevenueCalculator.subscription_step w = (Ok subs, w') ->
    w' = w
    /\ (forall name, ~ In name (map Combo.display_name l) ->
                     dget subs name = dget acc name)
    /\ forall combo,
         In combo l ->
         exists c,
           customers_of w combo = Ok c
           /\ (c <= 0 ->
               dget subs (Combo.display_name combo)
               = dget acc (Combo.display_name combo))
           /\ (0 < c ->
               exists row,
                 dget subs (Combo.display_name combo) = Some row
                 /\ SubRow.customers row = c).
Proof.
  induction l as [|combo l IH]; intros Hnd acc subs w w' Hrun; simpl in Hrun.
  - injection Hrun as <- <-. by split_conj.
  - apply NoDup_cons in Hnd as [Hfresh Hnd]. simpl in Hfresh.
    unfold mbind, M_bind in Hrun.
    destruct (RevenueCalculator.subscription_step acc combo w)
      as [[acc1|e] w1] eqn:Hstep; [|done].
    apply subscription_step_inv in Hstep as (-> & c & Hc & Hcase).
    destruct (IH Hnd acc1 subs w w' Hrun) as (-> & Hother & Hin).
    split; [done|].
    assert (Hacc1 : forall name, name <> Combo.display_name combo ->
                                 dget acc1 name = dget acc name).
    { intros name Hne. destruct Hcase as [[_ ->] | (_ & row & -> & _)];
        [done|]. by rewrite dget_dset_ne. }
    split; [|intros combo' [<- | Hin']].
    + intros name Hname. simpl in Hname.
      rewrite Hother by tauto. apply Hacc1. intros ->. tauto.
    + exists c. split; [done|].
      rewrite (Hother (Combo.display_name combo))
        by (by rewrite <- list_elem_of_In).
      destruct Hcase as [[Hle ->] | (Hpos & row & -> & Hrow)].
      * split; [done | intros; lra].
      * split; [intros; lra|]. intros _. exists row.
        by rewrite dget_dset_eq.
    + destruct (Hin combo' Hin') as (c' & Hc' & Habsent & Hpresent).
      exists c'. split; [done|]. split; [|done].
      intros Hle. rewrite (Habsent Hle). apply Hacc1.
      intros Heq. apply Hfresh. rewrite list_elem_of_In, <- Heq.
      by apply in_map.
Qed.

(** Whenever the subscription results are returned, they hold exactly the
    combinations with a positive customer count. *)
Lemma subscription_results_spec w subs w' :
  RevenueCalculator._calculate_subscription_results w = (Ok subs, w') ->
  forall combo,
    In combo DataManager.get_subscription_combinations ->
    exists c,
      (RevenueCalculator.count_of (Combo.key combo) "customers" w).1 = Ok c
      /\ (c <= 0 -> dget subs (Combo.display_name combo) = None)
      /\ (0 < c ->
          exists row,
            dget subs (Combo.display_name combo) = Some row
            /\ SubRow.customers row = c).
Proof.
  intros Hrun combo Hin.
  apply subscription_loop_spec in Hrun as (_ & _ & Hall);
    [|by apply (bool_decide_unpack _); vm_compute].
  destruct (Hall combo Hin) as (c & Hc & Habsent & Hpresent).
  unfold customers_of in Hc. rewrite input_key_is_key in Hc by done.
  eauto.
Qed.

(** Inputs without any customer give the empty mapping and no error,
    whatever the pricing data. *)
Lemma no_customers_is_no_error w :
  (forall combo,
      In combo DataManager.get_subscription_combinations ->
      exists c,
        (RevenueCalculator.count_of (Combo.key combo) "customers" w).1 = Ok c
        /\ c <= 0) ->
  RevenueCalculator._calculate_subscription_results w = (Ok [], w).
Proof.
  intros Hnone. unfold RevenueCalculator._calculate_subscription_results.
  assert (Hloop : forall l,
    (forall combo, In combo l ->
                   In combo DataManager.get_subscription_combinations) ->
    for_each l [] RevenueCalculator.subscription_step w = (Ok [], w)).
  { induction l as [|combo l IH]; intros Hsub; simpl; [done|].
    destruct (Hnone combo) as (c & Hc & Hle); [apply Hsub; by left|].
    unfold mbind, M_bind.
    rewrite (subscription_step_skips [] combo w c); [|
      unfold customers_of; rewrite input_key_is_key;
        [done | apply Hsub; by left] | done].
    apply IH. intros combo' Hin. apply Hsub. by right. }
  by apply Hloop.
Qed.

(** A combination with customers gets its row when its tier is well shaped
    and its renewals are not negative. *)
Lemma subscription_row_returns combo customers renewals w d tier :
  pricing_data w = JDict d ->
  dget_default d (Combo.type combo) (JDict []) = JDict tier ->
  tier_ok tier = true ->
  0 <= renewals ->
  exists row,
    RevenueCalculator.subscription_row combo customers renewals w = (Ok row, w).
Proof.
  intros Hd Htier Hok Hren. unfold RevenueCalculator.subscription_row.
  unfold mbind at 1, M_bind.
  unfold DataManager.calculate_package_cost, get_pricing.
  unfold mbind at 1, M_bind. rewrite Hd. unfold lift at 1.
  rewrite (package_of_value d tier _ (Combo.duration combo) Htier Hok).
  cbv zeta. set (p := Package.mk _ _ _). unfold mbind at 1, M_bind, lift.
  destruct (Qgtb (Package.revenue p * customers) 0) eqn:Hpos.
  - apply Qgtb_true in Hpos. rewrite truediv_ok.
    + by eexists.
    + assert (0 <= renewals * RevenueCalculator.renewal_price
                                 (Combo.duration combo)).
      { apply Qmult_le_0_compat; [done|].
        unfold RevenueCalculator.renewal_price.
        by destruct (Combo.duration combo =? 1)%Z. }
      lra.
  - by eexists.
Qed.

Lemma subscription_step_returns acc combo w d tier c r :
  pricing_data w = JDict d ->
  dget_default d (Combo.type combo) (JDict []) = JDict tier ->
  tier_ok tier = true ->
  RevenueCalculator.count_of (input_key combo) "customers" w = (Ok c, w) ->
  RevenueCalculator.count_of (input_key combo) "renewals" w = (Ok r, w) ->
  0 <= r ->
  exists acc', RevenueCalculator.subscription_step acc combo w = (Ok acc', w).
Proof.
  intros Hd Htier Hok Hc Hr Hren. unfold RevenueCalculator.subscription_step.
  fold (input_key combo). unfold mbind at 1, M_bind. rewrite Hc.
  unfold mbind at 1, M_bind. rewrite Hr.
  destruct (Qgtb c 0); [|by eexists].
  destruct (subscription_row_returns combo c r w d tier) as [row Hrow];
    try done.
  unfold mbind, M_bind. rewrite Hrow. by eexists.
Qed.

(** C9. On a catalog whose tiers are well shaped, with inputs whose counts
    can be read and whose renewals are not negative, the subscription
    results are returned, with no error and the world unchanged; a
    combination whose customer count is 0 (or below) has no entry in them,
    and a combination with a positive count has one, with that count. *)
Theorem zero_customer_combinations_are_absent
    (w : world) (d : list (string * json)) :
  pricing_data w = JDict d ->
  (forall combo,
      In combo DataManager.get_subscription_combinations ->
      exists tier,
        dget_default d (Combo.type combo) (JDict []) = JDict tier
        /\ tier_ok tier = true) ->
  (forall combo,
      In combo DataManager.get_subscription_combinations ->
      exists c r,
        RevenueCalculator.count_of (Combo.key combo) "customers" w = (Ok c, w)
        /\ RevenueCalculator.count_of (Combo.key combo) "renewals" w
           = (Ok r, w)
        /\ 0 <= r) ->
  exists subs,
    RevenueCalculator._calculate_subscription_results w = (Ok subs, w)
    /\ forall combo,
         In combo DataManager.get_subscription_combinations ->
         exists c,
           (RevenueCalculator.count_of (Combo.key combo) "customers" w).1
           = Ok c
           /\ (c <= 0 -> dget subs (Combo.display_name combo) = None)
           /\ (0 < c ->
               exists row,
                 dget subs (Combo.display_name combo) = Some row
                 /\ SubRow.customers row = c).
Proof.
  intros Hd Htiers Hcounts.
  assert (Hloop : forall l acc,
    (forall combo, In combo l ->
                   In combo DataManager.get_subscription_combinations) ->
    exists subs,
      for_each l acc RevenueCalculator.subscription_step w = (Ok subs, w)).
  { induction l as [|combo l IH]; intros acc Hsub; simpl; [by eexists|].
    assert (Hin : In combo DataManager.get_subscription_combinations)
      by (apply Hsub; by left).
    destruct (Htiers combo Hin) as (tier & Htier & Hok).
    destruct (Hcounts combo Hin) as (c & r & Hc & Hr & Hren).
    rewrite <- (input_key_is_key combo Hin) in Hc, Hr.
    destruct (subscription_step_returns acc combo w d tier c r)
      as [acc' Hstep]; try done.
    unfold mbind, M_bind. rewrite Hstep.
    apply IH. intros combo' Hin'. apply Hsub. by right. }
  destruct (Hloop DataManager.get_subscription_combinations []) as [subs Hrun];
    [done|].
  exists subs. split; [exact Hrun|].
  by apply (subscription_results_spec w subs w).
Qed.

Lemma zero_customer_combinations_are_absent_witness :
  exists subs,
    RevenueCalculator._calculate_subscription_results no_custom_month
    = (Ok subs, no_custom_month)
    /\ dget subs "Custom - 1 Month" = None
    /\ exists row, dget subs "VIP - 1 Month" = Some row
                   /\ SubRow.customers row = 30.
Proof.
  destruct (zero_customer_combinations_are_absent no_custom_month _ eq_refl)
    as (subs & Hrun & Hrows).
  - intros combo Hin. vm_compute in Hin.
    repeat (destruct Hin as [<- | Hin];
            [eexists; split; [reflexivity | by vm_compute]|]).
    destruct Hin.
  - intros combo Hin. vm_compute in Hin.
    repeat (destruct Hin as [<- | Hin];
            [do 2 eexists; split; [by vm_compute|];
             split; [by vm_compute | by vm_compute]|]).
    destruct Hin.
  - exists subs. split; [exact Hrun|]. split.
    + destruct (Hrows (DataManager.combination "Custom" 1))
        as (c & Hc & Habsent & _); [vm_compute; tauto|].
      vm_compute in Hc. injection Hc as <-. by apply Habsent.
    + destruct (Hrows (DataManager.combination "VIP" 1))
        as (c & Hc & _ & Hpresent); [vm_compute; tauto|].
      vm_compute in Hc. injection Hc as <-. by apply Hpresent.
Defined.

(** ** A remark on rounding

    The month of a baseline of revenue 300000 and cost 200000 under zero
    growth and full retention, with the arithmetic of the loop body carried
    out in binary64 as Python does: the recorded revenue is
    90000 exactly; the recorded cost is the float next above 60000, and the
    recorded profit falls short of 30000 by that step, at
    29999.999999999993. *)

Module Binary64.
Import PrimFloat.
Local Open Scope float_scope.

Lemma concrete_month_in_binary64 :
  let base_customers := 10 in
  let growth_rate := 0 in
  let retention_rate := 1 in
  let base_monthly_revenue := 300000 / 3 in
  let base_monthly_cost := 200000 / 3 in
  let new_customers := base_customers * growth_rate / 12 in
  let retained_customers := base_customers * retention_rate in
  let current_customers := retained_customers + new_customers in
  let customer_growth_factor := current_customers / base_customers in
  let seasonality_factor := 9 / 10 in
  let monthly_revenue :=
    base_monthly_revenue * customer_growth_factor * seasonality_factor in
  let monthly_cost :=
    base_monthly_cost * customer_growth_factor * seasonality_factor in
  let monthly_profit := monthly_revenue - monthly_cost in
  monthly_revenue = 90000
  /\ monthly_cost = next_up 60000
  /\ monthly_profit = 90000 - next_up 60000
  /\ eqb monthly_profit 30000 = false
  /\ ltb (abs (monthly_profit - 30000)) 0x1p-36 = true.
Proof. cbv zeta. split_conj; vm_compute; reflexivity. Qed.

End Binary64.

(** * Further properties *)

(** ** Numbers *)

Lemma py_int_comp x y : x == y -> py_int x = py_int y.
Proof.
  unfold Qeq, py_int. destruct x as [a b], y as [c d]. simpl. intros H.
  rewrite <- (Z.quot_mul_cancel_r a (Zpos b) (Zpos d)) by lia.
  rewrite <- (Z.quot_mul_cancel_r c (Zpos d) (Zpos b)) by lia.
  rewrite H. f_equal. lia.
Qed.

Lemma py_int_mono x y : x <= y -> (py_int x <= py_int y)%Z.
Proof.
  unfold Qle, py_int. destruct x as [a b], y as [c d]. simpl. intros H.
  rewrite <- (Z.quot_mul_cancel_r a (Zpos b) (Zpos d)) by lia.
  rewrite <- (Z.quot_mul_cancel_r c (Zpos d) (Zpos b)) by lia.
  replace (Zpos d * Zpos b)%Z with (Zpos b * Zpos d)%Z by lia.
  apply Z.quot_le_mono; lia.
Qed.

Lemma py_int_inject_Z n : py_int (inject_Z n) = n.
Proof. unfold py_int. simpl. apply Z.quot_1_r. Qed.

(** ** The seasonality table *)

(** X1. The seasonality factor has period 12 in the month, for every integer
    month; the month index always falls in the table, so the default of the
    lookup is never taken; and every factor lies between 0.9 and 1.2. *)
Theorem seasonality_factor_periodic_and_bounded (month : Z) :
  Forecaster._get_seasonality_factor (month + 12)
  = Forecaster._get_seasonality_factor month
  /\ is_Some (Forecaster.seasonality_map !! (((month - 1) mod 12) + 1)%Z)
  /\ 0.9 <= Forecaster._get_seasonality_factor month
  /\ Forecaster._get_seasonality_factor month <= 1.2.
Proof.
  split; [apply seasonality_wraps|].
  unfold Forecaster._get_seasonality_factor.
  pose proof (Z.mod_pos_bound (month - 1) 12 eq_refl) as Hi.
  set (i := ((month - 1) mod 12)%Z) in *.
  assert (Hcases : In i [0; 1; 2; 3; 4; 5; 6; 7; 8; 9; 10; 11]%Z)
    by (simpl; lia).
  simpl in Hcases.
  repeat (destruct Hcases as [<- | Hcases];
          [split; [by eexists|]; split; by vm_compute|]).
  destruct Hcases.
Qed.

(** ** More on the period forecast *)

Section ProjectionFacts.
Variables (base_monthly_revenue base_monthly_cost base_customers : Q).
Variables (growth_rate retention_rate : Q).

Local Abbreviation step :=
  (Forecaster.month_step base_monthly_revenue base_monthly_cost base_customers
     growth_rate retention_rate).

Local Abbreviation start :=
  {| Forecaster.current_customers := base_customers;
     Forecaster.cumulative_revenue := 0;
     Forecaster.cumulative_cost := 0;
     Forecaster.cumulative_profit := 0;
     Forecaster.monthly_data := [] |}.

(** With zero growth and full retention the count stays at the baseline and
    every month adds the baseline monthly figures. *)
Lemma flat_invariant_step j s s' :
  growth_rate == 0 -> retention_rate == 1 ->
  flat_invariant base_monthly_revenue base_monthly_cost base_customers j s ->
  step s (1 + Z.of_nat j)%Z = Ok s' ->
  flat_invariant base_monthly_revenue base_monthly_cost base_customers (S j) s'.
Proof.
  intros Hg Hr (Hc & Hrev & Hcost & Hrows) Hs.
  apply month_step_inv in Hs as [Hn Hs].
  rewrite month_step_nonzero_baseline in Hs by done.
  injection Hs as <-. unfold flat_invariant. simpl.
  assert (Hcur : Forecaster.current_customers s * retention_rate
                 + Forecaster.current_customers s * growth_rate / 12
                 == base_customers).
  { rewrite Hg, Hr, Hc. field. }
  assert (Hfactor :
    (Forecaster.current_customers s * retention_rate
     + Forecaster.current_customers s * growth_rate / 12) / base_customers
    == 1).
  { rewrite Hcur. by field. }
  split; [exact Hcur|].
  split; [rewrite Hfactor, Hrev, Nat2Z.inj_succ; unfold Z.succ;
          rewrite inject_Z_plus; ring|].
  split; [rewrite Hfactor, Hcost, Nat2Z.inj_succ; unfold Z.succ;
          rewrite inject_Z_plus; ring|].
  intros row Hin. apply in_app_or in Hin as [Hin | [<- | []]];
    [by apply Hrows|]. simpl.
  split; [by apply py_int_comp|].
  split; [rewrite (py_int_comp _ 0); [reflexivity | rewrite Hg; field]|].
  split; rewrite Hfactor; ring.
Qed.

(** Under non-negative rates and baseline figures the count stays
    non-negative and no cumulative figure ever decreases. *)
Lemma growing_invariant_step month s s' :
  0 <= base_monthly_revenue -> 0 <= base_monthly_cost -> 0 < base_customers ->
  0 <= growth_rate -> 0 <= retention_rate ->
  growing_invariant s ->
  step s month = Ok s' ->
  growing_invariant s'.
Proof.
  intros Hrev Hcost Hbase Hg Hr (Hc & Hlast & Hsorted) Hs.
  apply month_step_inv in Hs as [Hn Hs].
  rewrite month_step_nonzero_baseline in Hs by done.
  injection Hs as <-. unfold growing_invariant. simpl.
  set (c := Forecaster.current_customers s) in *.
  assert (Hcur : 0 <= c * retention_rate + c * growth_rate / 12).
  { assert (0 <= c * retention_rate) by (by apply Qmult_le_0_compat).
    assert (0 <= c * growth_rate) by (by apply Qmult_le_0_compat).
    assert (0 <= c * growth_rate / 12) by (apply Qle_shift_div_l; lra).
    lra. }
  assert (Hfactor :
    0 <= (c * retention_rate + c * growth_rate / 12) / base_customers)
    by (apply Qle_shift_div_l; lra).
  assert (Hdr : 0 <= base_monthly_revenue
                     * ((c * retention_rate + c * growth_rate / 12)
                        / base_customers))
    by (by apply Qmult_le_0_compat).
  assert (Hdc : 0 <= base_monthly_cost
                     * ((c * retention_rate + c * growth_rate / 12)
                        / base_customers))
    by (by apply Qmult_le_0_compat).
  split; [exact Hcur|]. split.
  - intros row Hin. apply in_app_or in Hin as [Hin | [<- | []]]; simpl.
    + destruct (Hlast row Hin). split; lra.
    + split; lra.
  - intros i j ri rj Hij Hi Hj.
    apply lookup_app_Some in Hj as [Hj | [Hge Hj]].
    + apply lookup_app_Some in Hi as [Hi | [Hge' _]];
        [by eapply Hsorted | apply lookup_lt_Some in Hj; lia].
    + destruct (j - length (Forecaster.monthly_data s))%nat eqn:E;
        simpl in Hj; [|done].
      injection Hj as <-. simpl.
      apply lookup_app_Some in Hi as [Hi | [Hge' Hi]].
      * apply list_elem_of_lookup_2, list_elem_of_In in Hi.
        destruct (Hlast ri Hi). split; lra.
      * destruct (i - length (Forecaster.monthly_data s))%nat eqn:E';
          simpl in Hi; [|done].
        injection Hi as <-. simpl. split; lra.
Qed.

End ProjectionFacts.

(** The forecast of a scenario without overrides on a baseline with
    customers, with the final state of its loop. *)
Lemma forecast_plain_run base_results scenario_params months w :
  Scenario.pricing_adjustments scenario_params = None ->
  Scenario.quantity_adjustments scenario_params = None ->
  ~ Totals.total_customers (Results.totals base_results) == 0 ->
  let base_customers := Totals.total_customers (Results.totals base_results) in
  exists s,
    for_each (map (fun i => (1 + Z.of_nat i)%Z) (seq 0 (Z.to_nat months)))
      {| Forecaster.current_customers := base_customers;
         Forecaster.cumulative_revenue := 0;
         Forecaster.cumulative_cost := 0;
         Forecaster.cumulative_profit := 0;
         Forecaster.monthly_data := [] |}
      (Forecaster.month_step
         (Totals.total_revenue (Results.totals base_results) / 3)
         (Totals.total_cost (Results.totals base_results) / 3)
         base_customers (Scenario.growth_rate scenario_params)
         (Scenario.retention_rate scenario_params)) = Ok s
    /\ Forecaster._calculate_period_forecast base_results scenario_params
         months w
       = (Ok {| Forecast.period_months := months;
                Forecast.scenario_params := scenario_params;
                Forecast.monthly_breakdown := Forecaster.monthly_data s;
                Forecast.period_totals :=
                  {| PeriodTotals.total_revenue :=
                       Forecaster.cumulative_revenue s;
                     PeriodTotals.total_cost := Forecaster.cumulative_cost s;
                     PeriodTotals.total_profit :=
                       Forecaster.cumulative_profit s;
                     PeriodTotals.final_customers :=
                       py_int (Forecaster.current_customers s);
                     PeriodTotals.customer_growth :=
                       if Qgtb base_customers 0
                       then (Forecaster.current_customers s - base_customers)
                            / base_customers * 100
                       else 0;
                     PeriodTotals.profit_margin :=
                       if Qgtb (Forecaster.cumulative_revenue s) 0
                       then Forecaster.cumulative_profit s
                            / Forecaster.cumulative_revenue s * 100
                       else 0 |} |}, w).
Proof.
  intros Hp Hq Hn base_customers. subst base_customers.
  rewrite forecast_without_adjustments by done.
  unfold Forecaster.project. rewrite py_range_from_one. cbv zeta.
  edestruct month_loop_total as [s Hs]; [exact Hn|].
  exists s. split; [exact Hs|]. by rewrite Hs.
Qed.



(** X3. A horizon of zero or fewer months is no error, also on a baseline
    without customers: the forecast has no row, all its totals and its
    margin are 0, its final count is the baseline count and its customer
    growth is zero. *)
Theorem forecast_of_an_empty_horizon
    (base_results : Results.t) (scenario_params : Scenario.t) (months : Z)
    (w : world) :
  (months <= 0)%Z ->
  Scenario.pricing_adjustments scenario_params = None ->
  Scenario.quantity_adjustments scenario_params = None ->
  exists forecast,
    Forecaster._calculate_period_forecast base_results scenario_params months w
    = (Ok forecast, w)
    /\ Forecast.monthly_breakdown forecast = []
    /\ PeriodTotals.total_revenue (Forecast.period_totals forecast) = 0
    /\ PeriodTotals.total_cost (Forecast.period_totals forecast) = 0
    /\ PeriodTotals.total_profit (Forecast.period_totals forecast) = 0
    /\ PeriodTotals.profit_margin (Forecast.period_totals forecast) = 0
    /\ PeriodTotals.final_customers (Forecast.period_totals forecast)
       = py_int (Totals.total_customers (Results.totals base_results))
    /\ PeriodTotals.customer_growth (Forecast.period_totals forecast) == 0.
Proof.
  intros Hmonths Hp Hq. rewrite forecast_without_adjustments by done.
  unfold Forecaster.project. rewrite py_range_from_one.
  replace (Z.to_nat months) with 0%nat by lia. simpl.
  eexists. split; [reflexivity|]. simpl. split_conj; try reflexivity.
  destruct (Qgtb _ 0) eqn:Hpos; [|reflexivity].
  apply Qgtb_true in Hpos. field. lra.
Qed.

Lemma forecast_of_an_empty_horizon_witness :
  exists forecast,
    Forecaster._calculate_period_forecast (baseline 300000 200000 0)
      (plain 0.15 0.9) 0 DataManager.init = (Ok forecast, DataManager.init)
    /\ Forecast.monthly_breakdown forecast = []
    /\ PeriodTotals.total_revenue (Forecast.period_totals forecast) = 0
    /\ PeriodTotals.total_cost (Forecast.period_totals forecast) = 0
    /\ PeriodTotals.total_profit (Forecast.period_totals forecast) = 0
    /\ PeriodTotals.profit_margin (Forecast.period_totals forecast) = 0
    /\ PeriodTotals.final_customers (Forecast.period_totals forecast) = 0%Z
    /\ PeriodTotals.customer_growth (Forecast.period_totals forecast) == 0.
Proof.
  apply (forecast_of_an_empty_horizon (baseline 300000 200000 0)
           (plain 0.15 0.9) 0 DataManager.init); [lia | reflexivity..].
Defined.





Section TwoScenarios.
Variables (base_monthly_revenue base_monthly_cost base_customers : Q).
Variables (growth1 retention1 growth2 retention2 : Q).

Local Abbreviation step1 :=
  (Forecaster.month_step base_monthly_revenue base_monthly_cost base_customers
     growth1 retention1).
Local Abbreviation step2 :=
  (Forecaster.month_step base_monthly_revenue base_monthly_cost base_customers
     growth2 retention2).

Lemma Qmult_le_both a b c d :
  0 <= a -> a <= b -> 0 <= c -> c <= d -> a * c <= b * d.
Proof.
  intros Ha Hab Hc Hcd.
  apply Qle_trans with (a * d).
  - rewrite !(Qmult_comm a). by apply Qmult_le_compat_r.
  - apply Qmult_le_compat_r; lra.
Qed.

Lemma not_ahead_step month s1 s2 s1' s2' :
  0 <= base_monthly_revenue -> 0 <= base_monthly_cost -> 0 < base_customers ->
  0 <= growth1 -> growth1 <= growth2 ->
  0 <= retention1 -> retention1 <= retention2 ->
  not_ahead base_monthly_revenue base_monthly_cost s1 s2 ->
  step1 s1 month = Ok s1' -> step2 s2 month = Ok s2' ->
  not_ahead base_monthly_revenue base_monthly_cost s1' s2'.
Proof.
  intros Hrev Hcost Hbase Hg1 Hg Hr1 Hr (Hc1 & Hc & Hcr & Hcc & Hcp) H1 H2.
  rewrite month_step_nonzero_baseline in H1, H2 by lra.
  injection H1 as <-. injection H2 as <-. unfold not_ahead. simpl.
  set (c1 := Forecaster.current_customers s1) in *.
  set (c2 := Forecaster.current_customers s2) in *.
  assert (Hn1 : 0 <= c1 * retention1 + c1 * growth1 / 12).
  { assert (0 <= c1 * retention1) by (by apply Qmult_le_0_compat).
    assert (0 <= c1 * growth1) by (by apply Qmult_le_0_compat).
    assert (0 <= c1 * growth1 / 12) by (apply Qle_shift_div_l; lra).
    lra. }
  assert (Hn : c1 * retention1 + c1 * growth1 / 12
               <= c2 * retention2 + c2 * growth2 / 12).
  { assert (c1 * retention1 <= c2 * retention2) by (by apply Qmult_le_both).
    assert (c1 * growth1 <= c2 * growth2) by (by apply Qmult_le_both).
    assert (c1 * growth1 / 12 <= c2 * growth2 / 12).
    { unfold Qdiv. apply Qmult_le_compat_r; [done | by vm_compute]. }
    lra. }
  set (n1 := c1 * retention1 + c1 * growth1 / 12) in *.
  set (n2 := c2 * retention2 + c2 * growth2 / 12) in *.
  assert (Hf : n1 / base_customers <= n2 / base_customers).
  { unfold Qdiv. apply Qmult_le_compat_r; [done|].
    apply Qlt_le_weak, Qinv_lt_0_compat, Hbase. }
  set (f1 := n1 / base_customers) in *.
  set (f2 := n2 / base_customers) in *.
  assert (Hmr : base_monthly_revenue * f1 <= base_monthly_revenue * f2).
  { rewrite !(Qmult_comm base_monthly_revenue).
    by apply Qmult_le_compat_r. }
  assert (Hmc : base_monthly_cost * f1 <= base_monthly_cost * f2).
  { rewrite !(Qmult_comm base_monthly_cost). by apply Qmult_le_compat_r. }
  split_conj; try lra.
  intros Hmargin. specialize (Hcp Hmargin).
  assert ((base_monthly_revenue - base_monthly_cost) * f1
          <= (base_monthly_revenue - base_monthly_cost) * f2).
  { rewrite !(Qmult_comm (base_monthly_revenue - base_monthly_cost)).
    apply Qmult_le_compat_r; lra. }
  lra.
Qed.

Lemma not_ahead_loop months :
  0 <= base_monthly_revenue -> 0 <= base_monthly_cost -> 0 < base_customers ->
  0 <= growth1 -> growth1 <= growth2 ->
  0 <= retention1 -> retention1 <= retention2 ->
  forall s1 s2 s1' s2',
    not_ahead base_monthly_revenue base_monthly_cost s1 s2 ->
    for_each months s1 step1 = Ok s1' -> for_each months s2 step2 = Ok s2' ->
    not_ahead base_monthly_revenue base_monthly_cost s1' s2'.
Proof.
  intros Hrev Hcost Hbase Hg1 Hg Hr1 Hr.
  induction months as [|month months IH]; intros s1 s2 s1' s2' H H1 H2;
    simpl in H1, H2.
  - by injection H1 as <-; injection H2 as <-.
  - destruct (step1 s1 month) as [t1|] eqn:E1; [|done].
    destruct (step2 s2 month) as [t2|] eqn:E2; [|done].
    simpl in H1, H2. eapply IH; [|exact H1|exact H2].
    by eapply not_ahead_step.
Qed.

End TwoScenarios.

(** Two scenarios without overrides on one baseline, the second with at
    least the rates of the first. *)
Lemma forecasts_ordered_by_rates
    (base_results : Results.t) (lower higher : Scenario.t) (months : Z)
    (w : world) :
  0 <= Totals.total_revenue (Results.totals base_results) ->
  0 <= Totals.total_cost (Results.totals base_results) ->
  0 < Totals.total_customers (Results.totals base_results) ->
  0 <= Scenario.growth_rate lower ->
  Scenario.growth_rate lower <= Scenario.growth_rate higher ->
  0 <= Scenario.retention_rate lower ->
  Scenario.retention_rate lower <= Scenario.retention_rate higher ->
  Scenario.pricing_adjustments lower = None ->
  Scenario.quantity_adjustments lower = None ->
  Scenario.pricing_adjustments higher = None ->
  Scenario.quantity_adjustments higher = None ->
  exists f1 f2,
    Forecaster._calculate_period_forecast base_results lower months w
    = (Ok f1, w)
    /\ Forecaster._calculate_period_forecast base_results higher months w
       = (Ok f2, w)
    /\ (PeriodTotals.final_customers (Forecast.period_totals f1)
        <= PeriodTotals.final_customers (Forecast.period_totals f2))%Z
    /\ PeriodTotals.customer_growth (Forecast.period_totals f1)
       <= PeriodTotals.customer_growth (Forecast.period_totals f2)
    /\ PeriodTotals.total_revenue (Forecast.period_totals f1)
       <= PeriodTotals.total_revenue (Forecast.period_totals f2)
    /\ PeriodTotals.total_cost (Forecast.period_totals f1)
       <= PeriodTotals.total_cost (Forecast.period_totals f2)
    /\ (Totals.total_cost (Results.totals base_results)
        <= Totals.total_revenue (Results.totals base_results) ->
        PeriodTotals.total_profit (Forecast.period_totals f1)
        <= PeriodTotals.total_profit (Forecast.period_totals f2)).
Proof.
  intros Hrev Hcost Hbase Hg1 Hg Hr1 Hr Hp1 Hq1 Hp2 Hq2.
  destruct (forecast_plain_run base_results lower months w Hp1 Hq1)
    as (s1 & Hloop1 & Hrun1); [lra|].
  destruct (forecast_plain_run base_results higher months w Hp2 Hq2)
    as (s2 & Hloop2 & Hrun2); [lra|].
  eexists _, _. split; [exact Hrun1|]. split; [exact Hrun2|]. simpl.
  assert (H : not_ahead (Totals.total_revenue (Results.totals base_results) / 3)
                (Totals.total_cost (Results.totals base_results) / 3) s1 s2).
  { eapply not_ahead_loop; [..|exact Hloop1|exact Hloop2]; try done.
    - apply Qle_shift_div_l; lra.
    - apply Qle_shift_div_l; lra.
    - unfold not_ahead. simpl. split_conj; lra. }
  destruct H as (Hc1 & Hc & Hcr & Hcc & Hcp).
  split; [by apply py_int_mono|].
  split.
  { rewrite (proj2 (Qgtb_true _ _) Hbase).
    apply Qmult_le_compat_r; [|by vm_compute].
    unfold Qdiv. apply Qmult_le_compat_r; [lra|].
    by apply Qlt_le_weak, Qinv_lt_0_compat. }
  split; [done|]. split; [done|].
  intros Hmargin. apply Hcp.
  unfold Qdiv. apply Qmult_le_compat_r; [done | by vm_compute].
Qed.



(** ** The margin of a forecast *)

Lemma proportional_invariant_step
    base_monthly_revenue base_monthly_cost base_customers growth_rate
    retention_rate month s s' :
  proportional_invariant base_monthly_revenue base_monthly_cost s ->
  Forecaster.month_step base_monthly_revenue base_monthly_cost base_customers
    growth_rate retention_rate s month = Ok s' ->
  proportional_invariant base_monthly_revenue base_monthly_cost s'.
Proof.
  intros [(F & Hr & Hc & Hp) Hrows] Hs.
  apply month_step_inv in Hs as [Hn Hs].
  rewrite month_step_nonzero_baseline in Hs by done.
  injection Hs as <-. unfold proportional_invariant. simpl.
  set (f := (Forecaster.current_customers s * retention_rate
             + Forecaster.current_customers s * growth_rate / 12)
            / base_customers).
  split.
  - exists (F + f). split_conj.
    + rewrite Hr. ring.
    + rewrite Hc. ring.
    + rewrite Hp. ring.
  - intros row Hin. apply in_app_or in Hin as [Hin | [<- | []]];
      [by apply Hrows|]. simpl.
    exists (f * Forecaster._get_seasonality_factor month).
    split_conj; [ring | ring | reflexivity].
Qed.

(** A margin of figures in the proportion of the baseline. *)
Lemma proportional_margin revenue cost r c factor :
  r == revenue / 3 * factor -> c == cost / 3 * factor -> 0 < r ->
  (r - c) / r * 100 == (revenue - cost) / revenue * 100.
Proof.
  intros Hr Hc Hpos. rewrite Hr in Hpos. rewrite Hr, Hc.
  assert (~ revenue == 0).
  { intros E. rewrite E in Hpos.
    assert (E0 : 0 / 3 * factor == 0) by field. rewrite E0 in Hpos. lra. }
  assert (~ factor == 0).
  { intros E. rewrite E in Hpos.
    assert (E0 : revenue / 3 * 0 == 0) by field. rewrite E0 in Hpos. lra. }
  by field.
Qed.



(** ** The forecasts of several scenarios and periods *)

Lemma comprehensive_results_inv w results w' :
  RevenueCalculator.calculate_comprehensive_results w = (Ok results, w') ->
  exists subscription_results additional_results,
    RevenueCalculator._calculate_subscription_results w
    = (Ok subscription_results, w)
    /\ RevenueCalculator._calculate_additional_services w
       = (Ok additional_results, w)
    /\ results
       = {| Results.subscriptions := subscription_results;
            Results.additional_services := additional_results;
            Results.totals :=
              RevenueCalculator._calculate_totals subscription_results
                additional_results |}
    /\ w' = {| heap := heap w; pricing_data := pricing_data w;
               inputs := inputs w;
               session :=
                 {| ss_pricing_data := ss_pricing_data (session w);
                    ss_input_data := ss_input_data (session w);
                    last_calculation := Some (Results.totals results) |} |}.
Proof.
  unfold RevenueCalculator.calculate_comprehensive_results.
  unfold mbind at 1, M_bind.
  pose proof (read_only_subscription_results w) as Hs.
  destruct (RevenueCalculator._calculate_subscription_results w)
    as [[subs|e] w1]; [|done]. simpl in Hs. subst w1.
  unfold mbind at 1, M_bind.
  pose proof (read_only_additional_services w) as Ha.
  destruct (RevenueCalculator._calculate_additional_services w)
    as [[services|e] w1]; [|done]. simpl in Ha. subst w1.
  intros H. injection H as <- <-. by exists subs, services.
Qed.

Lemma string_length_append (s t : string) :
  String.length (s ++ t) = (String.length s + String.length t)%nat.
Proof. induction s as [|a s IH]; simpl; [done | by rewrite IH]. Qed.

Lemma string_append_cancel_r (s1 s2 t : string) :
  (s1 ++ t)%string = (s2 ++ t)%string -> s1 = s2.
Proof.
  revert s2. induction s1 as [|a s1 IH]; intros [|b s2] H; simpl in H.
  - done.
  - apply (f_equal String.length) in H. simpl in H.
    rewrite !string_length_append in H. simpl in H. lia.
  - apply (f_equal String.length) in H. simpl in H.
    rewrite !string_length_append in H. simpl in H. lia.
  - injection H as -> H. f_equal. by apply IH.
Qed.

Lemma str_of_int_inj (n n' : Z) : str_of_int n = str_of_int n' -> n = n'.
Proof.
  unfold str_of_int. intros H.
  assert (Hnorm : forall z, NilZero.int_of_string
                              (NilZero.string_of_int (Z.to_int z))
                            = Some (Z.to_int z)).
  { intros z. apply NilZero.isi; destruct z as [|p|p]; simpl; try done;
      intros E; injection E as E; by apply DecimalPos.Unsigned.to_uint_nonnil in E. }
  apply (f_equal NilZero.int_of_string) in H. rewrite !Hnorm in H.
  injection H as H. by apply DecimalZ.to_int_inj.
Qed.

Lemma period_key_inj (p p' : Z) :
  (str_of_int p ++ "_months")%string = (str_of_int p' ++ "_months")%string ->
  p = p'.
Proof. intros H. by apply string_append_cancel_r, str_of_int_inj in H. Qed.

Lemma dget_In {V} (d : list (string * V)) (k : string) (v : V) :
  dget d k = Some v -> In (k, v) d.
Proof.
  induction d as [|[k' v'] d IH]; simpl; [done|].
  destruct (String.eqb k' k) eqn:E.
  - apply String.eqb_eq in E as ->. intros H. injection H as ->. by left.
  - intros H. right. by apply IH.
Qed.

Lemma bind_returns {A B} (m : M A) (f : A -> M B) (w w' : world) (a : A) :
  m w = (Ok a, w') -> (m ≫= f) w = f a w'.
Proof. intros H. unfold mbind, M_bind. by rewrite H. Qed.

Lemma for_each_cons {A B} (x : A) (l : list A) (acc : B)
    (body : B -> A -> M B) (w : world) :
  for_each (x :: l) acc body w
  = match body acc x w with
    | (Ok acc', w') => for_each l acc' body w'
    | (Raise e, w') => (Raise e, w')
    end.
Proof. reflexivity. Qed.

Section ForecastLoops.
Variables (base_results : Results.t) (w : world).
Hypothesis base_customers_nonzero :
  ~ Totals.total_customers (Results.totals base_results) == 0.

(** The inner loop: the forecasts of one scenario, period after period. *)
Lemma period_loop scenario_name scenario_params periods :
  without_overrides scenario_params ->
  forall done forecast_data scenario_forecasts,
    dget forecast_data scenario_name = Some scenario_forecasts ->
    scenario_forecasts_of base_results scenario_params w done
      scenario_forecasts ->
    exists forecast_data' scenario_forecasts',
      for_each periods forecast_data
        (Forecaster.period_step base_results scenario_name scenario_params) w
      = (Ok forecast_data', w)
      /\ dget forecast_data' scenario_name = Some scenario_forecasts'
      /\ scenario_forecasts_of base_results scenario_params w
           (done ++ periods) scenario_forecasts'
      /\ forall name, name <> scenario_name ->
                      dget forecast_data' name = dget forecast_data name.
Proof.
  intros [Hp Hq].
  induction periods as [|period periods IH];
    intros done forecast_data scenario_forecasts Hget Hinner.
  - exists forecast_data, scenario_forecasts. rewrite app_nil_r. by split_conj.
  - destruct (forecast_returns base_results scenario_params period w Hp Hq
                base_customers_nonzero) as [forecast Hrun].
    rewrite for_each_cons.
    unfold Forecaster.period_step at 1. unfold mbind at 1 2, M_bind.
    rewrite Hrun. unfold lift, dsubscript. rewrite Hget.
    unfold mret, M_ret.
    set (key := (str_of_int period ++ "_months")%string).
    destruct (IH (done ++ [period])%list
                (dset forecast_data scenario_name
                   (dset scenario_forecasts key forecast))
                (dset scenario_forecasts key forecast))
      as (data' & inner' & Hloop & Hget' & Hinner' & Hother).
    + apply dget_dset_eq.
    + destruct Hinner as [Hall Honly]. split.
      * intros p Hin. apply in_app_or in Hin as [Hin | [<- | []]].
        -- destruct (decide (p = period)) as [->|Hne].
           ++ exists forecast. fold key. by rewrite dget_dset_eq.
           ++ destruct (Hall p Hin) as (f & Hf & Hfrun). exists f.
              rewrite dget_dset_ne; [done|].
              intros E. apply Hne. symmetry. by apply period_key_inj.
        -- exists forecast. fold key. by rewrite dget_dset_eq.
      * intros k Hk. destruct (decide (k = key)) as [->|Hne].
        -- exists period. split; [apply in_or_app; right; by left | done].
        -- rewrite dget_dset_ne in Hk by done.
           destruct (Honly k Hk) as (p & Hin & ->). exists p.
           split; [apply in_or_app; by left | done].
    + exists data', inner'. rewrite <- app_assoc in Hinner'. simpl in Hinner'.
      split_conj; try done.
      intros name Hne. rewrite Hother by done.
      by rewrite dget_dset_ne.
Qed.

Variable self_scenarios : list (string * Scenario.t).
Variable periods : list Z.
Hypothesis scenarios_without_overrides :
  forall name scenario_params,
    dget self_scenarios name = Some scenario_params ->
    without_overrides scenario_params.

Lemma forecast_loop scenarios :
  forall done forecast_data,
    (forall name,
        is_Some (dget forecast_data name) <->
        In name done /\ is_Some (dget self_scenarios name)) ->
    (forall name scenario_forecasts scenario_params,
        dget forecast_data name = Some scenario_forecasts ->
        dget self_scenarios name = Some scenario_params ->
        scenario_forecasts_of base_results scenario_params w periods
          scenario_forecasts) ->
    exists forecast_data',
      for_each scenarios forecast_data
        (Forecaster.forecast_step self_scenarios periods base_results) w
      = (Ok forecast_data', w)
      /\ (forall name,
             is_Some (dget forecast_data' name) <->
             In name (done ++ scenarios)
             /\ is_Some (dget self_scenarios name))
      /\ (forall name scenario_forecasts scenario_params,
             dget forecast_data' name = Some scenario_forecasts ->
             dget self_scenarios name = Some scenario_params ->
             scenario_forecasts_of base_results scenario_params w periods
               scenario_forecasts).
Proof.
  induction scenarios as [|scenario_name scenarios IH];
    intros done forecast_data Hkeys Hvalues.
  - exists forecast_data. rewrite app_nil_r. by split_conj.
  - rewrite for_each_cons. unfold Forecaster.forecast_step at 1.
    destruct (dget self_scenarios scenario_name) as [scenario_params|] eqn:Hknown.
    + destruct (period_loop scenario_name scenario_params periods
                  (scenarios_without_overrides _ _ Hknown) []
                  (dset forecast_data scenario_name []) [])
        as (data1 & inner1 & Hloop & Hget1 & Hinner1 & Hother1).
      * apply dget_dset_eq.
      * split; [by intros p [] | intros k [v Hk]; done].
      * cbv zeta. rewrite Hloop.
        destruct (IH (done ++ [scenario_name])%list data1)
          as (data' & Hrun & Hkeys' & Hvalues').
        -- intros name. destruct (decide (name = scenario_name)) as [->|Hne].
           ++ rewrite Hget1, Hknown. split; [|by eauto].
              intros _. split; [apply in_or_app; right; by left | by eauto].
           ++ rewrite Hother1, dget_dset_ne, Hkeys by done.
              split; intros [Hin Hk]; (split; [|done]).
              ** apply in_or_app; by left.
              ** apply in_app_or in Hin as [Hin | [<- | []]]; done.
        -- intros name inner sc Hget Hsc.
           destruct (decide (name = scenario_name)) as [->|Hne].
           ++ rewrite Hget1 in Hget. injection Hget as <-.
              rewrite Hknown in Hsc. injection Hsc as <-. exact Hinner1.
           ++ rewrite Hother1, dget_dset_ne in Hget by done.
              by eapply Hvalues.
        -- exists data'. rewrite <- app_assoc in Hkeys'. by split_conj.
    + destruct (IH (done ++ [scenario_name])%list forecast_data)
        as (data' & Hrun & Hkeys' & Hvalues').
      * intros name. rewrite Hkeys. split; intros [Hin Hk]; (split; [|done]).
        -- apply in_or_app; by left.
        -- apply in_app_or in Hin as [Hin | [<- | []]]; [done|].
           rewrite Hknown in Hk. by destruct Hk.
      * exact Hvalues.
      * exists data'. rewrite <- app_assoc in Hkeys'. by split_conj.
Qed.

End ForecastLoops.



(** ** Sensitivity to the rates *)

Lemma StronglySorted_lookup {A} (R : A -> A -> Prop) (l : list A) i j x y :
  StronglySorted R l -> (i < j)%nat ->
  l !! i = Some x -> l !! j = Some y -> R x y.
Proof.
  intros Hs. revert i j. induction Hs as [|a l Hs IH Hall]; intros i j Hij Hi Hj.
  - by rewrite lookup_nil in Hi.
  - destruct j as [|j]; [lia|]. simpl in Hj. destruct i as [|i]; simpl in Hi.
    + injection Hi as <-. rewrite Forall_forall in Hall. apply Hall.
      by eapply list_elem_of_lookup_2.
    + apply (IH i j); [lia | done | done].
Qed.

Section Sensitivity.
Variables (base_results : Results.t) (base_period : Z) (w : world).
Hypothesis revenue_nonneg :
  0 <= Totals.total_revenue (Results.totals base_results).
Hypothesis cost_nonneg : 0 <= Totals.total_cost (Results.totals base_results).
Hypothesis customers_pos :
  0 < Totals.total_customers (Results.totals base_results).

Local Abbreviation run growth_rate retention_rate :=
  (Forecaster._calculate_period_forecast base_results
     {| Scenario.growth_rate := growth_rate;
        Scenario.retention_rate := retention_rate;
        Scenario.pricing_adjustments := None;
        Scenario.quantity_adjustments := None |} base_period w).

(** The rows of a loop over rates: one for each rate, taken from the
    forecast of the rate. *)
Lemma sensitivity_loop {Row} (scenario_of : Q -> Scenario.t)
    (row_of : Q -> PeriodTotals.t -> Row) (rates : list Q) :
  (forall rate, without_overrides (scenario_of rate)) ->
  forall rows,
  exists rows',
    for_each rates rows
      (fun (rows : list Row) rate =>
         forecast ← Forecaster._calculate_period_forecast base_results
                      (scenario_of rate) base_period;
         mret (rows ++ [row_of rate (Forecast.period_totals forecast)])%list) w
    = (Ok (rows ++ rows')%list, w)
    /\ Forall2
         (fun rate row =>
            exists forecast,
              Forecaster._calculate_period_forecast base_results
                (scenario_of rate) base_period w = (Ok forecast, w)
              /\ row = row_of rate (Forecast.period_totals forecast))
         rates rows'.
Proof.
  intros Hplain. induction rates as [|rate rates IH]; intros rows.
  - exists []. rewrite app_nil_r. by split.
  - destruct (forecast_returns base_results (scenario_of rate) base_period w)
      as [forecast Hrun]; [apply Hplain | apply Hplain | lra |].
    rewrite for_each_cons, (bind_returns _ _ _ _ _ Hrun).
    unfold mret at 1, M_ret at 1.
    destruct (IH (rows ++ [row_of rate (Forecast.period_totals forecast)])%list)
      as (rows' & Hloop & Hrows).
    exists (row_of rate (Forecast.period_totals forecast) :: rows').
    rewrite Hloop, <- app_assoc. split; [done|].
    constructor; [by exists forecast | done].
Qed.

(** Two rows of such a loop, the second for rates at least those of the
    first. *)
Lemma sensitivity_rows_ordered (lower higher : Scenario.t) f1 f2 :
  without_overrides lower -> without_overrides higher ->
  0 <= Scenario.growth_rate lower ->
  Scenario.growth_rate lower <= Scenario.growth_rate higher ->
  0 <= Scenario.retention_rate lower ->
  Scenario.retention_rate lower <= Scenario.retention_rate higher ->
  Forecaster._calculate_period_forecast base_results lower base_period w
  = (Ok f1, w) ->
  Forecaster._calculate_period_forecast base_results higher base_period w
  = (Ok f2, w) ->
  PeriodTotals.total_revenue (Forecast.period_totals f1)
  <= PeriodTotals.total_revenue (Forecast.period_totals f2)
  /\ (PeriodTotals.final_customers (Forecast.period_totals f1)
      <= PeriodTotals.final_customers (Forecast.period_totals f2))%Z
  /\ (Totals.total_cost (Results.totals base_results)
      <= Totals.total_revenue (Results.totals base_results) ->
      PeriodTotals.total_profit (Forecast.period_totals f1)
      <= PeriodTotals.total_profit (Forecast.period_totals f2)).
Proof.
  intros [Hp1 Hq1] [Hp2 Hq2] Hg1 Hg Hr1 Hr H1 H2.
  destruct (forecasts_ordered_by_rates base_results lower higher base_period w)
    as (g1 & g2 & G1 & G2 & Hc & _ & Hrev & _ & Hprofit); try done.
  rewrite H1 in G1. rewrite H2 in G2.
  injection G1 as <-. injection G2 as <-. by split_conj.
Qed.

End Sensitivity.

Lemma growth_rates_sorted :
  StronglySorted Qle Forecaster.growth_rates
  /\ Forall (Qle 0) Forecaster.growth_rates.
Proof.
  split; unfold Forecaster.growth_rates;
    repeat first [ apply SSorted_nil | apply SSorted_cons
                 | apply List.Forall_nil | apply List.Forall_cons
                 | by vm_compute ].
Qed.

Lemma retention_rates_sorted :
  StronglySorted Qle Forecaster.retention_rates
  /\ Forall (Qle 0) Forecaster.retention_rates.
Proof.
  split; unfold Forecaster.retention_rates;
    repeat first [ apply SSorted_nil | apply SSorted_cons
                 | apply List.Forall_nil | apply List.Forall_cons
                 | by vm_compute ].
Qed.



(** ** The comparison of the scenarios *)

Section Comparison.
Variables (base_results : Results.t) (period_months : Z) (w : world).
Hypothesis base_customers_nonzero :
  ~ Totals.total_customers (Results.totals base_results) == 0.

Local Abbreviation entry_of scenario_params forecast :=
  {| Comparison.total_revenue :=
       PeriodTotals.total_revenue (Forecast.period_totals forecast);
     Comparison.total_profit :=
       PeriodTotals.total_profit (Forecast.period_totals forecast);
     Comparison.profit_margin :=
       PeriodTotals.profit_margin (Forecast.period_totals forecast);
     Comparison.final_customers :=
       PeriodTotals.final_customers (Forecast.period_totals forecast);
     Comparison.customer_growth :=
       PeriodTotals.customer_growth (Forecast.period_totals forecast);
     Comparison.growth_rate := Scenario.growth_rate scenario_params;
     Comparison.retention_rate := Scenario.retention_rate scenario_params |}.

Local Abbreviation body :=
  (fun (comparison_data : list (string * Comparison.t))
       '(scenario_name, scenario_params) =>
     forecast ←
       Forecaster._calculate_period_forecast base_results scenario_params
         period_months;
     let totals := Forecast.period_totals forecast in
     mret (dset comparison_data scenario_name
             {| Comparison.total_revenue := PeriodTotals.total_revenue totals;
                Comparison.total_profit := PeriodTotals.total_profit totals;
                Comparison.profit_margin := PeriodTotals.profit_margin totals;
                Comparison.final_customers :=
                  PeriodTotals.final_customers totals;
                Comparison.customer_growth :=
                  PeriodTotals.customer_growth totals;
                Comparison.growth_rate := Scenario.growth_rate scenario_params;
                Comparison.retention_rate :=
                  Scenario.retention_rate scenario_params |})).

Lemma comparison_loop (scenarios : list (string * Scenario.t)) :
  (forall name scenario_params,
      In (name, scenario_params) scenarios ->
      without_overrides scenario_params) ->
  NoDup (map fst scenarios) ->
  forall comparison_data,
  exists comparison_data',
    for_each scenarios comparison_data body w = (Ok comparison_data', w)
    /\ (forall name,
           ~ In name (map fst scenarios) ->
           dget comparison_data' name = dget comparison_data name)
    /\ forall name scenario_params,
         In (name, scenario_params) scenarios ->
         exists forecast,
           Forecaster._calculate_period_forecast base_results scenario_params
             period_months w = (Ok forecast, w)
           /\ dget comparison_data' name
              = Some (entry_of scenario_params forecast).
Proof.
  induction scenarios as [|[scenario_name scenario_params] scenarios IH];
    intros Hplain Hnd comparison_data.
  - exists comparison_data. split_conj; [done | done | by intros ? ? []].
  - apply NoDup_cons in Hnd as [Hfresh Hnd].
    destruct (Hplain scenario_name scenario_params) as [Hp Hq]; [by left|].
    destruct (forecast_returns base_results scenario_params period_months w
                Hp Hq base_customers_nonzero) as [forecast Hrun].
    rewrite for_each_cons. cbv beta iota.
    rewrite (bind_returns _ _ _ _ _ Hrun). cbv zeta.
    unfold mret at 1, M_ret at 1.
    destruct (IH (fun n sc Hin => Hplain n sc (or_intror Hin)) Hnd
                (dset comparison_data scenario_name
                   (entry_of scenario_params forecast)))
      as (data' & Hloop & Hother & Hin).
    exists data'. split; [exact Hloop|]. split.
    + intros name Hname. simpl in Hname.
      rewrite Hother by tauto. apply dget_dset_ne. intros ->. tauto.
    + intros name sc [E | Hin']; [|by apply Hin].
      injection E as <- <-. exists forecast. split; [done|].
      rewrite Hother; [apply dget_dset_eq|].
      intros Hin'. apply Hfresh. by apply list_elem_of_In.
Qed.

End Comparison.

Lemma In_dget {V} (d : list (string * V)) (k : string) (v : V) :
  NoDup (map fst d) -> In (k, v) d -> dget d k = Some v.
Proof.
  induction d as [|[k' v'] d IH]; simpl; [done|].
  intros Hnd [E | Hin].
  - injection E as -> ->. by rewrite String.eqb_refl.
  - apply NoDup_cons in Hnd as [Hfresh Hnd].
    destruct (String.eqb k' k) eqn:E; [|by apply IH].
    apply String.eqb_eq in E as ->. exfalso. apply Hfresh.
    apply list_elem_of_In. by apply (in_map fst _ (k, v)).
Qed.



(** ** Break-even on fixed costs the profit covers *)

(** The per-customer figures of the totals. *)
Lemma totals_per_customer subscription_results additional_results :
  let t :=
    RevenueCalculator._calculate_totals subscription_results additional_results in
  Totals.revenue_per_customer t
  = (if Qgtb (Totals.total_customers t) 0
     then Totals.total_revenue t / Totals.total_customers t else 0)
  /\ Totals.cost_per_customer t
     = (if Qgtb (Totals.total_customers t) 0
        then Totals.total_cost t / Totals.total_customers t else 0)
  /\ Totals.profit_per_customer t
     = (if Qgtb (Totals.total_customers t) 0
        then Totals.total_profit t / Totals.total_customers t else 0).
Proof.
  unfold RevenueCalculator._calculate_totals.
  destruct (fold_left _ (map snd subscription_results) _) as [[c r] n].
  destruct (fold_left _ (map snd additional_results) _) as [c' r'].
  by simpl.
Qed.

(** An entry whose target the current count has reached. *)
Lemma break_even_entry_reached ln totals fixed_costs scenario_params :
  0 < Totals.profit_per_customer totals ->
  fixed_costs / Totals.profit_per_customer totals
  <= Totals.total_customers totals ->
  exists e,
    Forecaster.break_even_entry ln totals fixed_costs scenario_params = Ok e
    /\ BreakEven.months_to_break_even e = Months (Fin 0)
    /\ BreakEven.break_even_customers e
       = Count (py_int (fixed_costs / Totals.profit_per_customer totals))
    /\ BreakEven.current_customers e = Totals.total_customers totals.
Proof.
  intros Havg Hbe. unfold Forecaster.break_even_entry. simpl.
  apply Qgtb_true in Havg as ->. simpl.
  apply Qgtb_false in Hbe as Hgt. rewrite Hgt, andb_false_r. simpl.
  unfold Qgeb. apply Qle_bool_iff in Hbe as ->.
  eexists. by split_conj.
Qed.

Lemma break_even_loop ln totals fixed_costs
    (P : BreakEven.t -> Prop) (scenarios : list (string * Scenario.t)) :
  (forall scenario_params,
      exists e,
        Forecaster.break_even_entry ln totals fixed_costs scenario_params = Ok e
        /\ P e) ->
  forall done break_even_data,
    (forall name, is_Some (dget break_even_data name) <-> In name done) ->
    (forall name e, dget break_even_data name = Some e -> P e) ->
    exists break_even_data',
      for_each scenarios break_even_data
        (fun break_even_data '(scenario_name, scenario_params) =>
           e ← Forecaster.break_even_entry ln totals fixed_costs
                 scenario_params;
           Ok (dset break_even_data scenario_name e))
      = Ok break_even_data'
      /\ (forall name,
             is_Some (dget break_even_data' name) <->
             In name (done ++ map fst scenarios)%list)
      /\ forall name e, dget break_even_data' name = Some e -> P e.
Proof.
  intros Hentry.
  induction scenarios as [|[scenario_name scenario_params] scenarios IH];
    intros done break_even_data Hkeys Hvalues.
  - exists break_even_data. simpl. rewrite app_nil_r. by split_conj.
  - destruct (Hentry scenario_params) as (e & He & HP).
    cbn [for_each]. rewrite He. cbn [mbind result_bind].
    destruct (IH (done ++ [scenario_name])%list
                (dset break_even_data scenario_name e))
      as (data' & Hloop & Hkeys' & Hvalues').
    + intros name. destruct (decide (name = scenario_name)) as [->|Hne].
      * rewrite dget_dset_eq. split; [|by eauto].
        intros _. apply in_or_app. right. by left.
      * rewrite dget_dset_ne, Hkeys by done. split; intros Hin.
        -- apply in_or_app. by left.
        -- apply in_app_or in Hin as [Hin | [<- | []]]; done.
    + intros name e' Hget. destruct (decide (name = scenario_name)) as [->|Hne].
      * rewrite dget_dset_eq in Hget. by injection Hget as <-.
      * rewrite dget_dset_ne in Hget by done. by eapply Hvalues.
    + exists data'. split; [exact Hloop|]. split; [|exact Hvalues'].
      intros name. rewrite Hkeys'. cbn [map fst]. by rewrite <- app_assoc.
Qed.



(** ** The figures of the comprehensive results *)

Lemma In_dset {V} (d : list (string * V)) (k k' : string) (v v' : V) :
  In (k, v) (dset d k' v') -> In (k, v) d \/ (k = k' /\ v = v').
Proof.
  induction d as [|[k0 v0] d IH]; simpl.
  - intros [E | []]. injection E as <- <-. by right.
  - destruct (String.eqb k0 k') eqn:E; simpl.
    + apply String.eqb_eq in E as ->.
      intros [E' | Hin]; [injection E' as <- <-; by right | left; by right].
    + intros [E' | Hin]; [left; by left|].
      destruct (IH Hin) as [H | H]; [left; by right | by right].
Qed.

Lemma subscription_row_consistent combo customers renewals w row w' :
  RevenueCalculator.subscription_row combo customers renewals w = (Ok row, w') ->
  0 < customers ->
  row_consistent row.
Proof.
  unfold RevenueCalculator.subscription_row, mbind, M_bind.
  destruct (DataManager.calculate_package_cost _ _ w) as [[p|e] w1]; [|done].
  unfold lift.
  destruct (Qgtb (Package.revenue p * customers) 0) eqn:Hpos.
  - unfold truediv.
    destruct (Qeq_bool _ 0); simpl; [done|].
    intros H Hc. injection H as <- _. unfold row_consistent. simpl.
    rewrite Hpos. by split_conj.
  - intros H Hc. injection H as <- _. unfold row_consistent. simpl.
    rewrite Hpos. by split_conj.
Qed.

Lemma subscription_step_consistent acc combo w acc' w' :
  RevenueCalculator.subscription_step acc combo w = (Ok acc', w') ->
  (forall name row, In (name, row) acc -> row_consistent row) ->
  forall name row, In (name, row) acc' -> row_consistent row.
Proof.
  unfold RevenueCalculator.subscription_step.
  unfold mbind at 1, M_bind.
  destruct (RevenueCalculator.count_of _ "customers" w) as [[c|e] w1]; [|done].
  unfold mbind at 1, M_bind.
  destruct (RevenueCalculator.count_of _ "renewals" w1) as [[r|e] w2]; [|done].
  destruct (Qgtb c 0) eqn:Hpos.
  - apply Qgtb_true in Hpos. unfold mbind, M_bind.
    destruct (RevenueCalculator.subscription_row combo c r w2)
      as [[row|e] w3] eqn:Hrow; [|done].
    intros H Hacc name row' Hin. injection H as <- _.
    apply In_dset in Hin as [Hin | [_ ->]]; [by eapply Hacc|].
    by eapply subscription_row_consistent.
  - intros H. by injection H as <- _.
Qed.

(** Every row of the subscription results is consistent. *)
Lemma subscription_rows_consistent w subs w' :
  RevenueCalculator._calculate_subscription_results w = (Ok subs, w') ->
  forall name row, In (name, row) subs -> row_consistent row.
Proof.
  unfold RevenueCalculator._calculate_subscription_results.
  generalize DataManager.get_subscription_combinations.
  assert (Hnil : forall (name : string) (row : SubRow.t),
             In (name, row) [] -> row_consistent row) by (by intros ? ? []).
  revert Hnil. generalize (@nil (string * SubRow.t)). intros acc Hacc l.
  revert acc w Hacc. induction l as [|combo l IH]; intros acc w Hacc.
  - intros H. by injection H as <- _.
  - rewrite for_each_cons.
    destruct (RevenueCalculator.subscription_step acc combo w)
      as [[acc1|e] w1] eqn:Hstep; [|done].
    apply IH. by eapply subscription_step_consistent.
Qed.

(** The five services: their names, and the profit of each. *)
Lemma services_of_shape pricing i services :
  DataManager.services_of pricing i = Ok services ->
  map fst services
  = ["Events & Challenges"; "Additional Bracelets"; "CBYI Services";
     "Non-Subscriber Bracelets"; "Car Rental"]
  /\ (forall name service,
         In (name, service) services ->
         Service.profit service
         == Service.revenue service - Service.cost service)
  /\ exists events,
       dget services "Events & Challenges" = Some events
       /\ Service.cost events = 0
       /\ Service.profit events = Service.revenue events.
Proof.
  unfold DataManager.services_of.
  repeat match goal with
         | |- context [mbind _ ?r] =>
             match r with
             | DataManager.fee_revenue _ _ _ _ _ => destruct r; [|done]
             | DataManager.price_times _ _ _ _ _ => destruct r; [|done]
             end; cbn [mbind result_bind]
         end.
  intros H. injection H as <-. split; [done|]. split.
  - intros name service Hin. simpl in Hin.
    repeat (destruct Hin as [E | Hin];
            [injection E as _ <-; simpl; ring|]).
    destruct Hin.
  - eexists. by split_conj.
Qed.

Lemma totals_sums subscription_results additional_results :
  let t :=
    RevenueCalculator._calculate_totals subscription_results additional_results in
  Totals.total_cost t
  == total_of SubRow.total_cost (map snd subscription_results)
     + total_of Service.cost (map snd additional_results)
  /\ Totals.total_revenue t
     == total_of SubRow.total_revenue (map snd subscription_results)
        + total_of Service.revenue (map snd additional_results)
  /\ Totals.total_customers t
     == total_of SubRow.customers (map snd subscription_results).
Proof.
  unfold RevenueCalculator._calculate_totals.
  assert (Hsubs : forall (l : list SubRow.t) c0 r0 n0,
    let '(c, r, n) :=
      fold_left
        (fun '(c, r, n) sub_data =>
           (c + SubRow.total_cost sub_data, r + SubRow.total_revenue sub_data,
            n + SubRow.customers sub_data)) l (c0, r0, n0) in
    c == c0 + total_of SubRow.total_cost l
    /\ r == r0 + total_of SubRow.total_revenue l
    /\ n == n0 + total_of SubRow.customers l).
  { induction l as [|x l IH]; intros c0 r0 n0; simpl.
    - split_conj; ring.
    - specialize (IH (c0 + SubRow.total_cost x) (r0 + SubRow.total_revenue x)
                    (n0 + SubRow.customers x)).
      destruct (fold_left _ l _) as [[c r] n].
      destruct IH as (Hc & Hr & Hn). rewrite Hc, Hr, Hn.
      split_conj; ring. }
  assert (Hsvcs : forall (l : list Service.t) c0 r0,
    let '(c, r) :=
      fold_left
        (fun '(c, r) service_data =>
           (c + Service.cost service_data, r + Service.revenue service_data))
        l (c0, r0) in
    c == c0 + total_of Service.cost l /\ r == r0 + total_of Service.revenue l).
  { induction l as [|x l IH]; intros c0 r0; simpl.
    - split; ring.
    - specialize (IH (c0 + Service.cost x) (r0 + Service.revenue x)).
      destruct (fold_left _ l _) as [c r].
      destruct IH as (Hc & Hr). rewrite Hc, Hr. split; ring. }
  specialize (Hsubs (map snd subscription_results) 0 0 0).
  destruct (fold_left _ (map snd subscription_results) _) as [[c r] n].
  specialize (Hsvcs (map snd additional_results) c r).
  destruct (fold_left _ (map snd additional_results) _) as [c' r'].
  destruct Hsubs as (Hc & Hr & Hn), Hsvcs as (Hc' & Hr'). simpl.
  rewrite Hc', Hr', Hc, Hr, Hn. split_conj; ring.
Qed.

Lemma total_of_profit {A} (profit revenue cost : A -> Q) (l : list A) :
  (forall x, In x l -> profit x == revenue x - cost x) ->
  total_of profit l == total_of revenue l - total_of cost l.
Proof.
  induction l as [|x l IH]; intros H; simpl; [ring|].
  rewrite (H x) by (by left). rewrite IH; [ring|].
  intros y Hy. apply H. by right.
Qed.



(** ** What a calculation writes *)

Lemma ignores_session_ret {A} (a : A) : ignores_session (mret a).
Proof. done. Qed.

Lemma ignores_session_lift {A} (r : result A) : ignores_session (lift r).
Proof. done. Qed.

Lemma ignores_session_bind {A B} (m : M A) (f : A -> M B) :
  read_only m -> ignores_session m -> (forall a, ignores_session (f a)) ->
  ignores_session (m ≫= f).
Proof.
  intros Hro Hm Hf w s. unfold mbind, M_bind.
  pose proof (Hro w) as H1. pose proof (Hro (with_session s w)) as H2.
  specialize (Hm w s).
  destruct (m w) as [r1 w1], (m (with_session s w)) as [r2 w2].
  simpl in *. subst. destruct r1 as [a|e]; [apply Hf | done].
Qed.

Lemma ignores_session_for_each {A B} (l : list A) (body : B -> A -> M B) :
  (forall acc x, read_only (body acc x)) ->
  (forall acc x, ignores_session (body acc x)) ->
  forall acc, ignores_session (for_each l acc body).
Proof.
  intros Hro Hbody. induction l as [|x l IH]; intros acc.
  - apply ignores_session_ret.
  - apply (ignores_session_bind (body acc x)); [apply Hro | apply Hbody | done].
Qed.

Lemma ignores_session_count_of key field :
  ignores_session (RevenueCalculator.count_of key field).
Proof.
  intros w s. unfold RevenueCalculator.count_of, mbind, M_bind, get_inputs.
  simpl. destruct (dget (inputs w) key) as [[q|l]|]; try done.
  unfold deref. simpl. by destruct (heap w !! l).
Qed.

Lemma ignores_session_calculate_package_cost ty duration :
  ignores_session (DataManager.calculate_package_cost ty duration).
Proof. by intros w s. Qed.

Lemma ignores_session_subscription_row combo customers renewals :
  ignores_session (RevenueCalculator.subscription_row combo customers renewals).
Proof.
  apply ignores_session_bind;
    [apply read_only_calculate_package_cost
    |apply ignores_session_calculate_package_cost|].
  intros p. apply ignores_session_bind; [done | done |].
  intros margin. apply ignores_session_ret.
Qed.

Lemma ignores_session_subscription_step acc combo :
  ignores_session (RevenueCalculator.subscription_step acc combo).
Proof.
  apply ignores_session_bind;
    [apply read_only_count_of | apply ignores_session_count_of|].
  intros c. apply ignores_session_bind;
    [apply read_only_count_of | apply ignores_session_count_of|].
  intros r. destruct (Qgtb c 0); [|done].
  apply ignores_session_bind;
    [apply read_only_subscription_row
    |apply ignores_session_subscription_row | done].
Qed.

Lemma ignores_session_subscription_results :
  ignores_session RevenueCalculator._calculate_subscription_results.
Proof.
  apply ignores_session_for_each;
    [apply read_only_subscription_step
    |apply ignores_session_subscription_step].
Qed.

Lemma ignores_session_additional_services :
  ignores_session RevenueCalculator._calculate_additional_services.
Proof. by intros w s. Qed.

(** A second calculation returns what the first did. *)
Lemma comprehensive_results_again w results w' :
  RevenueCalculator.calculate_comprehensive_results w = (Ok results, w') ->
  RevenueCalculator.calculate_comprehensive_results w' = (Ok results, w').
Proof.
  intros Hrun.
  destruct (comprehensive_results_inv _ _ _ Hrun)
    as (subs & svcs & Hsubs & Hsvcs & Hresults & Hw).
  assert (Hw' : w' = with_session (session w') w) by (by rewrite Hw).
  pose proof (ignores_session_subscription_results w (session w')) as H1.
  pose proof (read_only_subscription_results (with_session (session w') w))
    as H1'.
  pose proof (ignores_session_additional_services w (session w')) as H2.
  pose proof (read_only_additional_services (with_session (session w') w))
    as H2'.
  rewrite <- Hw' in H1, H1', H2, H2'.
  rewrite Hsubs in H1. rewrite Hsvcs in H2.
  unfold RevenueCalculator.calculate_comprehensive_results.
  destruct (RevenueCalculator._calculate_subscription_results w')
    as [r1 w1] eqn:E1. cbn [fst snd] in H1, H1'. subst r1 w1.
  rewrite (bind_returns _ _ _ _ _ E1).
  destruct (RevenueCalculator._calculate_additional_services w')
    as [r2 w2] eqn:E2. cbn [fst snd] in H2, H2'. subst r2 w2.
  rewrite (bind_returns _ _ _ _ _ E2).
  cbv zeta. unfold mbind, M_bind, get_session, set_session, mret, M_ret.
  rewrite Hresults. f_equal. rewrite Hw, Hresults. reflexivity.
Qed.

(** A calculation that raises leaves the world as it was. *)
Lemma comprehensive_results_raise w e w' :
  RevenueCalculator.calculate_comprehensive_results w = (Raise e, w') ->
  w' = w.
Proof.
  intros Hrun.
  unfold RevenueCalculator.calculate_comprehensive_results in Hrun.
  unfold mbind at 1, M_bind in Hrun.
  pose proof (read_only_subscription_results w) as Hs.
  destruct (RevenueCalculator._calculate_subscription_results w)
    as [[subs|e1] w1]; simpl in Hs; subst w1;
    [|by injection Hrun as _ <-].
  unfold mbind at 1, M_bind in Hrun.
  pose proof (read_only_additional_services w) as Ha.
  destruct (RevenueCalculator._calculate_additional_services w)
    as [[svcs|e1] w1]; simpl in Ha; subst w1;
    [done | by injection Hrun as _ <-].
Qed.

(** X13. A calculation writes the last calculation of the session and
    nothing else.  When the comprehensive results are returned, the world
    is the one before with their totals as the last calculation, and a
    second calculation there returns the same results and leaves the same
    world; when the calculation raises, the world is as it was. *)
Theorem calculation_writes_only_the_last_calculation (w : world) :
  match RevenueCalculator.calculate_comprehensive_results w with
  | (Ok results, w') =>
      w' = with_last_calculation (Results.totals results) w
      /\ RevenueCalculator.calculate_comprehensive_results w'
         = (Ok results, w')
  | (Raise e, w') => w' = w
  end.
Proof.
  destruct (RevenueCalculator.calculate_comprehensive_results w)
    as [[results|e] w'] eqn:Hrun.
  - split; [|by apply (comprehensive_results_again w)].
    by destruct (comprehensive_results_inv _ _ _ Hrun)
      as (subs & svcs & _ & _ & _ & Hw).
  - by apply (comprehensive_results_raise w e).
Qed.

(** ** The summary and the breakdown *)

(** The fold of [max]: the first of the greatest items. *)
Lemma py_max_fold {A} (key : A -> Q) (x : A) (l : list A) :
  let best :=
    fold_left (fun best y => if Qgtb (key y) (key best) then y else best) l x in
  exists i,
    (x :: l) !! i = Some best
    /\ (forall y, In y (x :: l) -> key y <= key best)
    /\ forall j y, (j < i)%nat -> (x :: l) !! j = Some y -> key y < key best.
Proof.
  induction l as [|z l IH] using rev_ind; simpl.
  - exists 0%nat. split_conj; [done | | intros; lia].
    intros y [<- | []]. apply Qle_refl.
  - rewrite fold_left_app. simpl.
    destruct IH as (i & Hi & Hmax & Hfirst).
    set (best := fold_left _ l x) in *.
    destruct (Qgtb (key z) (key best)) eqn:Hgt.
    + apply Qgtb_true in Hgt. exists (S (length l)). split_conj.
      * simpl. rewrite lookup_app_r by lia.
        by replace (length l - length l)%nat with 0%nat by lia.
      * intros y [<- | Hin].
        -- apply Qlt_le_weak. eapply Qle_lt_trans; [|exact Hgt].
           apply Hmax. by left.
        -- apply in_app_or in Hin as [Hin | [<- | []]]; [|apply Qle_refl].
           apply Qlt_le_weak. eapply Qle_lt_trans; [|exact Hgt].
           apply Hmax. by right.
      * intros j y Hj Hy. eapply Qle_lt_trans; [|exact Hgt]. apply Hmax.
        destruct j as [|j]; simpl in Hy; [injection Hy as <-; by left|].
        right. rewrite lookup_app_l in Hy by lia.
        by eapply list_elem_of_In, list_elem_of_lookup_2.
    + apply Qgtb_false in Hgt. exists i. split_conj.
      * destruct i as [|i]; simpl in *; [done|].
        rewrite lookup_app_l; [done|]. by eapply lookup_lt_Some.
      * intros y [<- | Hin]; [apply Hmax; by left|].
        apply in_app_or in Hin as [Hin | [<- | []]]; [|done].
        apply Hmax. by right.
      * intros j y Hj Hy. apply (Hfirst j y Hj).
        destruct j as [|j]; simpl in *; [done|].
        rewrite lookup_app_l in Hy; [done|].
        apply lookup_lt_Some in Hi. destruct i; simpl in *; lia.
Qed.

(** X14. The best subscription of the summary is the first, in the order
    of the results, of the subscriptions with the greatest total profit:
    no subscription has a greater profit, and none before it has as great a
    one.  Without any subscription the summary names ['None'] with a profit
    of 0; with some it names one of them even when all lose money.  The two
    counts are the numbers of subscriptions and of services. *)
Theorem best_subscription_is_the_first_most_profitable (results : Results.t) :
  let summary := RevenueCalculator._create_summary results in
  let subscriptions := Results.subscriptions results in
  Summary.subscription_types_count summary = length subscriptions
  /\ Summary.additional_services_count summary
     = length (Results.additional_services results)
  /\ (forall name row,
         In (name, row) subscriptions ->
         SubRow.total_profit row <= Summary.best_subscription_profit summary)
  /\ match subscriptions with
     | [] =>
         Summary.best_subscription summary = "None"
         /\ Summary.best_subscription_profit summary = 0
     | _ :: _ =>
         exists i row,
           subscriptions !! i = Some (Summary.best_subscription summary, row)
           /\ SubRow.total_profit row
              = Summary.best_subscription_profit summary
           /\ forall j name' row',
                (j < i)%nat ->
                subscriptions !! j = Some (name', row') ->
                SubRow.total_profit row'
                < Summary.best_subscription_profit summary
     end.
Proof.
  intros summary subscriptions. subst summary subscriptions.
  unfold RevenueCalculator._create_summary. simpl.
  destruct (Results.subscriptions results) as [|x l]; simpl.
  - split_conj; first [done | by intros ? ? []].
  - destruct (py_max_fold (fun x : string * SubRow.t => SubRow.total_profit x.2)
                x l) as (i & Hi & Hmax & Hfirst).
    simpl in Hi, Hmax, Hfirst.
    set (best := fold_left _ l x) in *.
    split_conj; try done.
    + intros name row Hin. by apply (Hmax (name, row)).
    + exists i, best.2. split_conj; [by destruct best | done |].
      intros j name' row' Hj Hget. by apply (Hfirst j (name', row')).
Qed.

Lemma fold_left_snoc_map {A B} (g : list B -> A -> list B) (f : A -> B)
    (l : list A) (acc : list B) :
  (forall acc x, g acc x = (acc ++ [f x])%list) ->
  fold_left g l acc = (acc ++ map f l)%list.
Proof.
  intros Hg. revert acc. induction l as [|x l IH]; intros acc; simpl.
  - by rewrite app_nil_r.
  - by rewrite IH, Hg, <- app_assoc.
Qed.

Lemma total_of_app {A} (f : A -> Q) (l k : list A) :
  total_of f (l ++ k) == total_of f l + total_of f k.
Proof. induction l as [|x l IH]; simpl; [ring | rewrite IH; ring]. Qed.

Lemma total_of_map {A B} (f : B -> Q) (g : A -> B) (l : list A) :
  total_of f (map g l) = total_of (fun x => f (g x)) l.
Proof. induction l as [|x l IH]; simpl; [done | by rewrite IH]. Qed.

Lemma breakdown_lines subscription_results additional_results :
  RevenueCalculator._create_breakdown subscription_results additional_results
  = (map subscription_line subscription_results
     ++ map service_line additional_results)%list.
Proof.
  unfold RevenueCalculator._create_breakdown. cbv zeta.
  rewrite (fold_left_snoc_map _ subscription_line subscription_results [])
    by (by intros acc [name data]).
  by rewrite (fold_left_snoc_map _ service_line additional_results)
    by (by intros acc [name data]).
Qed.



(** ** The performance ranking *)

Section Sorting.
Context {A : Type} (key : A -> Q).
Implicit Types (x : A) (l : list A).

Lemma insert_by_perm x l :
  Permutation (RevenueCalculator.insert_by key x l) (x :: l).
Proof.
  induction l as [|y l IH]; simpl; [done|].
  destruct (Qgtb (key y) (key x)); [|done].
  rewrite IH. apply perm_swap.
Qed.

Lemma sorted_reverse_perm l :
  Permutation (RevenueCalculator.sorted_reverse key l) l.
Proof.
  induction l as [|x l IH]; simpl; [done|].
  by rewrite insert_by_perm, IH.
Qed.

Lemma insert_by_descending x l :
  StronglySorted (fun a b => key b <= key a) l ->
  StronglySorted (fun a b => key b <= key a)
    (RevenueCalculator.insert_by key x l).
Proof.
  induction 1 as [|y l Hs IH Hall]; simpl.
  - repeat constructor.
  - destruct (Qgtb (key y) (key x)) eqn:Hgt.
    + apply Qgtb_true in Hgt. constructor; [done|].
      rewrite Forall_forall. intros z Hz.
      apply list_elem_of_In in Hz.
      apply (Permutation_in _ (insert_by_perm x l)) in Hz as [<- | Hz].
      * by apply Qlt_le_weak.
      * rewrite Forall_forall in Hall. by apply Hall, list_elem_of_In.
    + apply Qgtb_false in Hgt. constructor; [by constructor|].
      constructor; [done|].
      rewrite Forall_forall in Hall |- *. intros z Hz.
      eapply Qle_trans; [by apply Hall | done].
Qed.

Lemma sorted_reverse_descending l :
  StronglySorted (fun a b => key b <= key a)
    (RevenueCalculator.sorted_reverse key l).
Proof.
  induction l as [|x l IH]; simpl; [constructor|].
  by apply insert_by_descending.
Qed.

Lemma insert_by_stable k x l :
  with_key key k (RevenueCalculator.insert_by key x l)
  = with_key key k (x :: l).
Proof.
  unfold with_key. induction l as [|y l IH]; simpl; [done|].
  destruct (Qgtb (key y) (key x)) eqn:Hgt; [|done].
  apply Qgtb_true in Hgt.
  rewrite (filter_cons _ x), (filter_cons _ y), (filter_cons _ y), IH,
    (filter_cons _ x).
  destruct (decide (Qeq_bool (key y) k = true)) as [Hy|Hy];
    destruct (decide (Qeq_bool (key x) k = true)) as [Hx|Hx]; try done.
  apply Qeq_bool_iff in Hx, Hy. rewrite Hx, Hy in Hgt.
  by apply Qlt_irrefl in Hgt.
Qed.

Lemma sorted_reverse_stable k l :
  with_key key k (RevenueCalculator.sorted_reverse key l) = with_key key k l.
Proof.
  induction l as [|x l IH]; simpl; [done|].
  rewrite insert_by_stable. unfold with_key in *.
  by rewrite !filter_cons, IH.
Qed.

End Sorting.

Lemma enumerate_spec {A} (l : list A) (start : Z) :
  map fst (RevenueCalculator.enumerate l start)
  = py_range start (start + Z.of_nat (length l))
  /\ map snd (RevenueCalculator.enumerate l start) = l.
Proof.
  revert start. induction l as [|x l IH]; intros start.
  - unfold py_range. cbn [length RevenueCalculator.enumerate map].
    by replace (Z.to_nat (start + Z.of_nat 0 - start)) with 0%nat by lia.
  - cbn [RevenueCalculator.enumerate map fst snd length].
    destruct (IH (start + 1)%Z) as [-> ->]. split; [|done].
    unfold py_range.
    replace (Z.to_nat (start + 1 + Z.of_nat (length l) - (start + 1)))
      with (length l) by lia.
    replace (Z.to_nat (start + Z.of_nat (S (length l)) - start))
      with (S (length l)) by lia.
    cbn [seq map]. f_equal; [lia|].
    rewrite <- seq_shift, map_map. apply map_ext. intros i. lia.
Qed.

Lemma performance_ranking_lines w results w' :
  RevenueCalculator.calculate_comprehensive_results w = (Ok results, w') ->
  RevenueCalculator.get_subscription_performance_ranking w
  = (Ok (map performance_line
           (RevenueCalculator.enumerate
              (RevenueCalculator.sorted_reverse
                 (fun x : string * SubRow.t => SubRow.total_profit x.2)
                 (Results.subscriptions results)) 1)), w').
Proof.
  intros Hrun. unfold RevenueCalculator.get_subscription_performance_ranking.
  rewrite (bind_returns _ _ _ _ _ Hrun). cbv zeta.
  by rewrite (fold_left_snoc_map _ performance_line)
    by (by intros acc [rank [name data]]).
Qed.

(** X16. The performance ranking lists every subscription of the
    comprehensive results once, under the ranks 1, 2, ... in order, with
    its total profit, from the greatest profit to the least; subscriptions
    of equal profit keep the order they have in the results. *)
Theorem performance_ranking_sorts_by_profit
    (w w' : world) (results : Results.t) :
  RevenueCalculator.calculate_comprehensive_results w = (Ok results, w') ->
  let subscriptions := Results.subscriptions results in
  exists ranking ranked,
    RevenueCalculator.get_subscription_performance_ranking w
    = (Ok ranking, w')
    /\ Permutation ranked subscriptions
    /\ map Performance.subscription_type ranking = map fst ranked
    /\ map Performance.total_profit ranking
       = map (fun x => SubRow.total_profit x.2) ranked
    /\ map Performance.rank ranking
       = py_range 1 (1 + Z.of_nat (length subscriptions))
    /\ (forall i j a b,
           (i <= j)%nat -> ranking !! i = Some a -> ranking !! j = Some b ->
           Performance.total_profit b <= Performance.total_profit a)
    /\ forall profit,
         with_key (fun x => SubRow.total_profit x.2) profit ranked
         = with_key (fun x => SubRow.total_profit x.2) profit subscriptions.
Proof.
  intros Hrun subscriptions.
  set (key := fun x : string * SubRow.t => SubRow.total_profit x.2).
  set (ranked := RevenueCalculator.sorted_reverse key subscriptions).
  exists (map performance_line (RevenueCalculator.enumerate ranked 1)), ranked.
  destruct (enumerate_spec ranked 1) as [Hranks Hitems].
  pose proof (sorted_reverse_perm key subscriptions) as Hperm. fold ranked in Hperm.
  split; [by apply performance_ranking_lines|].
  split; [exact Hperm|].
  split.
  { transitivity (map fst (map snd (RevenueCalculator.enumerate ranked 1)));
      [by rewrite !map_map | by rewrite Hitems]. }
  split.
  { transitivity (map key (map snd (RevenueCalculator.enumerate ranked 1)));
      [by rewrite !map_map | by rewrite Hitems]. }
  split.
  { transitivity (map fst (RevenueCalculator.enumerate ranked 1));
      [by rewrite !map_map|].
    by rewrite Hranks, (Permutation_length Hperm). }
  split; [|intros profit; apply sorted_reverse_stable].
  intros i j a b Hij Ha Hb.
  rewrite list_lookup_fmap in Ha, Hb.
  destruct (RevenueCalculator.enumerate ranked 1 !! i) as [xa|] eqn:Ea;
    [|done].
  destruct (RevenueCalculator.enumerate ranked 1 !! j) as [xb|] eqn:Eb;
    [|done].
  injection Ha as <-. injection Hb as <-. simpl.
  assert (Ha : ranked !! i = Some xa.2).
  { rewrite <- Hitems. by rewrite list_lookup_fmap, Ea. }
  assert (Hb : ranked !! j = Some xb.2).
  { rewrite <- Hitems. by rewrite list_lookup_fmap, Eb. }
  destruct (decide (i = j)) as [->|Hne].
  - rewrite Ha in Hb. injection Hb as ->. apply Qle_refl.
  - apply (StronglySorted_lookup (fun a b => key b <= key a) ranked i j);
      [apply sorted_reverse_descending | lia | done | done].
Qed.

Lemma performance_ranking_sorts_by_profit_witness :
  exists results w' ranking,
    RevenueCalculator.calculate_comprehensive_results DataManager.init
    = (Ok results, w')
    /\ RevenueCalculator.get_subscription_performance_ranking DataManager.init
       = (Ok ranking, w')
    /\ map Performance.rank ranking = [1; 2; 3; 4; 5; 6]%Z
    /\ forall i j a b,
         (i <= j)%nat -> ranking !! i = Some a -> ranking !! j = Some b ->
         Performance.total_profit b <= Performance.total_profit a.
Proof.
  assert (exists results w',
             RevenueCalculator.calculate_comprehensive_results DataManager.init
             = (Ok results, w')
             /\ length (Results.subscriptions results) = 6%nat)
    as (results & w' & Hrun & Hlen).
  { do 2 eexists. split; [vm_compute; reflexivity | by vm_compute]. }
  destruct (performance_ranking_sorts_by_profit DataManager.init w' results
              Hrun)
    as (ranking & ranked & Hranking & _ & _ & _ & Hranks & Hsorted & _).
  exists results, w', ranking.
  split; [exact Hrun|]. split; [exact Hranking|]. split; [|exact Hsorted].
  by rewrite Hranks, Hlen.
Defined.



(** ** The growth impact *)

Lemma geometric_sum_succ growth_rate n :
  geometric_sum growth_rate (S n)
  == geometric_sum growth_rate n + (1 + growth_rate) ^ (1 + Z.of_nat n).
Proof.
  unfold geometric_sum. rewrite seq_S, map_app, total_of_app. simpl. ring.
Qed.

Lemma Qpower_succ (a : Q) (n : nat) :
  a ^ (1 + Z.of_nat n) == a * a ^ Z.of_nat n.
Proof. rewrite Qpower_plus' by lia. by rewrite Qpower_1_r. Qed.

(** The closed form of the sum. *)
Lemma geometric_sum_closed growth_rate n :
  growth_rate * geometric_sum growth_rate n
  == (1 + growth_rate) * ((1 + growth_rate) ^ Z.of_nat n - 1).
Proof.
  induction n as [|n IH].
  - unfold geometric_sum. simpl. ring.
  - rewrite geometric_sum_succ, Qmult_plus_distr_r, IH.
    rewrite Nat2Z.inj_succ, <- Z.add_1_l, !Qpower_succ. ring.
Qed.

Lemma geometric_sum_flat growth_rate n :
  growth_rate == 0 -> geometric_sum growth_rate n == inject_Z (Z.of_nat n).
Proof.
  intros Hg. induction n as [|n IH].
  - reflexivity.
  - rewrite geometric_sum_succ, IH, Nat2Z.inj_succ, <- Z.add_1_l.
    rewrite inject_Z_plus.
    assert (E : 1 + growth_rate == 1) by (rewrite Hg; ring).
    rewrite E, Qpower_1. ring.
Qed.

Lemma impact_loop monthly_revenue monthly_cost growth_rate n :
  impact_invariant monthly_revenue monthly_cost growth_rate n
    (fold_left
       (RevenueCalculator.impact_step monthly_revenue monthly_cost growth_rate)
       (map (fun i => (1 + Z.of_nat i)%Z) (seq 0 n))
       {| RevenueCalculator.projected_data := [];
          RevenueCalculator.impact_cumulative_revenue := 0;
          RevenueCalculator.impact_cumulative_profit := 0 |}).
Proof.
  induction n as [|n IH].
  - unfold impact_invariant, geometric_sum. simpl.
    split_conj; [ring | ring | done | by intros i row; rewrite lookup_nil].
  - rewrite seq_S, map_app, fold_left_app. simpl.
    destruct IH as (Hr & Hp & Hlen & Hrows).
    set (s := fold_left _ _ _) in *.
    unfold impact_invariant. simpl. split_conj.
    + rewrite Hr, geometric_sum_succ. ring.
    + rewrite Hp, geometric_sum_succ. ring.
    + rewrite length_app. simpl. lia.
    + intros i row Hi.
      apply lookup_app_Some in Hi as [Hi | [Hge Hi]]; [by apply Hrows|].
      rewrite Hlen in Hge, Hi.
      destruct (i - n)%nat eqn:E; simpl in Hi; [|done].
      assert (i = n) as -> by lia. injection Hi as <-. simpl.
      split_conj; try done.
      rewrite Hr, geometric_sum_succ. ring.
Qed.



(** ** The summary table of the data manager *)

Lemma summary_step_inv data combo w data' w' :
  DataManager.summary_step data combo w = (Ok data', w') ->
  w' = w
  /\ exists row,
       data' = (data ++ [row])%list
       /\ SummaryRow.subscription_type row = Combo.type combo
       /\ SummaryRow.duration_months row = Combo.duration combo
       /\ forall acc,
            RevenueCalculator.subscription_step acc combo w
            = (Ok (if Qgtb (SummaryRow.customers row) 0
                   then dset acc (Combo.display_name combo)
                          (sub_of_summary row)
                   else acc), w).
Proof.
  unfold DataManager.summary_step, RevenueCalculator.subscription_step.
  change DataManager.counts_get with RevenueCalculator.count_of.
  fold (input_key combo).
  unfold mbind at 1, M_bind.
  pose proof (read_only_calculate_package_cost (Combo.type combo)
                (Combo.duration combo) w) as Hp.
  destruct (DataManager.calculate_package_cost _ _ w) as [[p|e] w1] eqn:Ep;
    [|done]. simpl in Hp. subst w1. cbv zeta.
  unfold mbind at 1, M_bind.
  pose proof (read_only_count_of (input_key combo) "customers" w) as Hc.
  destruct (RevenueCalculator.count_of (input_key combo) "customers" w)
    as [[c|e] w1] eqn:Ec; [|done]. simpl in Hc. subst w1.
  unfold mbind at 1, M_bind.
  pose proof (read_only_count_of (input_key combo) "renewals" w) as Hr.
  destruct (RevenueCalculator.count_of (input_key combo) "renewals" w)
    as [[r|e] w1] eqn:Er; [|done]. simpl in Hr. subst w1.
  unfold mbind at 1, M_bind, lift.
  destruct (if Qgtb (Package.revenue p * c) 0 then _ else _)
    as [margin|e] eqn:Em; [|done].
  intros H. injection H as <- <-. split; [done|].
  eexists. split; [reflexivity|]. simpl. split; [done|]. split; [done|].
  intros acc. unfold mbind at 1, M_bind. rewrite Ec.
  unfold mbind at 1, M_bind. rewrite Er.
  destruct (Qgtb c 0); [|done].
  unfold RevenueCalculator.subscription_row, RevenueCalculator.renewal_price,
    lift.
  unfold mbind, M_bind in *. rewrite Ep, Em. reflexivity.
Qed.

Lemma summary_loop (l : list Combo.t) :
  NoDup (map Combo.display_name l) ->
  forall data rows w w' acc,
    for_each l data DataManager.summary_step w = (Ok rows, w') ->
    (forall combo, In combo l -> dget acc (Combo.display_name combo) = None) ->
    w' = w
    /\ exists rows' subs,
         rows = (data ++ rows')%list
         /\ for_each l acc RevenueCalculator.subscription_step w = (Ok subs, w)
         /\ (forall name, ~ In name (map Combo.display_name l) ->
                          dget subs name = dget acc name)
         /\ Forall2 (summary_agrees subs) l rows'.
Proof.
  induction l as [|combo l IH]; intros Hnd data rows w w' acc Hrun Hfresh.
  - injection Hrun as <- <-. split; [done|]. exists [], acc.
    rewrite app_nil_r. by split_conj.
  - apply NoDup_cons in Hnd as [Hnew Hnd].
    rewrite for_each_cons in Hrun.
    destruct (DataManager.summary_step data combo w) as [[data1|e] w1] eqn:Hstep;
      [|done].
    apply summary_step_inv in Hstep as (-> & row & -> & Hty & Hdur & Hsub).
    set (acc1 := if Qgtb (SummaryRow.customers row) 0
                 then dset acc (Combo.display_name combo) (sub_of_summary row)
                 else acc).
    assert (Hacc1 : forall name, name <> Combo.display_name combo ->
                                 dget acc1 name = dget acc name).
    { intros name Hne. subst acc1. destruct (Qgtb _ 0); [|done].
      by rewrite dget_dset_ne. }
    destruct (IH Hnd _ _ _ _ acc1 Hrun) as (-> & rows' & subs & -> & Hloop
                                            & Hother & Hall).
    { intros combo' Hin. rewrite Hacc1; [apply Hfresh; by right|].
      intros E. apply Hnew. rewrite list_elem_of_In, <- E. by apply in_map. }
    split; [done|]. exists (row :: rows'), subs.
    split; [by rewrite <- app_assoc|]. split.
    { rewrite for_each_cons, Hsub. exact Hloop. }
    split.
    { intros name Hname. simpl in Hname. rewrite Hother by tauto.
      apply Hacc1. intros ->. tauto. }
    constructor; [|done].
    split; [done|]. split; [done|].
    rewrite Hother by (by rewrite <- list_elem_of_In).
    subst acc1. destruct (Qgtb _ 0); [apply dget_dset_eq|].
    apply Hfresh. by left.
Qed.

(** X19. The summary table of the data manager and the subscription
    results of the calculator agree.  Whenever the table is returned, the
    world is unchanged, the subscription results are returned too, and the
    table has one row for each of the six combinations, in order: a row
    with customers has its figures — counts, per-customer cost and revenue,
    totals, margin and renewal revenue — as the entry of its combination in
    the subscription results, and a row without customers has no entry
    there. *)
Theorem summary_table_agrees_with_the_calculator
    (w w' : world) (rows : list SummaryRow.t) :
  DataManager.get_summary_dataframe w = (Ok rows, w') ->
  w' = w
  /\ exists subscription_results,
       RevenueCalculator._calculate_subscription_results w
       = (Ok subscription_results, w)
       /\ Forall2 (summary_agrees subscription_results)
            DataManager.get_subscription_combinations rows.
Proof.
  intros Hrun.
  destruct (summary_loop DataManager.get_subscription_combinations)
    with (data := @nil SummaryRow.t) (rows := rows) (w := w) (w' := w')
         (acc := @nil (string * SubRow.t))
    as (-> & rows' & subs & -> & Hloop & _ & Hall);
    [by apply (bool_decide_unpack _); vm_compute | exact Hrun | done |].
  split; [done|]. by exists subs.
Qed.

Lemma summary_table_agrees_with_the_calculator_witness :
  exists rows subscription_results,
    DataManager.get_summary_dataframe no_custom_month
    = (Ok rows, no_custom_month)
    /\ RevenueCalculator._calculate_subscription_results no_custom_month
       = (Ok subscription_results, no_custom_month)
    /\ length rows = 6%nat
    /\ Forall2 (summary_agrees subscription_results)
         DataManager.get_subscription_combinations rows.
Proof.
  assert (exists rows,
             DataManager.get_summary_dataframe no_custom_month
             = (Ok rows, no_custom_month) /\ length rows = 6%nat)
    as (rows & Hrun & Hlen).
  { eexists. split; [vm_compute; reflexivity | by vm_compute]. }
  destruct (summary_table_agrees_with_the_calculator no_custom_month
              no_custom_month rows Hrun) as (_ & subs & Hsubs & Hall).
  by exists rows, subs.
Defined.

(** ** Updates of the inputs *)

Lemma dget_not_in {V} (d : list (string * V)) (k : string) :
  ~ In k (map fst d) -> dget d k = None.
Proof.
  induction d as [|[k' v] d IH]; simpl; [done|]. intros Hnot.
  destruct (String.eqb k' k) eqn:E.
  - apply String.eqb_eq in E. tauto.
  - apply IH. tauto.
Qed.

Lemma dict_update_lookup {V} (d updates : list (string * V)) (k : string) :
  NoDup (map fst updates) ->
  dget (DataManager.dict_update d updates) k
  = match dget updates k with
    | Some v => Some v
    | None => dget d k
    end.
Proof.
  unfold DataManager.dict_update. revert d.
  induction updates as [|[k0 v0] updates IH]; intros d Hnd; simpl; [done|].
  apply NoDup_cons in Hnd as [Hnew Hnd]. rewrite IH by done.
  destruct (String.eqb k0 k) eqn:E.
  - apply String.eqb_eq in E as ->.
    rewrite dget_not_in by (by rewrite <- list_elem_of_In).
    apply dget_dset_eq.
  - destruct (dget updates k); [done|]. apply dget_dset_ne.
    intros ->. by rewrite String.eqb_refl in E.
Qed.

(** X20. [update_input_data] never raises.  Given updates with distinct
    keys, it leaves an input dictionary in which every key of the updates
    has the value given and every other key the value it had, and makes it
    the input data of the session; the nested count objects, the pricing
    data and the last calculation of the session stay as they were. *)
Theorem update_input_data_overrides_the_given_keys
    (updates : inputs_dict) (w : world) :
  NoDup (map fst updates) ->
  exists w',
    DataManager.update_input_data updates w = (Ok tt, w')
    /\ (forall k,
           dget (inputs w') k
           = match dget updates k with
             | Some v => Some v
             | None => dget (inputs w) k
             end)
    /\ ss_input_data (session w') = Some (inputs w')
    /\ heap w' = heap w
    /\ pricing_data w' = pricing_data w
    /\ ss_pricing_data (session w') = ss_pricing_data (session w)
    /\ last_calculation (session w') = last_calculation (session w).
Proof.
  intros Hnd.
  unfold DataManager.update_input_data, mbind, M_bind, get_inputs, set_inputs,
    get_session, set_session. cbv zeta.
  eexists. split; [reflexivity|]. simpl.
  split_conj; try done. intros k. by apply dict_update_lookup.
Qed.

Lemma update_input_data_overrides_the_given_keys_witness :
  exists w',
    DataManager.update_input_data
      [("challenge_fee", INum 30); ("car_rental_customers", INum 4)]
      DataManager.init = (Ok tt, w')
    /\ dget (inputs w') "challenge_fee" = Some (INum 30)
    /\ dget (inputs w') "adventure_fee" = Some (INum 40)
    /\ ss_input_data (session w') = Some (inputs w')
    /\ last_calculation (session w') = None.
Proof.
  destruct (update_input_data_overrides_the_given_keys
              [("challenge_fee", INum 30); ("car_rental_customers", INum 4)]
              DataManager.init)
    as (w' & Hrun & Hget & Hsession & _ & _ & _ & Hlast).
  - apply (bool_decide_unpack _). by vm_compute.
  - exists w'. split; [exact Hrun|]. split_conj.
    + by rewrite Hget.
    + by rewrite Hget.
    + exact Hsession.
    + by rewrite Hlast.
Defined.

(** ** What an import accepts *)

Lemma validate_names_present data :
  DataManager._validate_pricing_structure data
  = match names_present data with
    | Some b => Ok b
    | None => Raise TypeError
    end.
Proof.
  unfold DataManager._validate_pricing_structure, names_present.
  destruct data as [| b | q | s | l | d]; try reflexivity;
    cbn [DataManager.all_present json_contains mbind result_bind forallb].
  - destruct (is_substring "VIP" s); [|done].
    destruct (is_substring "Normal" s); [|done].
    by destruct (is_substring "Custom" s).
  - destruct (existsb (json_is_str "VIP") l); [|done].
    destruct (existsb (json_is_str "Normal") l); [|done].
    by destruct (existsb (json_is_str "Custom") l).
  - destruct (dmem d "VIP"); [|done].
    destruct (dmem d "Normal"); [|done].
    by destruct (dmem d "Custom").
Qed.

(** X21. The import looks at the top level of the document and no further.
    For a document that parses: a mapping with the keys VIP, Normal and
    Custom, a list with these three strings among its elements, or a string
    in which the three names occur, becomes the pricing data of the manager
    and of the session, whatever else it holds, and the import returns
    [True]; without one of the names the import returns [False] and changes
    nothing; a number, a boolean or [null] makes the import raise
    [TypeError], which it does not catch. *)
Theorem import_checks_the_top_level_only
    (json_loads : string -> result json) (config_json : string) (w : world)
    (data : json) :
  json_loads config_json = Ok data ->
  DataManager.import_pricing_config json_loads config_json w
  = match names_present data with
    | Some true => (Ok true, with_imported data w)
    | Some false => (Ok false, w)
    | None => (Raise TypeError, w)
    end.
Proof.
  intros Hload. unfold DataManager.import_pricing_config. rewrite Hload.
  unfold mbind at 1, M_bind, lift. rewrite validate_names_present.
  by destruct (names_present data) as [[|]|].
Qed.

Lemma import_checks_the_top_level_only_witness :
  DataManager.import_pricing_config
    (fun _ => Ok (JList [JStr "Custom"; JNum 1; JStr "VIP"; JStr "Normal"]))
    "a list" DataManager.init
  = (Ok true,
     with_imported (JList [JStr "Custom"; JNum 1; JStr "VIP"; JStr "Normal"])
       DataManager.init)
  /\ DataManager.import_pricing_config (fun _ => Ok (JStr "VIP, Normal, Custom"))
       "a string" DataManager.init
     = (Ok true, with_imported (JStr "VIP, Normal, Custom") DataManager.init)
  /\ DataManager.import_pricing_config (fun _ => Ok (JNum 7)) "7"
       DataManager.init = (Raise TypeError, DataManager.init).
Proof.
  split_conj.
  - exact (import_checks_the_top_level_only _ "a list" DataManager.init _
             eq_refl).
  - exact (import_checks_the_top_level_only _ "a string" DataManager.init _
             eq_refl).
  - exact (import_checks_the_top_level_only _ "7" DataManager.init _ eq_refl).
Defined.

(** ** The prices of the services *)

Lemma price_times_inv pricing tier item field i key dflt x :
  DataManager.price_times pricing tier item field
    (DataManager.input_get i key dflt) = Ok x ->
  exists p n,
    service_price pricing tier item field = Ok p
    /\ quantity i key dflt = Ok n
    /\ x = p * n.
Proof.
  unfold DataManager.price_times, service_price, quantity.
  destruct (json_subscript pricing tier) as [t|]; [|done].
  cbn [mbind result_bind].
  destruct (json_subscript t item) as [e|]; [|done]. cbn [mbind result_bind].
  destruct (json_subscript e field) as [p|]; [|done]. cbn [mbind result_bind].
  destruct (json_num p) as [q|]; [|done]. cbn [mbind result_bind].
  destruct (DataManager.ival_num _) as [n|]; [|done]. cbn [mbind result_bind].
  intros H. injection H as <-. by exists q, n.
Qed.

(** X22. The comprehensive results need the prices of the services.
    Whenever they are returned, each of the four priced services — the
    additional bracelets and the bracelets of non-subscribers, both at the
    VIP bracelet entry, the CBYI services at the Custom one-month CBYI
    entry, the car rental at the VIP one-month car entry — has a numeric
    cost and selling price in the pricing data and a numeric quantity in
    the inputs, and its line has the cost and the revenue of that quantity
    at these prices and their difference as profit; a catalog without one
    of the prices makes the calculation raise. *)
Theorem services_are_priced_by_three_entries
    (w w' : world) (results : Results.t) :
  RevenueCalculator.calculate_comprehensive_results w = (Ok results, w') ->
  forall name tier item key dflt,
    In (name, tier, item, key, dflt) priced_services ->
    exists cost selling n line,
      service_price (pricing_data w) tier item "cost" = Ok cost
      /\ service_price (pricing_data w) tier item "selling" = Ok selling
      /\ quantity (inputs w) key dflt = Ok n
      /\ dget (Results.additional_services results) name = Some line
      /\ Service.cost line = cost * n
      /\ Service.revenue line = selling * n
      /\ Service.profit line = selling * n - cost * n.
Proof.
  intros Hrun.
  destruct (comprehensive_results_inv _ _ _ Hrun)
    as (subs & svcs & _ & Hsvcs & -> & _).
  cbn [Results.additional_services].
  unfold RevenueCalculator._calculate_additional_services,
    DataManager.get_additional_services_summary, mbind, M_bind, get_pricing,
    get_inputs, lift in Hsvcs.
  destruct (DataManager.services_of _ _) as [l|e] eqn:Hl; [|done].
  injection Hsvcs as <-. revert Hl.
  unfold DataManager.services_of.
  repeat match goal with
         | |- context [mbind _ ?r] =>
             match r with
             | DataManager.fee_revenue _ _ _ _ _ => destruct r; [|done]
             | DataManager.price_times _ ?t ?i ?f _ =>
                 let H := fresh "H" in
                 destruct r eqn:H; [apply price_times_inv in H|done]
             end; cbn [mbind result_bind]
         end.
  intros Hl. injection Hl as <-.
  intros name tier item key dflt Hin. simpl in Hin.
  repeat match goal with
         | H : exists p n, _ |- _ => destruct H as (? & ? & ? & ? & ->)
         end.
  repeat match goal with
         | H1 : ?a = Ok ?x, H2 : ?a = Ok ?y |- _ =>
             rewrite H1 in H2; injection H2 as <-
         end.
  repeat (destruct Hin as [E | Hin];
          [injection E as <- <- <- <- <-; do 4 eexists;
           split_conj; [eassumption | eassumption | eassumption
                       | reflexivity | reflexivity..]|]).
  destruct Hin.
Qed.

Lemma services_are_priced_by_three_entries_witness :
  exists results w' cost selling n line,
    RevenueCalculator.calculate_comprehensive_results DataManager.init
    = (Ok results, w')
    /\ service_price (pricing_data DataManager.init) "VIP" "bracelet" "cost"
       = Ok cost
    /\ service_price (pricing_data DataManager.init) "VIP" "bracelet" "selling"
       = Ok selling
    /\ quantity (inputs DataManager.init) "bracelets_non_subscribers" 75 = Ok n
    /\ dget (Results.additional_services results) "Non-Subscriber Bracelets"
       = Some line
    /\ Service.cost line = cost * n
    /\ Service.revenue line = selling * n
    /\ Service.profit line = selling * n - cost * n.
Proof.
  assert (exists results w',
             RevenueCalculator.calculate_comprehensive_results DataManager.init
             = (Ok results, w'))
    as (results & w' & Hrun).
  { do 2 eexists. vm_compute. reflexivity. }
  destruct (services_are_priced_by_three_entries DataManager.init w' results
              Hrun "Non-Subscriber Bracelets" "VIP" "bracelet"
              "bracelets_non_subscribers" 75)
    as (cost & selling & n & line & H).
  - simpl. tauto.
  - by exists results, w', cost, selling, n, line.
Defined.

(** ** The risk label of a scenario *)

(** The label is high for a growth above 0.3 or a retention below 0.85, low
    for a growth of at most 0.15 with a retention of at least 0.90, and
    medium between. *)
Lemma risk_label_cases (growth_rate retention_rate : Q) :
  let rank :=
    risk_rank (ForecastPage.classify_risk_level growth_rate retention_rate) in
  (0.3 < growth_rate \/ retention_rate < 0.85 -> rank = 2%nat)
  /\ (growth_rate <= 0.3 -> 0.85 <= retention_rate ->
      0.15 < growth_rate \/ retention_rate < 0.90 -> rank = 1%nat)
  /\ (growth_rate <= 0.15 -> 0.90 <= retention_rate -> rank = 0%nat).
Proof.
  unfold ForecastPage.classify_risk_level. split_conj.
  - intros H.
    assert (Qgtb growth_rate 0.3 || Qgtb 0.85 retention_rate = true) as ->;
      [|reflexivity].
    apply orb_true_iff. rewrite !Qgtb_true. tauto.
  - intros Hg Hr H.
    apply Qgtb_false in Hg as ->. apply Qgtb_false in Hr as ->.
    assert (Qgtb growth_rate 0.15 || Qgtb 0.90 retention_rate = true) as ->;
      [|reflexivity].
    apply orb_true_iff. rewrite !Qgtb_true. tauto.
  - intros Hg Hr.
    assert (Hg' : growth_rate <= 0.3) by lra.
    assert (Hr' : 0.85 <= retention_rate) by lra.
    apply Qgtb_false in Hg as ->. apply Qgtb_false in Hr as ->.
    apply Qgtb_false in Hg' as ->. by apply Qgtb_false in Hr' as ->.
Qed.

(** X23. The risk label follows the rates: a scenario with at least the
    growth and at most the retention of another is never given a lower
    label than the other. *)
Theorem risk_label_follows_the_rates
    (growth_rate retention_rate growth_rate' retention_rate' : Q) :
  growth_rate <= growth_rate' -> retention_rate' <= retention_rate ->
  (risk_rank (ForecastPage.classify_risk_level growth_rate retention_rate)
   <= risk_rank
        (ForecastPage.classify_risk_level growth_rate' retention_rate'))%nat.
Proof.
  intros Hg Hr.
  destruct (risk_label_cases growth_rate retention_rate) as (Hhigh & Hmid & Hlow).
  destruct (risk_label_cases growth_rate' retention_rate')
    as (Hhigh' & Hmid' & Hlow').
  destruct (Qlt_le_dec 0.3 growth_rate') as [G1 | G1];
    [rewrite Hhigh' by (by left) |].
  { destruct (Qlt_le_dec 0.3 growth_rate);
      [rewrite Hhigh by (by left); lia|].
    destruct (Qlt_le_dec retention_rate 0.85);
      [rewrite Hhigh by (by right); lia|].
    destruct (Qlt_le_dec 0.15 growth_rate);
      [rewrite Hmid by (done || by left); lia|].
    destruct (Qlt_le_dec retention_rate 0.90);
      [rewrite Hmid by (done || by right); lia|].
    rewrite Hlow by done. lia. }
  destruct (Qlt_le_dec retention_rate' 0.85) as [R1 | R1];
    [rewrite Hhigh' by (by right) |].
  { destruct (Qlt_le_dec 0.3 growth_rate);
      [rewrite Hhigh by (by left); lia|].
    destruct (Qlt_le_dec retention_rate 0.85);
      [rewrite Hhigh by (by right); lia|].
    destruct (Qlt_le_dec 0.15 growth_rate);
      [rewrite Hmid by (done || by left); lia|].
    destruct (Qlt_le_dec retention_rate 0.90);
      [rewrite Hmid by (done || by right); lia|].
    rewrite Hlow by done. lia. }
  assert (growth_rate <= 0.3) by lra.
  assert (0.85 <= retention_rate) by lra.
  destruct (Qlt_le_dec 0.15 growth_rate') as [G2 | G2];
    [rewrite Hmid' by (done || by left) |].
  { destruct (Qlt_le_dec 0.15 growth_rate);
      [rewrite Hmid by (done || by left); lia|].
    destruct (Qlt_le_dec retention_rate 0.90);
      [rewrite Hmid by (done || by right); lia|].
    rewrite Hlow by done. lia. }
  destruct (Qlt_le_dec retention_rate' 0.90) as [R2 | R2];
    [rewrite Hmid' by (done || by right) |].
  { destruct (Qlt_le_dec 0.15 growth_rate);
      [rewrite Hmid by (done || by left); lia|].
    destruct (Qlt_le_dec retention_rate 0.90);
      [rewrite Hmid by (done || by right); lia|].
    rewrite Hlow by done. lia. }
  rewrite Hlow' by done. rewrite Hlow by lra. lia.
Qed.

Lemma risk_label_follows_the_rates_witness :
  (risk_rank (ForecastPage.classify_risk_level 0.15 0.90)
   <= risk_rank (ForecastPage.classify_risk_level 0.30 0.85))%nat
  /\ ForecastPage.classify_risk_level 0.15 0.90 = "🟢 Low Risk"
  /\ ForecastPage.classify_risk_level 0.30 0.85 = "🟡 Medium Risk".
Proof.
  split; [|by split].
  apply (risk_label_follows_the_rates 0.15 0.90 0.30 0.85); by vm_compute.
Defined.

(** ** Tiers as objects *)

(** X24. An update of a default tier survives the reset.  When the tier
    under a name is the object the defaults have under that name — as it is
    in the manager of a fresh session and after every reset — then after
    [update_pricing_data] with updates of distinct keys and
    [reset_pricing_to_defaults], the pricing data are bound as the defaults
    are, the tier under the name is the same object, and it holds the
    updated value under every key of the updates and what it held under
    every other key: the reset copies the bindings of the defaults, whose
    tier the update has changed in place. *)
Theorem tier_updates_survive_a_reset
    (s : Tiers.state) (name : string) (l : loc) (t updates : Tiers.tier) :
  dget (Tiers.pricing s) name = Some (Tiers.PObj l) ->
  dget (Tiers.defaults s) name = Some (Tiers.PObj l) ->
  Tiers.objects s !! l = Some t ->
  NoDup (map fst updates) ->
  exists s1 s2 t',
    Tiers.update_pricing_data name updates s = (Ok tt, s1)
    /\ Tiers.reset_pricing_to_defaults s1 = (Ok tt, s2)
    /\ Tiers.pricing s2 = Tiers.defaults s
    /\ Tiers.defaults s2 = Tiers.defaults s
    /\ Tiers.session_pricing s2 = Some (Tiers.pricing s2)
    /\ dget (Tiers.pricing s2) name = Some (Tiers.PObj l)
    /\ Tiers.objects s2 !! l = Some t'
    /\ forall k,
         dget t' k
         = match dget updates k with
           | Some v => Some v
           | None => dget t k
           end.
Proof.
  intros Hpricing Hdefault Hobject Hnd.
  unfold Tiers.update_pricing_data, Tiers.reset_pricing_to_defaults.
  rewrite Hpricing, Hobject. do 3 eexists.
  split; [reflexivity|]. split; [reflexivity|]. simpl.
  split_conj; try done.
  - apply lookup_insert_eq.
  - intros k. by apply dict_update_lookup.
Qed.

Lemma tier_updates_survive_a_reset_witness :
  exists s1 s2 t',
    Tiers.update_pricing_data "VIP" [("digitalProfit", JNum 0)] first_manager
    = (Ok tt, s1)
    /\ Tiers.reset_pricing_to_defaults s1 = (Ok tt, s2)
    /\ dget (Tiers.pricing s2) "VIP" = Some (Tiers.PObj 1%positive)
    /\ Tiers.objects s2 !! 1%positive = Some t'
    /\ dget t' "digitalProfit" = Some (JNum 0)
    /\ Tiers.objects first_manager !! 1%positive
       ≫= (fun t => dget t "digitalProfit") = Some (JNum 500).
Proof.
  assert (exists t, Tiers.objects first_manager !! 1%positive = Some t
                    /\ dget t "digitalProfit" = Some (JNum 500))
    as (t & Hobject & Hold).
  { eexists. split; [vm_compute; reflexivity | reflexivity]. }
  destruct (tier_updates_survive_a_reset first_manager "VIP" 1%positive t
              [("digitalProfit", JNum 0)])
    as (s1 & s2 & t' & Hupdate & Hreset & _ & _ & _ & Hname & Hobject' & Hget).
  - reflexivity.
  - reflexivity.
  - exact Hobject.
  - apply (bool_decide_unpack _). by vm_compute.
  - exists s1, s2, t'.
    split_conj; try done; first [by rewrite Hget | by rewrite Hobject].
Defined.

(** The loop body gives an item its scaled value. *)
Lemma scale_item_scaled multiplier acc k v :
  PricingPage.scale_item multiplier acc (k, v)
  = (v' ← scaled multiplier v; Ok (dset acc k v')).
Proof.
  unfold scaled, PricingPage.scale_item.
  destruct v as [| b | q | s | l | d]; try reflexivity.
  destruct (dmem d "cost"); [|reflexivity].
  destruct (dsubscript d "cost") as [c|]; [|reflexivity].
  cbn [mbind result_bind].
  destruct (json_num c) as [x|]; [|reflexivity]. cbn [mbind result_bind].
  destruct (dsubscript d "selling") as [p|]; [|reflexivity].
  cbn [mbind result_bind].
  by destruct (json_num p) as [y|].
Qed.

Lemma scaled_price_entry multiplier v c p :
  price_entry v c p ->
  scaled multiplier v
  = Ok (AppConfig.entry (c * multiplier) (p * multiplier)
          (p * multiplier - c * multiplier)).
Proof.
  intros (d & -> & Hc & Hp). unfold scaled, PricingPage.scale_item.
  unfold dmem, dsubscript. by rewrite Hc, Hp.
Qed.

Lemma scaled_priced multiplier v :
  priced v -> exists v', scaled multiplier v = Ok v'.
Proof.
  intros [(c & p & H) | (x & ->)].
  - rewrite (scaled_price_entry _ _ _ _ H). by eexists.
  - by eexists.
Qed.

Lemma dset_keys {V} (d : list (string * V)) (k : string) (v : V) :
  NoDup (map fst d) -> NoDup (map fst (dset d k v)).
Proof.
  induction d as [|[k' v'] d IH]; simpl; intros Hnd.
  - apply NoDup_cons. split; [by intros ?%elem_of_nil | constructor].
  - apply NoDup_cons in Hnd as [Hnew Hnd].
    destruct (String.eqb k' k) eqn:E; simpl.
    + by apply NoDup_cons.
    + apply NoDup_cons. split; [|by apply IH].
      intros Hin. apply list_elem_of_In, in_map_iff in Hin
        as ([k0 v0] & <- & Hin).
      apply In_dset in Hin as [Hin | [-> _]].
      * apply Hnew, list_elem_of_In. by apply (in_map fst _ (k0, v0)).
      * simpl in E. by rewrite String.eqb_refl in E.
Qed.

(** The loop over the items of a tier. *)
Lemma scale_loop multiplier (t : Tiers.tier) :
  NoDup (map fst t) ->
  Forall (fun item => priced item.2) t ->
  forall acc,
    NoDup (map fst acc) ->
    exists u,
      for_each t acc (PricingPage.scale_item multiplier) = Ok u
      /\ NoDup (map fst u)
      /\ forall k,
           dget u k
           = match dget t k with
             | Some v =>
                 match scaled multiplier v with
                 | Ok v' => Some v'
                 | Raise _ => None
                 end
             | None => dget acc k
             end.
Proof.
  induction t as [|[k0 v0] t IH]; intros Hnd Hall acc Hacc.
  - exists acc. by split_conj.
  - apply NoDup_cons in Hnd as [Hnew Hnd].
    apply Forall_cons in Hall as [Hv0 Hall]. simpl in Hv0.
    destruct (scaled_priced multiplier v0 Hv0) as [v0' Hscaled].
    cbn [for_each]. rewrite scale_item_scaled, Hscaled.
    cbn [mbind result_bind].
    destruct (IH Hnd Hall (dset acc k0 v0')) as (u & Hloop & Hu & Hget);
      [by apply dset_keys|].
    exists u. split; [exact Hloop|]. split; [exact Hu|].
    intros k. rewrite Hget. simpl.
    destruct (String.eqb k0 k) eqn:E.
    + apply String.eqb_eq in E as <-.
      rewrite dget_not_in by (by rewrite <- list_elem_of_In).
      by rewrite dget_dset_eq, Hscaled.
    + destruct (dget t k); [done|]. apply dget_dset_ne.
      intros ->. by rewrite String.eqb_refl in E.
Qed.

(** One round of the outer loop: the tier under a name. *)
Lemma scale_tier multiplier s name l t :
  name <> EmptyString ->
  priced_tier s name l t ->
  exists t',
    (pricing ← Tiers.get_pricing_data (Some name);
     items ← Tiers.items pricing;
     match for_each items [] (PricingPage.scale_item multiplier) with
     | Ok updated_pricing => Tiers.update_pricing_data name updated_pricing
     | Raise e => fun s => (Raise e, s)
     end) s
    = (Ok tt,
       {| Tiers.objects := <[l := t']> (Tiers.objects s);
          Tiers.defaults := Tiers.defaults s;
          Tiers.pricing := Tiers.pricing s;
          Tiers.session_pricing := Some (Tiers.pricing s) |})
    /\ scaled_from multiplier t t'.
Proof.
  intros Hname (Hpricing & Hobject & Hnd & Hall).
  destruct (scale_loop multiplier t Hnd Hall []) as (u & Hloop & Hu & Hget);
    [constructor|].
  exists (DataManager.dict_update t u). split.
  - unfold mbind, Tiers.P_bind, Tiers.get_pricing_data.
    destruct name as [|a name]; [done|]. rewrite Hpricing.
    unfold Tiers.items, Tiers.resolve. rewrite Hobject, Hloop.
    unfold Tiers.update_pricing_data. by rewrite Hpricing, Hobject.
  - assert (Hlookup : forall k,
              dget (DataManager.dict_update t u) k
              = match dget t k with
                | Some v =>
                    match scaled multiplier v with
                    | Ok v' => Some v'
                    | Raise _ => None
                    end
                | None => None
                end).
    { intros k. rewrite dict_update_lookup, Hget by done.
      destruct (dget t k) as [v|] eqn:Hk; [|done].
      destruct (scaled multiplier v) as [v'|e] eqn:Hv; [done|].
      apply dget_In in Hk. rewrite Forall_forall in Hall.
      apply list_elem_of_In, Hall in Hk.
      destruct (scaled_priced multiplier v Hk) as [v' Hv']. congruence. }
    unfold scaled_from. split_conj.
    + intros k. rewrite Hlookup.
      destruct (dget t k) as [v|] eqn:Hk; [|done].
      apply dget_In in Hk. rewrite Forall_forall in Hall.
      apply list_elem_of_In, Hall in Hk.
      destruct (scaled_priced multiplier v Hk) as [v' ->]. done.
    + intros k v c p Hk Hentry.
      by rewrite Hlookup, Hk, (scaled_price_entry _ _ _ _ Hentry).
    + intros k x Hk. by rewrite Hlookup, Hk.
Qed.

(** X25. A percentage change scales every price and recomputes every
    profit.  When the three tiers of the pricing data are distinct objects
    whose items are price entries with a numeric cost and selling price, or
    numbers, under distinct keys, [apply_percentage_change] returns and
    leaves the bindings of the pricing data and of the defaults as they
    were; every tier keeps its keys, every price entry is replaced by one of
    the scaled cost, the scaled selling price and their difference as
    profit, whatever profit and other keys it had, and every number — the
    digital profit — is scaled too. *)
Theorem percentage_change_scales_every_price
    (multiplier : Q) (s : Tiers.state) (l1 l2 l3 : loc)
    (t1 t2 t3 : Tiers.tier) :
  priced_tier s "VIP" l1 t1 ->
  priced_tier s "Normal" l2 t2 ->
  priced_tier s "Custom" l3 t3 ->
  l1 <> l2 -> l1 <> l3 -> l2 <> l3 ->
  exists s' t1' t2' t3',
    PricingPage.apply_percentage_change multiplier s = (Ok tt, s')
    /\ Tiers.pricing s' = Tiers.pricing s
    /\ Tiers.defaults s' = Tiers.defaults s
    /\ Tiers.session_pricing s' = Some (Tiers.pricing s)
    /\ Tiers.objects s'
       = <[l3 := t3']> (<[l2 := t2']> (<[l1 := t1']> (Tiers.objects s)))
    /\ scaled_from multiplier t1 t1'
    /\ scaled_from multiplier t2 t2'
    /\ scaled_from multiplier t3 t3'.
Proof.
  intros H1 H2 H3 H12 H13 H23.
  destruct (scale_tier multiplier s "VIP" l1 t1) as (t1' & Hrun1 & Hs1);
    [done | done |].
  set (s1 := {| Tiers.objects := <[l1 := t1']> (Tiers.objects s);
                Tiers.defaults := Tiers.defaults s;
                Tiers.pricing := Tiers.pricing s;
                Tiers.session_pricing := Some (Tiers.pricing s) |}) in *.
  destruct (scale_tier multiplier s1 "Normal" l2 t2) as (t2' & Hrun2 & Hs2);
    [done | |].
  { destruct H2 as (? & ? & ? & ?). unfold priced_tier. simpl.
    split_conj; try done. by rewrite lookup_insert_ne. }
  set (s2 := {| Tiers.objects := <[l2 := t2']> (Tiers.objects s1);
                Tiers.defaults := Tiers.defaults s1;
                Tiers.pricing := Tiers.pricing s1;
                Tiers.session_pricing := Some (Tiers.pricing s1) |}) in *.
  destruct (scale_tier multiplier s2 "Custom" l3 t3) as (t3' & Hrun3 & Hs3);
    [done | |].
  { destruct H3 as (? & ? & ? & ?). unfold priced_tier. simpl.
    split_conj; try done. by rewrite !lookup_insert_ne. }
  eexists _, t1', t2', t3'. split.
  { unfold PricingPage.apply_percentage_change. cbn [for_each].
    unfold mbind at 1, Tiers.P_bind at 1. rewrite Hrun1.
    unfold mbind at 1, Tiers.P_bind at 1. rewrite Hrun2.
    unfold mbind at 1, Tiers.P_bind at 1. rewrite Hrun3.
    reflexivity. }
  simpl. by split_conj.
Qed.

Lemma percentage_change_scales_every_price_witness :
  exists s' t1 t1',
    PricingPage.apply_percentage_change 1.1 first_manager = (Ok tt, s')
    /\ Tiers.objects first_manager !! 1%positive = Some t1
    /\ Tiers.objects s' !! 1%positive = Some t1'
    /\ scaled_from 1.1 t1 t1'.
Proof.
  assert (exists t1 t2 t3,
             Tiers.objects first_manager !! 1%positive = Some t1
             /\ Tiers.objects first_manager !! 2%positive = Some t2
             /\ Tiers.objects first_manager !! 3%positive = Some t3
             /\ forallb
                  (fun t : Tiers.tier =>
                     bool_decide (NoDup (map fst t))
                     && forallb
                          (fun item : string * json =>
                             match item.2 with
                             | JNum _ => true
                             | JDict d =>
                                 match dget d "cost", dget d "selling" with
                                 | Some (JNum _), Some (JNum _) => true
                                 | _, _ => false
                                 end
                             | _ => false
                             end) t) [t1; t2; t3] = true)
    as (t1 & t2 & t3 & Ht1 & Ht2 & Ht3 & Hshape).
  { do 3 eexists. split_conj;
      [vm_compute; reflexivity.. | by vm_compute]. }
  assert (Hpriced : forall t : Tiers.tier,
             In t [t1; t2; t3] ->
             NoDup (map fst t) /\ Forall (fun item => priced item.2) t).
  { intros t Hin. rewrite forallb_forall in Hshape.
    apply Hshape, andb_true_iff in Hin as [Hnd Hitems].
    split; [by apply bool_decide_eq_true in Hnd|].
    rewrite forallb_forall in Hitems. apply Forall_forall.
    intros [k v] Hkv. apply list_elem_of_In, Hitems in Hkv. simpl in *.
    destruct v as [| | x | | | d]; try done; [right; by exists x|].
    destruct (dget d "cost") as [[| | c | | |]|] eqn:Hc; try done.
    destruct (dget d "selling") as [[| | p | | |]|] eqn:Hp; try done.
    left. exists c, p, d. by split_conj. }
  destruct (percentage_change_scales_every_price 1.1 first_manager
              1%positive 2%positive 3%positive t1 t2 t3)
    as (s' & t1' & t2' & t3' & Hrun & _ & _ & _ & Hobjects & Hs1 & _);
    try done.
  - destruct (Hpriced t1) as [? ?]; [simpl; tauto|]. by split_conj.
  - destruct (Hpriced t2) as [? ?]; [simpl; tauto|]. by split_conj.
  - destruct (Hpriced t3) as [? ?]; [simpl; tauto|]. by split_conj.
  - exists s', t1, t1'. split_conj; try done.
    rewrite Hobjects. rewrite !lookup_insert_ne by done.
    apply lookup_insert_eq.
Defined.

(** ** The state a scenario analysis leaves *)

Lemma for_each_app_run {A B} (l k : list A) (acc : B) (body : B -> A -> M B)
    (w : world) :
  for_each (l ++ k) acc body w
  = match for_each l acc body w with
    | (Ok acc', w') => for_each k acc' body w'
    | (Raise e, w') => (Raise e, w')
    end.
Proof.
  revert acc w. induction l as [|x l IH]; intros acc w; [done|].
  cbn [app]. rewrite !for_each_cons.
  destruct (body acc x w) as [[acc1|e] w1]; [apply IH | done].
Qed.

Lemma writes_objects_only_ret {A} (a : A) : writes_objects_only (mret a).
Proof. done. Qed.

Lemma writes_objects_only_bind {A B} (m : M A) (f : A -> M B) :
  writes_objects_only m -> (forall a, writes_objects_only (f a)) ->
  writes_objects_only (m ≫= f).
Proof.
  intros Hm Hf w. unfold mbind, M_bind. specialize (Hm w).
  destruct (m w) as [[a|e] w1]; simpl in *; [|done].
  destruct Hm as (H1 & H2 & H3), (Hf a w1) as (G1 & G2 & G3).
  split_conj; congruence.
Qed.

Lemma writes_objects_only_read {A} (m : M A) :
  read_only m -> writes_objects_only m.
Proof. intros H w. by rewrite H. Qed.

Lemma writes_objects_only_store l k v : writes_objects_only (store l k v).
Proof. intros w. unfold store. by destruct (heap w !! l). Qed.

Lemma writes_objects_only_for_each {A B} (l : list A) (body : B -> A -> M B) :
  (forall acc x, writes_objects_only (body acc x)) ->
  forall acc, writes_objects_only (for_each l acc body).
Proof.
  intros Hbody. induction l as [|x l IH]; intros acc.
  - apply writes_objects_only_ret.
  - apply (writes_objects_only_bind (body acc x)); [apply Hbody | done].
Qed.

Lemma writes_objects_only_scale_counts scenario_data u item :
  writes_objects_only (RevenueCalculator.scale_counts scenario_data u item).
Proof.
  unfold RevenueCalculator.scale_counts. destruct item.2 as [q|l]; [done|].
  apply writes_objects_only_bind;
    [apply writes_objects_only_read, read_only_deref|]. intros value.
  destruct (dmem value "customers"); [|done].
  apply writes_objects_only_bind; [done|]. intros c.
  apply writes_objects_only_bind; [apply writes_objects_only_store|].
  intros _. apply writes_objects_only_bind;
    [apply writes_objects_only_read, read_only_deref|]. intros value'.
  apply writes_objects_only_bind; [done|]. intros r.
  apply writes_objects_only_store.
Qed.

(** A scenario: the entry it adds and the world it leaves. *)
Lemma scenario_step_inv acc name data w acc' w' :
  RevenueCalculator.scenario_step acc (name, data) w = (Ok acc', w') ->
  inputs w' = inputs w
  /\ pricing_data w' = pricing_data w
  /\ exists results,
       RevenueCalculator.calculate_comprehensive_results w' = (Ok results, w')
       /\ acc' = dset acc name
                   {| ScenarioResult.totals := Results.totals results;
                      ScenarioResult.scenario_params := data |}.
Proof.
  unfold RevenueCalculator.scenario_step, shallow_copy.
  unfold mbind at 1, M_bind, get_inputs. cbv zeta.
  unfold mbind at 1, M_bind.
  pose proof (writes_objects_only_for_each (inputs w)
                (RevenueCalculator.scale_counts data)
                (writes_objects_only_scale_counts data) tt w)
    as (Hi & Hp & Hs).
  destruct (for_each (inputs w) tt (RevenueCalculator.scale_counts data) w)
    as [[u|e] w1]; [|done]. simpl in Hi, Hp, Hs.
  unfold mbind at 1, M_bind, set_inputs.
  assert (Hw1 : {| heap := heap w1; pricing_data := pricing_data w1;
                   inputs := inputs w; session := session w1 |} = w1)
    by (destruct w1; simpl in *; by subst).
  rewrite Hw1. unfold mbind at 1, M_bind.
  destruct (RevenueCalculator.calculate_comprehensive_results w1)
    as [[results|e] w2] eqn:Hrun; [|done].
  cbn. intros H. injection H as <- <-.
  destruct (comprehensive_results_inv _ _ _ Hrun) as (_ & _ & _ & _ & _ & Hw2).
  assert (Hw2' : {| heap := heap w2; pricing_data := pricing_data w2;
                    inputs := inputs w; session := session w2 |} = w2)
    by (rewrite Hw2; simpl; by rewrite Hi).
  rewrite Hw2'. split; [by rewrite Hw2|]. split; [by rewrite Hw2|].
  exists results. split; [|done]. by apply (comprehensive_results_again w1).
Qed.

Lemma scenario_loop_frame scenarios acc w out w' :
  for_each scenarios acc RevenueCalculator.scenario_step w = (Ok out, w') ->
  inputs w' = inputs w /\ pricing_data w' = pricing_data w.
Proof.
  revert acc w. induction scenarios as [|[name data] l IH]; intros acc w Hrun.
  - by injection Hrun as _ <-.
  - rewrite for_each_cons in Hrun.
    destruct (RevenueCalculator.scenario_step acc (name, data) w)
      as [[acc1|e] w1] eqn:Hstep; [|done].
    apply scenario_step_inv in Hstep as (Hi & Hp & _).
    destruct (IH _ _ Hrun) as [Hi' Hp']. split; congruence.
Qed.

(** X26. A scenario analysis leaves the world of its last scenario.
    Whenever [calculate_scenario_analysis] returns, the inputs dictionary
    and the pricing data are bound as before, and a plain calculation in
    the world it leaves returns the totals the analysis reports for the
    last scenario, with the parameters of that scenario echoed: the counts
    the scenarios scaled in the nested objects are the counts the next
    calculation reads. *)
Theorem scenario_analysis_leaves_the_last_scenario
    (scenarios : list (string * Multipliers.t)) (name : string)
    (data : Multipliers.t) (w w' : world)
    (out : list (string * ScenarioResult.t)) :
  RevenueCalculator.calculate_scenario_analysis
    (scenarios ++ [(name, data)])%list w = (Ok out, w') ->
  inputs w' = inputs w
  /\ pricing_data w' = pricing_data w
  /\ exists results,
       RevenueCalculator.calculate_comprehensive_results w' = (Ok results, w')
       /\ dget out name
          = Some {| ScenarioResult.totals := Results.totals results;
                    ScenarioResult.scenario_params := data |}.
Proof.
  unfold RevenueCalculator.calculate_scenario_analysis.
  rewrite for_each_app_run.
  destruct (for_each scenarios [] RevenueCalculator.scenario_step w)
    as [[acc1|e] w1] eqn:Hloop; [|done].
  apply scenario_loop_frame in Hloop as [Hi Hp].
  rewrite for_each_cons.
  destruct (RevenueCalculator.scenario_step acc1 (name, data) w1)
    as [[acc2|e] w2] eqn:Hstep; [|done].
  intros H. injection H as <- <-.
  apply scenario_step_inv in Hstep as (Hi' & Hp' & results & Hrun & ->).
  split; [congruence|]. split; [congruence|].
  exists results. split; [exact Hrun | apply dget_dset_eq].
Qed.

Lemma scenario_analysis_leaves_the_last_scenario_witness :
  exists out w' results entry,
    RevenueCalculator.calculate_scenario_analysis
      [("double", {| Multipliers.customer_multiplier := Some 2;
                     Multipliers.renewal_multiplier := None |})]
      DataManager.init = (Ok out, w')
    /\ RevenueCalculator.calculate_comprehensive_results w' = (Ok results, w')
    /\ dget out "double" = Some entry
    /\ ScenarioResult.totals entry = Results.totals results
    /\ Totals.total_customers (Results.totals results) == 560.
Proof.
  assert (exists out w',
             RevenueCalculator.calculate_scenario_analysis
               [("double", {| Multipliers.customer_multiplier := Some 2;
                              Multipliers.renewal_multiplier := None |})]
               DataManager.init = (Ok out, w')
             /\ forall entry,
                  dget out "double" = Some entry ->
                  Totals.total_customers (ScenarioResult.totals entry) == 560)
    as (out & w' & Hrun & Hcount).
  { do 2 eexists. split; [vm_compute; reflexivity|].
    intros entry H. vm_compute in H. injection H as <-. by vm_compute. }
  destruct (scenario_analysis_leaves_the_last_scenario [] "double"
              {| Multipliers.customer_multiplier := Some 2;
                 Multipliers.renewal_multiplier := None |}
              DataManager.init w' out Hrun)
    as (_ & _ & results & Hagain & Hentry).
  exists out, w', results. eexists.
  split; [exact Hrun|]. split; [exact Hagain|]. split; [exact Hentry|].
  split; [reflexivity|]. by apply (Hcount _ Hentry).
Defined.

(** ** The tier a pricing override replaces *)

(** [_apply_pricing_adjustments] on a catalog with a VIP tier. *)
Lemma apply_pricing_adjustments_on_vip
    (base_results : Results.t) (pricing_adjustments : json)
    (quantity_adjustments : option inputs_dict) (w : world)
    (d : list (string * json)) :
  pricing_data w = JDict d ->
  dmem d "VIP" = true ->
  let overridden :=
    with_pricing (JDict (dset d "VIP" pricing_adjustments))
      (with_quantities quantity_adjustments w) in
  Forecaster._apply_pricing_adjustments base_results pricing_adjustments
    quantity_adjustments w
  = match RevenueCalculator.calculate_comprehensive_results overridden with
    | (Ok results, _) =>
        (Ok results,
         {| heap := heap w; pricing_data := JDict d; inputs := inputs w;
            session :=
              {| ss_pricing_data := ss_pricing_data (session w);
                 ss_input_data :=
                   ss_input_data (session (with_quantities
                                             quantity_adjustments w));
                 last_calculation := Some (Results.totals results) |} |})
    | (Raise e, _) => (Raise e, overridden)
    end.
Proof.
  intros Hd Hvip overridden. subst overridden.
  unfold Forecaster._apply_pricing_adjustments, with_quantities, with_pricing.
  cbn [Forecaster.adjust_first].
  unfold mbind, M_bind, get_pricing, get_inputs, lift, set_inputs,
    get_session, set_session, set_pricing, mret, M_ret, shallow_copy.
  rewrite Hd. cbn [Forecaster.json_copy json_contains Forecaster.json_setitem].
  unfold shallow_copy. rewrite Hvip.
  destruct (Forecaster.truthy quantity_adjustments); cbn [heap session
    ss_pricing_data ss_input_data inputs pricing_data last_calculation].
  - match goal with
    | |- context [RevenueCalculator.calculate_comprehensive_results ?w1] =>
        destruct (RevenueCalculator.calculate_comprehensive_results w1)
          as [[results|e] w2] eqn:Hrun
    end.
    + by destruct (comprehensive_results_inv _ _ _ Hrun)
        as (_ & _ & _ & _ & _ & ->).
    + by apply comprehensive_results_raise in Hrun as ->.
  - match goal with
    | |- context [RevenueCalculator.calculate_comprehensive_results ?w1] =>
        destruct (RevenueCalculator.calculate_comprehensive_results w1)
          as [[results|e] w2] eqn:Hrun
    end.
    + by destruct (comprehensive_results_inv _ _ _ Hrun)
        as (_ & _ & _ & _ & _ & ->).
    + by apply comprehensive_results_raise in Hrun as ->.
Qed.

(** X27. A pricing override always replaces the VIP tier.  On pricing data
    that are a mapping with the key VIP, [_apply_pricing_adjustments]
    returns the comprehensive results of the catalog with the override in
    place of the VIP tier — the Normal and Custom tiers stay the live ones,
    whichever tier the override was made from — read with the quantity
    overrides when they are given.  On a normal return the pricing data and
    the inputs are put back, the last calculation of the session is the one
    of the override, and the input data of the session stay the quantity
    overrides; when the calculation raises, neither is put back. *)
Theorem pricing_override_replaces_the_vip_tier
    (base_results : Results.t) (pricing_adjustments : json)
    (quantity_adjustments : option inputs_dict) (w : world)
    (d : list (string * json)) :
  pricing_data w = JDict d ->
  dmem d "VIP" = true ->
  let overridden :=
    with_pricing (JDict (dset d "VIP" pricing_adjustments))
      (with_quantities quantity_adjustments w) in
  Forecaster._apply_pricing_adjustments base_results pricing_adjustments
    quantity_adjustments w
  = match RevenueCalculator.calculate_comprehensive_results overridden with
    | (Ok results, _) =>
        (Ok results,
         {| heap := heap w; pricing_data := JDict d; inputs := inputs w;
            session :=
              {| ss_pricing_data := ss_pricing_data (session w);
                 ss_input_data :=
                   ss_input_data (session (with_quantities
                                             quantity_adjustments w));
                 last_calculation := Some (Results.totals results) |} |})
    | (Raise e, _) => (Raise e, overridden)
    end.
Proof. apply apply_pricing_adjustments_on_vip. Qed.

Lemma pricing_override_replaces_the_vip_tier_witness :
  exists d normal results w1 w',
    pricing_data DataManager.init = JDict d
    /\ dget d "Normal" = Some normal
    /\ RevenueCalculator.calculate_comprehensive_results
         (with_pricing (JDict (dset d "VIP" normal)) DataManager.init)
       = (Ok results, w1)
    /\ Forecaster._apply_pricing_adjustments (baseline 0 0 0) normal None
         DataManager.init = (Ok results, w')
    /\ pricing_data w' = pricing_data DataManager.init
    /\ last_calculation (session w') = Some (Results.totals results).
Proof.
  assert (exists d normal results w1,
             pricing_data DataManager.init = JDict d
             /\ dmem d "VIP" = true
             /\ dget d "Normal" = Some normal
             /\ RevenueCalculator.calculate_comprehensive_results
                  (with_pricing (JDict (dset d "VIP" normal)) DataManager.init)
                = (Ok results, w1))
    as (d & normal & results & w1 & Hd & Hvip & Hnormal & Hrun).
  { do 4 eexists. split; [reflexivity|]. split; [reflexivity|].
    split; [reflexivity|]. vm_compute. reflexivity. }
  pose proof (pricing_override_replaces_the_vip_tier (baseline 0 0 0) normal
                None DataManager.init d Hd Hvip) as H.
  cbv zeta in H. unfold with_quantities in H. cbn [Forecaster.truthy] in H.
  rewrite Hrun in H.
  exists d, normal, results, w1. eexists.
  split; [exact Hd|]. split; [exact Hnormal|]. split; [exact Hrun|].
  split; [exact H|]. split; [by rewrite Hd | reflexivity].
Defined.
